(** * funmon-be: a verification model of the spending-dashboard backend

    The development embeds the Go program (package [main], package
    [services], package [types]) as Rocq functions and proves the
    properties its specification states about them.

    Conventions.
    - A Go [string] is a [string] of the Standard Library: a sequence of
      bytes ([ascii]); [len], indexing and comparison are bytewise.
    - A Go [float64] is a primitive [float] (IEEE 754 binary64).
    - A Go [map[string]float64] is a [gmap string float]; reading a missing
      key yields the zero value.
    - A Go [(T, error)] result is a sum [T + E]: [inl] carries the value,
      [inr] the error.
    - Library code ([time], [encoding/base64], [regexp], [strconv],
      [unicode/utf8], [strings]) is modelled by executable definitions in a
      module of its own; the repository's functions keep their names. *)

From Stdlib Require Import ZArith Lia PrimFloat SpecFloat FloatOps Ascii String.
From stdpp Require Import gmap strings list sorting.

Open Scope Z_scope.

(* ===================================================================== *)
(** * Part I. Definitions                                                  *)
(* ===================================================================== *)

(** ** Bytes and strings *)

Definition byte_val (c : ascii) : Z := Z.of_N (N_of_ascii c).

Definition byte_of (n : Z) : ascii := ascii_of_N (Z.to_N n).

Definition isDigit (c : ascii) : bool := (48 <=? byte_val c) && (byte_val c <=? 57).

Definition digit_val (c : ascii) : Z := byte_val c - 48.

Definition digit_char (d : Z) : ascii := byte_of (48 + d).

(** The double quote, which a string literal of this file cannot hold. *)
Definition dquote : string := String (ascii_of_nat 34) EmptyString.

(** [quote s]: Go's [strconv.Quote] and [time.quote] on a string of
    printable ASCII without quotes or backslashes (the only strings the
    program quotes: runs of digits, dots and dashes). *)
Definition quote (s : string) : string := dquote +:+ s +:+ dquote.

Fixpoint string_take (n : nat) (s : string) : string :=
  match n, s with
  | S n', String c s' => String c (string_take n' s')
  | _, _ => EmptyString
  end.

Fixpoint string_drop (n : nat) (s : string) : string :=
  match n, s with
  | S n', String _ s' => string_drop n' s'
  | _, _ => s
  end.

(** [skip_literal p s]: the rest of [s] after the literal [p], when [s]
    starts with it. *)
Fixpoint skip_literal (p s : string) : option string :=
  match p, s with
  | EmptyString, _ => Some s
  | String a p', String b s' => if Ascii.eqb a b then skip_literal p' s' else None
  | String _ _, EmptyString => None
  end.

(** [strings.ReplaceAll(s, old, "")] for a one-byte [old]. *)
Fixpoint remove_byte (old : ascii) (s : string) : string :=
  match s with
  | EmptyString => EmptyString
  | String c s' => if Ascii.eqb c old then remove_byte old s' else String c (remove_byte old s')
  end.

(** Decimal digits of a non-negative number, zero-padded on the left to
    [width] digits ([fuel] bounds the number of digits produced). *)
Fixpoint digits_rev (fuel : nat) (u : Z) : list ascii :=
  match fuel with
  | O => []
  | S fuel' => if u <? 10 then [digit_char u] else digit_char (u mod 10) :: digits_rev fuel' (u / 10)
  end.

Definition string_of_bytes (l : list ascii) : string := fold_right String EmptyString l.

Fixpoint bytes_of_string (s : string) : list ascii :=
  match s with
  | EmptyString => []
  | String c s' => c :: bytes_of_string s'
  end.

Definition pad_digits (width : nat) (u : Z) : string :=
  let ds := rev (digits_rev (S (Z.to_nat (Z.log2 u))) u) in
  string_of_bytes (replicate (width - length ds) (digit_char 0) ++ ds).

(** [time.appendInt]: a sign for a negative number, then its digits
    zero-padded to [width]. *)
Definition appendInt (x : Z) (width : nat) : string :=
  if x <? 0 then "-" +:+ pad_digits width (- x) else pad_digits width x.

(* --------------------------------------------------------------------- *)
(** ** Package [time], restricted to calendar dates

    The program only handles instants at midnight UTC: [time.Parse] with a
    layout of year, month and day, [Format] with such a layout, comparison
    and stepping by whole days.  A [Time] is modelled by the civil date of
    the instant; [After] is the chronological order of instants, which on
    civil dates is the lexicographic order of (year, month, day). *)

Module GoTime.

Record Time := mkTime { year : Z; month : Z; day : Z }.

(** The zero value of [time.Time]: January 1, year 1, 00:00:00 UTC. *)
Definition zero : Time := mkTime 1 1 1.

Definition IsZero (t : Time) : bool :=
  (year t =? 1) && (month t =? 1) && (day t =? 1).

Definition isLeap (y : Z) : bool :=
  (y mod 4 =? 0) && (negb (y mod 100 =? 0) || (y mod 400 =? 0)).

Definition daysIn (m y : Z) : Z :=
  if m =? 2 then (if isLeap y then 29 else 28)
  else if (m =? 4) || (m =? 6) || (m =? 9) || (m =? 11) then 30
  else 31.

Definition After (t u : Time) : bool :=
  (year u <? year t)
  || ((year u =? year t)
      && ((month u <? month t) || ((month u =? month t) && (day u <? day t)))).

(** The day before and the day after a civil date. *)
Definition pred_day (t : Time) : Time :=
  if 1 <? day t then mkTime (year t) (month t) (day t - 1)
  else if 1 <? month t then mkTime (year t) (month t - 1) (daysIn (month t - 1) (year t))
  else mkTime (year t - 1) 12 31.

Definition succ_day (t : Time) : Time :=
  if day t <? daysIn (month t) (year t) then mkTime (year t) (month t) (day t + 1)
  else if month t <? 12 then mkTime (year t) (month t + 1) 1
  else mkTime (year t + 1) 1 1.

(** [t.AddDate(0, 0, n)]: [Date] normalises day [day t + n] of the month
    into the calendar, which moves the date by [n] days. *)
Definition AddDays (t : Time) (n : Z) : Time :=
  if 0 <=? n then Nat.iter (Z.to_nat n) succ_day t
  else Nat.iter (Z.to_nat (- n)) pred_day t.

(** Layouts, as [nextStdChunk] cuts them: the reference-time fields the
    program uses, and literal text between them (never a space here). *)
Inductive chunk :=
| stdLongYear   (* "2006" *)
| stdYear       (* "06" *)
| stdZeroMonth  (* "01" *)
| stdZeroDay    (* "02" *)
| lit (s : string).

Definition chunk_text (c : chunk) : string :=
  match c with
  | stdLongYear => "2006" | stdYear => "06" | stdZeroMonth => "01"
  | stdZeroDay => "02" | lit s => s
  end.

Definition layout_text (l : list chunk) : string :=
  fold_right (fun c acc => chunk_text c +:+ acc) "" l.

(** "2006-01-02" *)
Definition layoutISO : list chunk :=
  [stdLongYear; lit "-"; stdZeroMonth; lit "-"; stdZeroDay].
(** "2006-01" *)
Definition layoutMonth : list chunk := [stdLongYear; lit "-"; stdZeroMonth].
(** "2006/01/02" *)
Definition layoutSlash : list chunk :=
  [stdLongYear; lit "/"; stdZeroMonth; lit "/"; stdZeroDay].
(** "02-01-06" *)
Definition layoutDMY : list chunk :=
  [stdZeroDay; lit "-"; stdZeroMonth; lit "-"; stdYear].

Definition format_chunk (t : Time) (c : chunk) : string :=
  match c with
  | stdLongYear => appendInt (year t) 4
  | stdYear => pad_digits 2 (Z.abs (year t) mod 100)
  | stdZeroMonth => pad_digits 2 (month t)
  | stdZeroDay => pad_digits 2 (day t)
  | lit s => s
  end.

Definition Format (t : Time) (layout : list chunk) : string :=
  fold_right (fun c acc => format_chunk t c +:+ acc) "" layout.

(** [*time.ParseError] and its [Error] method. *)
Record ParseError := mkParseError {
  pe_Layout : string; pe_Value : string;
  pe_LayoutElem : string; pe_ValueElem : string; pe_Message : string }.

Definition ParseError_Error (e : ParseError) : string :=
  if decide (pe_Message e = "") then
    "parsing time " +:+ quote (pe_Value e) +:+ " as " +:+ quote (pe_Layout e)
      +:+ ": cannot parse " +:+ quote (pe_ValueElem e) +:+ " as " +:+ quote (pe_LayoutElem e)
  else "parsing time " +:+ quote (pe_Value e) +:+ pe_Message e.

(** [getnum(s, true)]: exactly two digits. *)
Definition getnum2 (s : string) : option (Z * string) :=
  match s with
  | String a (String b rest) =>
      if isDigit a && isDigit b then Some (digit_val a * 10 + digit_val b, rest) else None
  | _ => None
  end.

(** [atoi] on a prefix of fixed length whose first byte the caller has not
    checked: an optional sign, then digits only. *)
Fixpoint all_digits_val (acc : Z) (s : string) : option Z :=
  match s with
  | EmptyString => Some acc
  | String c s' => if isDigit c then all_digits_val (acc * 10 + digit_val c) s' else None
  end.

Definition atoi (s : string) : option Z :=
  match s with
  | String c s' =>
      if Ascii.eqb c "-" then
        match s' with EmptyString => None | _ => Z.opp <$> all_digits_val 0 s' end
      else if Ascii.eqb c "+" then
        match s' with EmptyString => None | _ => all_digits_val 0 s' end
      else all_digits_val 0 s
  | EmptyString => None
  end.

(** The fields [Parse] collects; month and day start at -1, the year at 0. *)
Record fields := mkFields { f_year : Z; f_month : Z; f_day : Z }.

Inductive chunk_result :=
| chunk_ok (f : fields) (rest : string)
| chunk_bad                              (* the value lacks the chunk's form *)
| chunk_range (what : string) (rest : string).

Definition parse_chunk (c : chunk) (f : fields) (value : string) : chunk_result :=
  match c with
  | lit p =>
      match skip_literal p value with
      | Some rest => chunk_ok f rest
      | None => chunk_bad
      end
  | stdLongYear =>
      if (4 <=? Z.of_nat (String.length value)) && isDigit (default "a"%char (String.get 0 value)) then
        match atoi (string_take 4 value) with
        | Some y => chunk_ok (mkFields y (f_month f) (f_day f)) (string_drop 4 value)
        | None => chunk_bad
        end
      else chunk_bad
  | stdYear =>
      if 2 <=? Z.of_nat (String.length value) then
        match atoi (string_take 2 value) with
        | Some y =>
            chunk_ok (mkFields (if 69 <=? y then y + 1900 else y + 2000) (f_month f) (f_day f))
                     (string_drop 2 value)
        | None => chunk_bad
        end
      else chunk_bad
  | stdZeroMonth =>
      match getnum2 value with
      | Some (m, rest) =>
          if (m <=? 0) || (12 <? m) then chunk_range "month" rest
          else chunk_ok (mkFields (f_year f) m (f_day f)) rest
      | None => chunk_bad
      end
  | stdZeroDay =>
      match getnum2 value with
      | Some (d, rest) => chunk_ok (mkFields (f_year f) (f_month f) d) rest
      | None => chunk_bad
      end
  end.

Fixpoint parse_loop (alayout avalue : string) (layout : list chunk) (f : fields)
    (value : string) : Time + ParseError :=
  match layout with
  | [] =>
      if decide (value = "") then
        let m := if f_month f <? 0 then 1 else f_month f in
        let d := if f_day f <? 0 then 1 else f_day f in
        if (d <? 1) || (daysIn m (f_year f) <? d) then
          inr (mkParseError alayout avalue "" value ": day out of range")
        else inl (mkTime (f_year f) m d)
      else inr (mkParseError alayout avalue "" value (": extra text: " +:+ quote value))
  | c :: layout' =>
      match parse_chunk c f value with
      | chunk_ok f' rest => parse_loop alayout avalue layout' f' rest
      | chunk_bad => inr (mkParseError alayout avalue (chunk_text c) value "")
      | chunk_range what rest =>
          inr (mkParseError alayout avalue (chunk_text c) rest (": " +:+ what +:+ " out of range"))
      end
  end.

(** [time.Parse(layout, value)]. *)
Definition Parse (layout : list chunk) (value : string) : Time + ParseError :=
  parse_loop (layout_text layout) value layout (mkFields 0 (-1) (-1)) value.

End GoTime.


(* --------------------------------------------------------------------- *)
(** ** Package [types] *)

Module types.

Record Transaction := mkTransaction {
  Date : string;
  Amount : float;
  Description : string }.

End types.

(** Go's [error] values built by [fmt.Errorf]: their message. *)
Definition error := string.

(* --------------------------------------------------------------------- *)
(** ** Package [encoding/base64]: [URLEncoding.DecodeString]

    The padded URL-safe alphabet, decoded as [Encoding.Decode] does it:
    four characters give three bytes, carriage returns and line feeds are
    skipped wherever they stand, padding is required at the end of the last
    group, anything after it is an error, and (the encoding is not strict)
    the unused bits of the last character are not checked. *)

Module base64.

(** [decodeMap] of [URLEncoding]: the value of an alphabet character. *)
Definition decodeMap (c : ascii) : option Z :=
  let n := byte_val c in
  if (65 <=? n) && (n <=? 90) then Some (n - 65)              (* A-Z *)
  else if (97 <=? n) && (n <=? 122) then Some (n - 97 + 26)   (* a-z *)
  else if (48 <=? n) && (n <=? 57) then Some (n - 48 + 52)    (* 0-9 *)
  else if n =? 45 then Some 62                                 (* - *)
  else if n =? 95 then Some 63                                 (* _ *)
  else None.

Definition is_newline (c : ascii) : bool := (byte_val c =? 10) || (byte_val c =? 13).

Definition padChar : ascii := "="%char.

(** The bytes of a group of [dlen] characters held in [val] (24 bits,
    the first character highest): [dlen - 1] bytes. *)
Definition quantum_bytes (dlen : nat) (val : Z) : list ascii :=
  take (dlen - 1) [byte_of (Z.shiftr val 16 mod 256);
                   byte_of (Z.shiftr val 8 mod 256);
                   byte_of (val mod 256)].

Fixpoint skip_newlines (src : string) : string :=
  match src with
  | String c rest => if is_newline c then skip_newlines rest else src
  | EmptyString => src
  end.

(** [decode j val src]: the decoding loop with [j] characters of the
    current group read into [val].  [None] is a [CorruptInputError]. *)
Fixpoint decode (j : nat) (val : Z) (src : string) : option (list ascii) :=
  match src with
  | EmptyString =>
      (* the input ends: fine between groups, an error inside one *)
      if decide (j = 0%nat) then Some [] else None
  | String c rest =>
      match decodeMap c with
      | Some v =>
          let val := Z.lor val (Z.shiftl v (6 * (3 - Z.of_nat j))) in
          if decide (j = 3%nat) then
            app (quantum_bytes 4 val) <$> decode 0 0 rest
          else decode (S j) val rest
      | None =>
          if is_newline c then decode j val rest
          else if Ascii.eqb c padChar then
            match j with
            | 0%nat | 1%nat => None                       (* incorrect padding *)
            | 2%nat =>
                (* a second pad character is expected *)
                match skip_newlines rest with
                | String c' rest' =>
                    if Ascii.eqb c' padChar then
                      match skip_newlines rest' with
                      | EmptyString => Some (quantum_bytes 2 val)
                      | _ => None                         (* trailing garbage *)
                      end
                    else None
                | EmptyString => None                     (* not enough padding *)
                end
            | _ =>
                match skip_newlines rest with
                | EmptyString => Some (quantum_bytes 3 val)
                | _ => None                               (* trailing garbage *)
                end
            end
          else None                                       (* not in the alphabet *)
      end
  end.

(** [base64.URLEncoding.DecodeString(s)]; the program uses the bytes only
    when the error is nil. *)
Definition DecodeString (s : string) : option string :=
  string_of_bytes <$> decode 0 0 s.

End base64.

(* --------------------------------------------------------------------- *)
(** ** The Gmail API's message types

    Of [gmail.MessagePart], [gmail.MessagePartBody] and [gmail.Message] the
    fields the program reads.  [Body] is a pointer and may be nil; a message
    fetched in full format carries its payload, and the parts of a payload
    are parts. *)

Module gmail.

Record MessagePartBody := mkBody { Data : string }.

#[local] Unset Elimination Schemes.
Inductive MessagePart := mkPart {
  MimeType : string;
  Body : option MessagePartBody;
  Parts : list MessagePart }.
#[local] Set Elimination Schemes.

Record Message := mkMessage { Id : string; Payload : MessagePart }.

End gmail.

(* --------------------------------------------------------------------- *)
(** ** Package [unicode/utf8]: decoding one rune *)

Module utf8.

Definition RuneError : Z := 65533.  (* U+FFFD *)

Definition in_range (lo hi : Z) (c : ascii) : bool :=
  (lo <=? byte_val c) && (byte_val c <=? hi).

(** The low six bits of a continuation byte. *)
Definition cont_bits (c : ascii) : Z := Z.land (byte_val c) 63.

(** [utf8.DecodeRuneInString]: the first rune of [s] and the rest of [s],
    [None] on the empty string.  An invalid or truncated encoding yields
    [RuneError] and consumes one byte. *)
Definition DecodeRuneInString (s : string) : option (Z * string) :=
  match s with
  | EmptyString => None
  | String c0 rest =>
      let b0 := byte_val c0 in
      let invalid := Some (RuneError, rest) in
      if b0 <? 128 then Some (b0, rest)
      else if b0 <? 194 then invalid                          (* 0x80-0xC1 *)
      else if b0 <=? 223 then                                 (* 0xC2-0xDF: two bytes *)
        match rest with
        | String c1 r1 =>
            if in_range 128 191 c1
            then Some (Z.lor (Z.shiftl (Z.land b0 31) 6) (cont_bits c1), r1)
            else invalid
        | _ => invalid
        end
      else if b0 <=? 239 then                                 (* 0xE0-0xEF: three bytes *)
        let lo := if b0 =? 224 then 160 else 128 in
        let hi := if b0 =? 237 then 159 else 191 in
        match rest with
        | String c1 (String c2 r2) =>
            if in_range lo hi c1 && in_range 128 191 c2
            then Some (Z.lor (Z.shiftl (Z.land b0 15) 12)
                         (Z.lor (Z.shiftl (cont_bits c1) 6) (cont_bits c2)), r2)
            else invalid
        | _ => invalid
        end
      else if b0 <=? 244 then                                 (* 0xF0-0xF4: four bytes *)
        let lo := if b0 =? 240 then 144 else 128 in
        let hi := if b0 =? 244 then 143 else 191 in
        match rest with
        | String c1 (String c2 (String c3 r3)) =>
            if in_range lo hi c1 && in_range 128 191 c2 && in_range 128 191 c3
            then Some (Z.lor (Z.shiftl (Z.land b0 7) 18)
                         (Z.lor (Z.shiftl (cont_bits c1) 12)
                            (Z.lor (Z.shiftl (cont_bits c2) 6) (cont_bits c3))), r3)
            else invalid
        | _ => invalid
        end
      else invalid
  end.

End utf8.

(* --------------------------------------------------------------------- *)
(** ** Package [regexp]

    Regular expressions as syntax trees, matched the way Go's engine
    chooses among matches: the leftmost match, and among those that start
    there the one a backtracking search finds first, with greedy
    repetition.  The input is read rune by rune as UTF-8. *)

Module regexp.

Inductive re :=
| Rune (p : Z → bool)     (* one rune that satisfies [p] *)
| Cat (r1 r2 : re)        (* r1 r2 *)
| Star (r : re)           (* r*  *)
| Plus (r : re)           (* r+  *)
| Quest (r : re)          (* r?  *)
| Cap (i : nat) (r : re)  (* (r), capture group number i *).

Definition cat (rs : list re) (last : re) : re := foldr Cat last rs.

(** [x{n}] *)
Definition rep (n : nat) (r : re) (last : re) : re := cat (replicate n r) last.

(** Rune classes. *)
Definition lit (c : ascii) : re := Rune (λ r, r =? byte_val c).

(** A literal letter under the flag [(?i)]: the runes of its case-folding
    orbit ([unicode.SimpleFold]), which for an ASCII letter are its two
    cases, and besides U+212A for k and U+017F for s. *)
Definition fold_lit (c : ascii) : re :=
  let b := byte_val c in
  let lower := if (65 <=? b) && (b <=? 90) then b + 32 else b in
  let upper := if (97 <=? b) && (b <=? 122) then b - 32 else b in
  Rune (λ r, (r =? lower) || (r =? upper)
             || ((lower =? 107) && (r =? 8490)) || ((lower =? 115) && (r =? 383))).

(** [.] without the flag [s]: any rune but a line feed. *)
Definition dot : re := Rune (λ r, negb (r =? 10)).

(** [\s]: the Perl class, [\t\n\f\r ]. *)
Definition perl_space : re :=
  Rune (λ r, (r =? 9) || (r =? 10) || (r =? 12) || (r =? 13) || (r =? 32)).

(** [\d] *)
Definition perl_digit : re := Rune (λ r, (48 <=? r) && (r <=? 57)).

(** The captures of a match in progress: group number and text, the
    latest first. *)
Definition captures := list (nat * string).

Fixpoint capture (i : nat) (cs : captures) : string :=
  match cs with
  | [] => ""
  | (j, text) :: cs' => if decide (i = j) then text else capture i cs'
  end.

(** The loop of a greedy repetition: [step] matches the repeated
    expression once; another turn is tried first, as long as it consumes
    input, and [k] goes on from where the turns stop. *)
Fixpoint star_loop {A} (step : string → captures → (string → captures → option A) → option A)
    (k : string → captures → option A) (fuel : nat) (s : string) (cs : captures)
    : option A :=
  match fuel with
  | O => k s cs
  | S fuel' =>
      match
        step s cs (λ s' cs',
          if (String.length s' <? String.length s)%nat
          then star_loop step k fuel' s' cs' else None)
      with
      | Some a => Some a
      | None => k s cs
      end
  end.

(** [run r s cs k]: match [r] at the head of [s], then continue with [k]
    on what is left; alternatives are tried in order of preference, the
    first that lets [k] succeed wins. *)
Fixpoint run {A} (r : re) (s : string) (cs : captures)
    (k : string → captures → option A) {struct r} : option A :=
  match r with
  | Rune p =>
      match utf8.DecodeRuneInString s with
      | Some (c, rest) => if p c then k rest cs else None
      | None => None
      end
  | Cat r1 r2 => run r1 s cs (λ s' cs', run r2 s' cs' k)
  | Star r1 => star_loop (run r1) k (String.length s) s cs
  | Plus r1 =>
      run r1 s cs (λ s1 cs1, star_loop (run r1) k (String.length s1) s1 cs1)
  | Quest r1 =>
      match run r1 s cs k with
      | Some a => Some a
      | None => k s cs
      end
  | Cap i r1 =>
      run r1 s cs (λ s' cs',
        k s' ((i, string_take (String.length s - String.length s') s) :: cs'))
  end.

Fixpoint numCap (r : re) : nat :=
  match r with
  | Rune _ => 0
  | Cat r1 r2 => numCap r1 `max` numCap r2
  | Star r1 | Plus r1 | Quest r1 => numCap r1
  | Cap i r1 => i `max` numCap r1
  end.

(** A match of [r] that starts at the head of [s]: the matched text and
    the captures. *)
Definition match_here (r : re) (s : string) : option (string * captures) :=
  run r s [] (λ s' cs, Some (string_take (String.length s - String.length s') s, cs)).

(** The leftmost match: try each rune boundary from the left. *)
Fixpoint search (fuel : nat) (r : re) (s : string) : option (string * captures) :=
  match fuel with
  | O => None
  | S fuel' =>
      match match_here r s with
      | Some m => Some m
      | None =>
          match utf8.DecodeRuneInString s with
          | Some (_, rest) => search fuel' r rest
          | None => None
          end
      end
  end.

(** [re.FindStringSubmatch(s)]: nil when there is no match, else the
    matched text followed by the text of each group. *)
Definition FindStringSubmatch (r : re) (s : string) : list string :=
  match search (S (String.length s)) r s with
  | None => []
  | Some (whole, cs) => whole :: ((λ i, capture i cs) <$> seq 1 (numCap r))
  end.

End regexp.

(* --------------------------------------------------------------------- *)
(** ** Package [strconv]: [ParseFloat(s, 64)] on digits and dots

    The program parses the text of a group that matched [[0-9,.]+] with the
    commas removed, so the argument is made of decimal digits and dots
    (lemma [amount_text_digits_dots]).  On such text [ParseFloat] accepts
    digits with at most one dot and at least one digit, and returns the
    float64 nearest to the decimal (ties to even), or a range error when
    that is infinite.  Any other byte ends the number early and is a
    syntax error here. *)

Module strconv.

Inductive NumError := ErrSyntax (num : string) | ErrRange (num : string).

Definition NumError_Error (e : NumError) : string :=
  match e with
  | ErrSyntax num => "strconv.ParseFloat: parsing " +:+ quote num +:+ ": invalid syntax"
  | ErrRange num => "strconv.ParseFloat: parsing " +:+ quote num +:+ ": value out of range"
  end.

(** [readFloat]: the digits as a number and the count of digits after the
    dot. *)
Fixpoint readFloat (s : string) (mantissa : Z) (frac : Z) (sawdot sawdigits : bool)
    : option (Z * Z) :=
  match s with
  | EmptyString => if sawdigits then Some (mantissa, frac) else None
  | String c rest =>
      if isDigit c then
        readFloat rest (mantissa * 10 + digit_val c) (if sawdot then frac + 1 else frac)
                  sawdot true
      else if Ascii.eqb c "." then
        if sawdot then None else readFloat rest mantissa frac true sawdigits
      else None
  end.

(** The float64 nearest to [mantissa / 10^frac], ties to even. *)
Definition nearest_float (mantissa frac : Z) : float :=
  match mantissa with
  | Zpos m =>
      SF2Prim (SFdiv prec emax (S754_finite false m 0)
                 (S754_finite false (Z.to_pos (10 ^ frac)) 0))
  | _ => 0%float
  end.

Definition ParseFloat (s : string) : float + NumError :=
  match readFloat s 0 0 false false with
  | None => inr (ErrSyntax s)
  | Some (mantissa, frac) =>
      let f := nearest_float mantissa frac in
      if PrimFloat.is_infinity f then inr (ErrRange s) else inl f
  end.

End strconv.

(* --------------------------------------------------------------------- *)
(** ** Package [golang.org/x/net/html]: the node tree *)

Module html.

Inductive NodeType :=
  ErrorNode | TextNode | DocumentNode | ElementNode | CommentNode | DoctypeNode.

(** A node with its children in document order (the chain
    [FirstChild], [NextSibling]). *)
#[local] Unset Elimination Schemes.
Inductive Node := mkNode {
  Typ : NodeType;
  Data : string;
  Children : list Node }.
#[local] Set Elimination Schemes.

#[global] Instance NodeType_eq_dec : EqDecision NodeType.
Proof. solve_decision. Defined.

End html.

(* --------------------------------------------------------------------- *)
(** ** Packages [unicode] and [strings]: [TrimSpace] *)

Module strings.

(** [unicode.IsSpace] *)
Definition IsSpace (r : Z) : bool :=
  ((9 <=? r) && (r <=? 13)) || (r =? 32) || (r =? 133) || (r =? 160)
  || (r =? 5760) || ((8192 <=? r) && (r <=? 8202))
  || (r =? 8232) || (r =? 8233) || (r =? 8239) || (r =? 8287) || (r =? 12288).

(** The runes of a string in order, each with the bytes that encode it. *)
Fixpoint runes (fuel : nat) (s : string) : list (Z * string) :=
  match fuel with
  | O => []
  | S fuel' =>
      match utf8.DecodeRuneInString s with
      | None => []
      | Some (r, rest) =>
          (r, string_take (String.length s - String.length rest) s) :: runes fuel' rest
      end
  end.

Fixpoint drop_spaces (l : list (Z * string)) : list (Z * string) :=
  match l with
  | (r, bytes) :: l' => if IsSpace r then drop_spaces l' else l
  | [] => []
  end.

(** [strings.TrimSpace(s)]: [s] without the white space at both ends. *)
Definition TrimSpace (s : string) : string :=
  let kept := rev (drop_spaces (rev (drop_spaces (runes (String.length s) s)))) in
  fold_right (λ x acc, snd x +:+ acc) "" kept.

End strings.

(* --------------------------------------------------------------------- *)
(** ** The mail provider, as the program reaches it

    [srv.Users.Messages.List("me").Q(query).Do()] and
    [srv.Users.Messages.Get("me", id).Format("full").Do()]: what the remote
    service answers.  A failed call returns a [*googleapi.Error] with an
    HTTP status code, or another error. *)

Module googleapi.

Inductive api_error :=
| Error (Code : Z) (text : string)   (* *googleapi.Error *)
| other (text : string).

(** [err.Error()] *)
Definition Error_text (e : api_error) : string :=
  match e with Error _ text => text | other text => text end.

Record Service := mkService {
  Messages_List : string → list string + api_error;               (* ids of the page *)
  Messages_Get : string → gmail.Message + api_error }.

(** The calls made to the provider, in order. *)
Inductive Call := ListCall (query : string) | GetCall (id : string).

End googleapi.

(* --------------------------------------------------------------------- *)
(** ** Package [services] *)

Module services.
Import types gmail googleapi GoTime regexp.

Record AppError := mkAppError { Code : Z; Msg : string }.

Definition StatusUnauthorized : Z := 401.
Definition StatusInternalServerError : Z := 500.

(** The guard and decoding both branches at the head of
    [extractMessageContent] share:
    [part.Body != nil && part.Body.Data != ""], then [DecodeString] with a
    nil error. *)
Definition decoded_body (body : option MessagePartBody) : option string :=
  match body with
  | Some b => if decide (gmail.Data b ≠ "") then base64.DecodeString (gmail.Data b) else None
  | None => None
  end.

Fixpoint extractMessageContent (part : MessagePart) : string :=
  match
    (if decide (MimeType part = "text/plain") then decoded_body (Body part) else None)
  with
  | Some data => data
  | None =>
      match
        (if decide (MimeType part = "text/html") then decoded_body (Body part) else None)
      with
      | Some data => data
      | None =>
          (fix range (parts : list MessagePart) : string :=
             match parts with
             | [] => ""
             | nestedPart :: parts' =>
                 let content := extractMessageContent nestedPart in
                 if decide (content ≠ "") then content else range parts'
             end) (Parts part)
      end
  end.

(** [traverse] of [stripHTMLTags], writing to the builder [sb]. *)
Fixpoint traverse (n : html.Node) (sb : string) : string :=
  let sb := if decide (html.Typ n = html.TextNode) then sb +:+ html.Data n else sb in
  (fix children (cs : list html.Node) (sb : string) : string :=
     match cs with
     | [] => sb
     | c :: cs' => children cs' (traverse c sb)
     end) (html.Children n) sb.

(** [amountPattern], [(?i)Rs.\s*\$?([0-9,.]+)] *)
Definition amountPattern : re :=
  cat [fold_lit "R"; fold_lit "s"; dot; Star perl_space; Quest (lit "$")]
      (Cap 1 (Plus (Rune (λ r, ((48 <=? r) && (r <=? 57)) || (r =? 44) || (r =? 46))))).

(** [datePattern], [on\s+(\d{2}-\d{2}-\d{2})] *)
Definition datePattern : re :=
  cat [lit "o"; lit "n"; Plus perl_space]
      (Cap 1 (rep 2 perl_digit (Cat (lit "-")
                (rep 2 perl_digit (Cat (lit "-") (Cat perl_digit perl_digit)))))).

(** [s[1]] of a [[]string] that holds it. *)
Definition at1 (l : list string) : string := default "" (l !! 1%nat).

Section WithLibraries.

(** [html.Parse(strings.NewReader(s))] of [golang.org/x/net/html]. *)
Variable html_Parse : string → html.Node + error.

Definition stripHTMLTags (htmlContent : string) : string :=
  match html_Parse htmlContent with
  | inr _ => htmlContent
  | inl doc => traverse doc ""
  end.

(** The field extraction of [parseTransactionEmail]: what the function
    does with the stripped body. *)
Definition extractFields (body : string) : Transaction + error :=
  let amountMatch := FindStringSubmatch amountPattern body in
  let dateMatch := FindStringSubmatch datePattern body in
  if (length amountMatch <? 2)%nat || (length dateMatch <? 2)%nat then
    inr "could not parse transaction details"
  else
    let amountStr := remove_byte "," (at1 amountMatch) in
    match strconv.ParseFloat amountStr with
    | inr err => inr ("could not parse amount: " +:+ strconv.NumError_Error err)
    | inl amount =>
        match Parse layoutDMY (at1 dateMatch) with
        | inr err => inr ("could not parse date: " +:+ ParseError_Error err)
        | inl parsedDate =>
            inl (mkTransaction (Format parsedDate layoutISO) amount
                   "Transaction from HTML email")
        end
    end.

Definition parseTransactionEmail (msg : Message) : Transaction + error :=
  let body := extractMessageContent (Payload msg) in
  if decide (body = "") then inr "no suitable content found in email"
  else
    let body := stripHTMLTags body in
    extractFields body.

(** The search query of [FetchTransactions]. *)
Definition query_for (now : Time) (days : Z) : string :=
  let endDate := now in
  let startDate := AddDays endDate (- days) in
  "after:" +:+ Format startDate layoutSlash +:+ " before:" +:+ Format endDate layoutSlash
    +:+ " subject:(transaction OR payment OR purchase OR UPI txn)".

(** One turn of the loop over [messages.Messages]; a failure of the call
    or of the parse is logged and the loop goes on. *)
Definition fetch_step (srv : Service) (st : list Transaction * list Call) (id : string)
    : list Transaction * list Call :=
  let '(transactions, calls) := st in
  let calls := calls ++ [GetCall id] in
  match Messages_Get srv id with
  | inr _ => (transactions, calls)
  | inl message =>
      match parseTransactionEmail message with
      | inr _ => (transactions, calls)
      | inl transaction => (transactions ++ [transaction], calls)
      end
  end.

(** [gs.FetchTransactions(days)] at the (local) date [now], with the calls
    it makes to the provider. *)
Definition FetchTransactions (srv : Service) (now : Time) (days : Z)
    : (list Transaction + AppError) * list Call :=
  let query := query_for now days in
  match Messages_List srv query with
  | inr err =>
      let failure :=
        match err with
        | googleapi.Error code _ =>
            if (code =? 403) || (code =? 401) then
              mkAppError StatusUnauthorized
                ("unauthorized: insufficient authentication scopes: " +:+ Error_text err)
            else
              mkAppError StatusInternalServerError
                ("unable to retrieve messages: " +:+ Error_text err)
        | googleapi.other _ =>
            mkAppError StatusInternalServerError
              ("unable to retrieve messages: " +:+ Error_text err)
        end in
      (inr failure, [ListCall query])
  | inl ids =>
      let '(transactions, calls) := fold_left (fetch_step srv) ids ([], [ListCall query]) in
      (inl transactions, calls)
  end.

End WithLibraries.

End services.

(* --------------------------------------------------------------------- *)
(** ** A reference HTML parser for the worked examples

    The properties below hold for any parser in the place of
    [html.Parse].  To run the pipeline on sample mail the examples use this
    parser, which builds the tree [html.Parse] builds for markup made of
    text (without character references, NUL or carriage returns) and of
    properly nested start and end tags of ordinary elements: the document
    holds an [html] element with an empty [head] and a [body], and the
    markup's elements and text nodes hang below the [body].  Blank space
    before the first tag or text is dropped, as the tree construction does
    before the body opens.  Other markup (comments, scripts, tables,
    misnested tags, ...) is outside what it stands for. *)

Module html_ref.
Import html.

Inductive token := TText (s : string) | TStart (name : string) | TEnd (name : string).

Definition isLetter (c : ascii) : bool :=
  let b := byte_val c in ((65 <=? b) && (b <=? 90)) || ((97 <=? b) && (b <=? 122)).

Definition isSpace (c : ascii) : bool :=
  let b := byte_val c in (b =? 32) || (b =? 9) || (b =? 10) || (b =? 12) || (b =? 13).

Definition toLower (c : ascii) : ascii :=
  let b := byte_val c in if (65 <=? b) && (b <=? 90) then byte_of (b + 32) else c.

Definition flush (acc : list ascii) : list token :=
  match acc with [] => [] | _ => [TText (string_of_bytes (rev acc))] end.

Inductive mode :=
| InText (acc : list ascii)
| InName (closing : bool) (acc : list ascii)
| InTag (closing : bool) (name : string).

Definition tag (closing : bool) (name : string) : token :=
  if closing then TEnd name else TStart name.

Fixpoint lex (m : mode) (s : string) : list token :=
  match s with
  | EmptyString => match m with InText acc => flush acc | _ => [] end
  | String c rest =>
      match m with
      | InText acc =>
          if Ascii.eqb c "<" then
            match rest with
            | String d rest' =>
                if isLetter d then flush acc ++ lex (InName false []) rest
                else if Ascii.eqb d "/" then
                  match rest' with
                  | String e _ =>
                      if isLetter e then flush acc ++ lex (InName true []) rest'
                      else lex (InText (c :: acc)) rest
                  | EmptyString => lex (InText (c :: acc)) rest
                  end
                else lex (InText (c :: acc)) rest
            | EmptyString => lex (InText (c :: acc)) rest
            end
          else lex (InText (c :: acc)) rest
      | InName closing acc =>
          if Ascii.eqb c ">" then tag closing (string_of_bytes (rev acc)) :: lex (InText []) rest
          else if isSpace c || Ascii.eqb c "/" then
            lex (InTag closing (string_of_bytes (rev acc))) rest
          else lex (InName closing (toLower c :: acc)) rest
      | InTag closing name =>
          if Ascii.eqb c ">" then tag closing name :: lex (InText []) rest
          else lex (InTag closing name) rest
      end
  end.

(** The open elements, innermost first: a name and the children read so
    far, latest first. *)
Definition open_elements := list (string * list Node).

Definition close_top (st : open_elements) : open_elements :=
  match st with
  | (name, kids) :: (pname, pkids) :: st' =>
      (pname, mkNode ElementNode name (rev kids) :: pkids) :: st'
  | _ => st
  end.

Definition add_child (n : Node) (st : open_elements) : open_elements :=
  match st with
  | (name, kids) :: st' => (name, n :: kids) :: st'
  | [] => []
  end.

Fixpoint close_until (name : string) (st : open_elements) (fuel : nat) : open_elements :=
  match fuel, st with
  | S fuel', (top, _) :: _ :: _ =>
      if decide (top = name) then close_top st else close_until name (close_top st) fuel'
  | _, _ => st
  end.

Definition is_open (name : string) (st : open_elements) : bool :=
  bool_decide (name ∈ (fst <$> take (length st - 1) st)).

Definition build_step (st : open_elements) (t : token) : open_elements :=
  match t with
  | TText s => add_child (mkNode TextNode s []) st
  | TStart name => (name, []) :: st
  | TEnd name => if is_open name st then close_until name st (length st) else st
  end.

Fixpoint close_all (st : open_elements) (fuel : nat) : list Node :=
  match fuel, st with
  | _, [(_, kids)] => rev kids
  | S fuel', _ :: _ :: _ => close_all (close_top st) fuel'
  | _, _ => []
  end.

Fixpoint trim_left (s : string) : string :=
  match s with
  | String c rest => if isSpace c then trim_left rest else s
  | EmptyString => s
  end.

Definition Parse (s : string) : Node + error :=
  let st := fold_left build_step (lex (InText []) (trim_left s)) [("body", [])] in
  let body := mkNode ElementNode "body" (close_all st (length st)) in
  inl (mkNode DocumentNode ""
         [mkNode ElementNode "html" [mkNode ElementNode "head" []; body]]).

End html_ref.

(* --------------------------------------------------------------------- *)
(** ** Package [main]: the summarizer *)

Module main.
Import types GoTime googleapi.

Record Summary := mkSummary {
  Total : float;
  Previously : float;
  ChangePercentage : float }.

(** [m[k]] on a [map[string]float64]: the zero value for a missing key. *)
Definition map_at (m : gmap string float) (k : string) : float :=
  default 0%float (m !! k).

(** [m[k] += v]. *)
Definition map_add (m : gmap string float) (k : string) (v : float) : gmap string float :=
  <[k := PrimFloat.add (map_at m k) v]> m.

(** [x != 0] on [float64]. *)
Definition nonzero (x : float) : bool := negb (PrimFloat.eqb x 0%float).

(** The [change] computed at the end of each comparing branch. *)
Definition change_of (current previous : float) : float :=
  if nonzero previous then
    PrimFloat.mul (PrimFloat.div (PrimFloat.sub current previous) previous) 100%float
  else 0%float.

(** The first loop of the "daily" branch: totals keyed by [txn.Date]. *)
Definition daily_step (st : Time * gmap string float) (txn : Transaction)
    : Time * gmap string float :=
  let '(maxDate, dateTotals) := st in
  match Parse layoutISO (Date txn) with
  | inr _ => (maxDate, dateTotals)
  | inl t =>
      let dateTotals := map_add dateTotals (Date txn) (Amount txn) in
      (if After t maxDate then t else maxDate, dateTotals)
  end.

(** The first loop of the "weekly" branch: totals keyed by the re-formatted
    date. *)
Definition weekly_step (st : Time * gmap string float) (txn : Transaction)
    : Time * gmap string float :=
  let '(maxDate, dateTotals) := st in
  match Parse layoutISO (Date txn) with
  | inr _ => (maxDate, dateTotals)
  | inl t =>
      let dateKey := Format t layoutISO in
      let dateTotals := map_add dateTotals dateKey (Amount txn) in
      (if After t maxDate then t else maxDate, dateTotals)
  end.

(** The second loop of the "weekly" branch, [for i := 0; i < 14; i++]. *)
Definition week_step (maxDate : Time) (dateTotals : gmap string float)
    (st : float * float) (i : Z) : float * float :=
  let '(currentWeekTotal, previousWeekTotal) := st in
  let day := AddDays maxDate (- i) in
  let dayStr := Format day layoutISO in
  let amount := map_at dateTotals dayStr in
  if i <? 7 then (PrimFloat.add currentWeekTotal amount, previousWeekTotal)
  else (currentWeekTotal, PrimFloat.add previousWeekTotal amount).

(** The loop of the "monthly" branch. *)
Definition monthly_step (monthTotals : gmap string float) (txn : Transaction)
    : gmap string float :=
  match Parse layoutISO (Date txn) with
  | inr _ => monthTotals
  | inl t =>
      let monthKey := Format t layoutMonth in
      map_add monthTotals monthKey (Amount txn)
  end.

(** [sort.Strings]: ascending in the bytewise order of Go strings. *)
Definition sort_Strings (l : list string) : list string := merge_sort String.le l.

(** [for m := range monthTotals { months = append(months, m) }]: the keys,
    in the order the map yields them. *)
Definition map_keys (m : gmap string float) : list string := (map_to_list m).*1.

Definition calculateSummary (transactions : list Transaction) (period : string)
    : Summary + error :=
  if decide (period = "daily") then
    let '(maxDate, dateTotals) := fold_left daily_step transactions (zero, ∅) in
    if IsZero maxDate then inr "no valid transaction dates found"
    else
      let currentDay := Format maxDate layoutISO in
      let previousDay := Format (AddDays maxDate (-1)) layoutISO in
      let currentTotal := map_at dateTotals currentDay in
      let previousTotal := map_at dateTotals previousDay in
      inl (mkSummary currentTotal previousTotal (change_of currentTotal previousTotal))
  else if decide (period = "weekly") then
    let '(maxDate, dateTotals) := fold_left weekly_step transactions (zero, ∅) in
    if IsZero maxDate then inr "no valid transaction dates found"
    else
      let '(currentWeekTotal, previousWeekTotal) :=
        fold_left (week_step maxDate dateTotals) (seqZ 0 14) (0%float, 0%float) in
      inl (mkSummary currentWeekTotal previousWeekTotal
             (change_of currentWeekTotal previousWeekTotal))
  else if decide (period = "monthly") then
    let monthTotals := fold_left monthly_step transactions ∅ in
    let months := map_keys monthTotals in
    if decide (length months = 0%nat) then inr "no valid transaction months found"
    else
      let months := sort_Strings months in
      let currentMonth := default "" (months !! (length months - 1)%nat) in
      let previousMonth :=
        if decide (2 ≤ length months)%nat then default "" (months !! (length months - 2)%nat)
        else "" in
      let currentTotal := map_at monthTotals currentMonth in
      let previousTotal :=
        if decide (previousMonth ≠ "") then map_at monthTotals previousMonth else 0%float in
      inl (mkSummary currentTotal previousTotal (change_of currentTotal previousTotal))
  else
    let total := fold_left (fun total t => PrimFloat.add total (Amount t)) transactions 0%float in
    inl (mkSummary total 0%float 0%float).

(** *** The HTTP layer *)

(** [[]types.Transaction]: nil, or a slice with its elements. *)
Definition slice (A : Type) := option (list A).

(** The slice [FetchTransactions] returns: nil, or what was appended. *)
Definition appended {A} (l : list A) : slice A :=
  match l with [] => None | _ => Some l end.

Record TransactionsResponse := mkResponse {
  Summary_ : Summary;               (* field [Summary] *)
  Details : slice Transaction }.

(** The values the program encodes as JSON. *)
Inductive value :=
| response_value (r : TransactionsResponse)
| error_value (message : string) (code : Z).   (* {"error": message, "code": code} *)

(** What a request meets outside the program. *)
Record Env := mkEnv {
  (** [os.Getenv("FRONTEND_URL")] *)
  FRONTEND_URL : string;
  (** [html.Parse] *)
  html_Parse : string → html.Node + error;
  (** [json.Marshal(v)]; [json.NewEncoder(w).Encode(v)] writes the same
      bytes followed by a line feed, or nothing when marshalling fails. *)
  json_Marshal : value → string + error;
  (** [json.Unmarshal(data, &response)] into a zero [TransactionsResponse]. *)
  json_Unmarshal : string → TransactionsResponse + error;
  (** [services.NewGmailServiceWithClient(cfg, client)] for the client of an
      access token: the service the token reaches, or an error. *)
  NewGmailServiceWithClient : string → Service + error;
  (** the date of [time.Now()] *)
  now : Time }.

(** The cache: the live entries with the time to live (in minutes) they
    were stored with, and whether the server answers.  An entry whose time
    has run out is no entry. *)
Record Redis := mkRedis {
  entries : gmap string (string * Z);
  reachable : bool }.

(** [redisClient.Get(ctx, key).Result()]; [None] is a non-nil error
    ([redis.Nil] for a missing key). *)
Definition redis_Get (rc : Redis) (key : string) : option string :=
  if reachable rc then fst <$> entries rc !! key else None.

(** [redisClient.Set(ctx, key, value, ttl)]; a failure changes nothing and
    is only logged. *)
Definition redis_Set (rc : Redis) (key value : string) (ttl : Z) : Redis :=
  if reachable rc then mkRedis (<[key := (value, ttl)]> (entries rc)) true else rc.

Record Request := mkRequest {
  Method : string;
  URL_Query : list (string * string) }.   (* [r.URL.Query()], in order *)

(** [r.URL.Query().Get(key)]: the first value of the key, or "". *)
Fixpoint Query_Get (q : list (string * string)) (key : string) : string :=
  match q with
  | [] => ""
  | (k, v) :: q' => if decide (k = key) then v else Query_Get q' key
  end.

(** An [http.ResponseWriter]: the headers set, the status once it is
    written, and the body. *)
Record ResponseWriter := mkWriter {
  Header : gmap string string;
  status : option Z;
  body : string }.

Definition new_writer : ResponseWriter := mkWriter ∅ None "".

Definition Header_Set (key val : string) (w : ResponseWriter) : ResponseWriter :=
  mkWriter (<[key := val]> (Header w)) (status w) (body w).

Definition WriteHeader (statusCode : Z) (w : ResponseWriter) : ResponseWriter :=
  match status w with
  | None => mkWriter (Header w) (Some statusCode) (body w)
  | Some _ => w
  end.

Definition StatusOK : Z := 200.
Definition StatusBadRequest : Z := 400.
Definition StatusUnauthorized : Z := 401.
Definition StatusMethodNotAllowed : Z := 405.
Definition StatusInternalServerError : Z := 500.

(** [w.Write(data)]: the first write sends status 200 unless a status was
    written before. *)
Definition Write (data : string) (w : ResponseWriter) : ResponseWriter :=
  let w := WriteHeader StatusOK w in
  mkWriter (Header w) (status w) (body w +:+ data).

(** The status the client receives: 200 when the handler wrote none. *)
Definition StatusCode (w : ResponseWriter) : Z := default StatusOK (status w).

Definition line_feed : string := String (ascii_of_nat 10) EmptyString.

(** [json.NewEncoder(w).Encode(v)] *)
Definition Encode (env : Env) (v : value) (w : ResponseWriter) : ResponseWriter :=
  match json_Marshal env v with
  | inl data => Write (data +:+ line_feed) w
  | inr _ => w
  end.

Definition getCacheKey (filter : string) : string := "transactions:" +:+ filter.

Definition respondError (env : Env) (w : ResponseWriter) (statusCode : Z) (message : string)
    : ResponseWriter :=
  let w := Header_Set "Content-Type" "application/json" w in
  let w := WriteHeader statusCode w in
  Encode env (error_value message statusCode) w.

(** The [switch filter] of [transactionsHandler]: the days to look back,
    [None] in the [default] case. *)
Definition lookback_days (filter : string) : option Z :=
  if decide (filter = "daily") then Some 2
  else if decide (filter = "weekly") then Some 14
  else if decide (filter = "monthly") then Some 60
  else if decide (filter = "all") then Some 90
  else None.

(** The outcome of serving one request: the response, the cache
    afterwards and the calls made to the mail provider. *)
Record Served := mkServed {
  response : ResponseWriter;
  cache : Redis;
  provider_calls : list Call }.

(** [transactionsHandler(w, r)] on a fresh writer.  (What [log.Printf]
    prints is not part of the outcome.) *)
Definition transactionsHandler (env : Env) (rc : Redis) (r : Request) : Served :=
  let w := new_writer in
  let w := Header_Set "Access-Control-Allow-Origin" (FRONTEND_URL env) w in
  let w := Header_Set "Access-Control-Allow-Credentials" "true" w in
  if decide (Method r = "OPTIONS") then
    let w := Header_Set "Access-Control-Allow-Methods" "GET" w in
    let w := Header_Set "Access-Control-Allow-Headers" "Content-Type, Authorization" w in
    let w := WriteHeader StatusOK w in
    mkServed w rc []
  else if decide (Method r ≠ "GET") then
    mkServed (respondError env w StatusMethodNotAllowed "Method not allowed") rc []
  else
    let filter := Query_Get (URL_Query r) "filter" in
    let filter := if decide (filter = "") then "all" else filter in
    let key := getCacheKey filter in
    let hit :=
      match redis_Get rc key with
      | Some cached =>
          match json_Unmarshal env cached with
          | inl response => Some response
          | inr _ => None
          end
      | None => None
      end in
    match hit with
    | Some response =>
        let w := Header_Set "Content-Type" "application/json" w in
        mkServed (Encode env (response_value response) w) rc []
    | None =>
        let accessToken := Query_Get (URL_Query r) "access_token" in
        if decide (strings.TrimSpace accessToken = "") then
          mkServed (respondError env w StatusUnauthorized
                      "Missing access token in query string") rc []
        else
          match NewGmailServiceWithClient env accessToken with
          | inr err =>
              mkServed (respondError env w StatusInternalServerError
                          ("Gmail service error: " +:+ err)) rc []
          | inl gmailService =>
              match lookback_days filter with
              | None =>
                  mkServed (respondError env w StatusBadRequest "Invalid filter") rc []
              | Some days =>
                  let '(fetched, calls) :=
                    services.FetchTransactions (html_Parse env) gmailService (now env) days in
                  match fetched with
                  | inr appErr =>
                      mkServed (respondError env w (services.Code appErr)
                                  (services.Msg appErr)) rc calls
                  | inl transactions =>
                      match calculateSummary transactions filter with
                      | inr err =>
                          mkServed (respondError env w StatusInternalServerError err) rc calls
                      | inl summary =>
                          let response := mkResponse summary (appended transactions) in
                          let rc :=
                            match json_Marshal env (response_value response) with
                            | inr _ => rc
                            | inl respJSON => redis_Set rc key respJSON 10
                            end in
                          let w := Header_Set "Content-Type" "application/json" w in
                          mkServed (Encode env (response_value response) w) rc calls
                      end
                  end
              end
          end
    end.

End main.

(* --------------------------------------------------------------------- *)
(** ** Package [main], continued: [refreshHandler] *)

Module refresh.
Import types GoTime googleapi main.

(** The bytes [json.Marshal] gives for
    [map[string]interface{}{"success": true}]; a map from strings to
    booleans always marshals. *)
Definition success_json : string :=
  "{" +:+ dquote +:+ "success" +:+ dquote +:+ ":true}".

(** [if data, err := json.Marshal(response); err == nil {
       redisClient.Set(ctx, getCacheKey(filter), data, 20*time.Minute) }];
    a failure to marshal is only logged. *)
Definition store (env : Env) (rc : Redis) (filter : string)
    (response : TransactionsResponse) : Redis :=
  match json_Marshal env (response_value response) with
  | inl data => redis_Set rc (getCacheKey filter) data 20
  | inr _ => rc
  end.

(** [refreshHandler(w, r)] on a fresh writer.  The three calls of
    [FetchTransactions] read the clock one after the other; they are
    taken to fall on one day. *)
Definition refreshHandler (env : Env) (rc : Redis) (r : Request) : Served :=
  let w := new_writer in
  let w := Header_Set "Access-Control-Allow-Origin" (FRONTEND_URL env) w in
  let w := Header_Set "Access-Control-Allow-Credentials" "true" w in
  if decide (Method r = "OPTIONS") then
    let w := Header_Set "Access-Control-Allow-Methods" "GET,POST" w in
    let w := Header_Set "Access-Control-Allow-Headers" "Content-Type, Authorization" w in
    let w := WriteHeader StatusOK w in
    mkServed w rc []
  else if decide (Method r ≠ "GET" ∧ Method r ≠ "POST") then
    mkServed (respondError env w StatusMethodNotAllowed "Method not allowed") rc []
  else
    let accessToken := Query_Get (URL_Query r) "access_token" in
    if decide (strings.TrimSpace accessToken = "") then
      mkServed (respondError env w StatusUnauthorized
                  "Missing access token in query string") rc []
    else
      match NewGmailServiceWithClient env accessToken with
      | inr err =>
          mkServed (respondError env w StatusInternalServerError
                      ("Gmail service error: " +:+ err)) rc []
      | inl gmailService =>
          let '(daily, calls) :=
            services.FetchTransactions (html_Parse env) gmailService (now env) 2 in
          match daily with
          | inr appErr =>
              mkServed (respondError env w (services.Code appErr) (services.Msg appErr))
                       rc calls
          | inl dailyTxns =>
              let '(weekly, calls2) :=
                services.FetchTransactions (html_Parse env) gmailService (now env) 14 in
              let calls := calls ++ calls2 in
              match weekly with
              | inr appErr =>
                  mkServed (respondError env w (services.Code appErr) (services.Msg appErr))
                           rc calls
              | inl weeklyTxns =>
                  let '(monthly, calls3) :=
                    services.FetchTransactions (html_Parse env) gmailService (now env) 60 in
                  let calls := calls ++ calls3 in
                  match monthly with
                  | inr appErr =>
                      mkServed (respondError env w (services.Code appErr)
                                  (services.Msg appErr)) rc calls
                  | inl monthlyTxns =>
                      match calculateSummary dailyTxns "daily" with
                      | inr err =>
                          mkServed (respondError env w StatusInternalServerError err)
                                   rc calls
                      | inl dailySummary =>
                          match calculateSummary weeklyTxns "weekly" with
                          | inr err =>
                              mkServed (respondError env w StatusInternalServerError err)
                                       rc calls
                          | inl weeklySummary =>
                              match calculateSummary monthlyTxns "monthly" with
                              | inr err =>
                                  mkServed (respondError env w StatusInternalServerError err)
                                           rc calls
                              | inl monthlySummary =>
                                  let dailyResponse :=
                                    mkResponse dailySummary (appended dailyTxns) in
                                  let weeklyResponse :=
                                    mkResponse weeklySummary (appended weeklyTxns) in
                                  let monthlyResponse :=
                                    mkResponse monthlySummary (appended monthlyTxns) in
                                  let rc := store env rc "daily" dailyResponse in
                                  let rc := store env rc "weekly" weeklyResponse in
                                  let rc := store env rc "monthly" monthlyResponse in
                                  let w := Header_Set "Content-Type" "application/json" w in
                                  mkServed (Write (success_json +:+ line_feed) w) rc calls
                              end
                          end
                      end
                  end
              end
          end
      end.

End refresh.

(* --------------------------------------------------------------------- *)
(** ** Package [main], continued: the router of [main]

    [main] registers the two handlers with a [gorilla/mux] router and
    serves it.  The router redirects a request whose path is not in
    canonical form, and otherwise answers with the first route whose path
    and method both match; when a path matches and no method does, it
    answers 405 itself, and 404 when no path matches. *)

Module router.
Import types GoTime googleapi main refresh.

(** A request as the server receives it: the path of its URL besides what
    the handlers read. *)
Record Incoming := mkIncoming {
  Path : string;
  request : Request }.

(** [r.HandleFunc(path, handler).Methods(methods...)] *)
Record Route := mkRoute {
  route_path : string;
  route_methods : list string;
  route_handler : Env → Redis → Request → Served }.

(** The routes of [main], in the order they are registered. *)
Definition routes : list Route :=
  [mkRoute "/transactions" ["GET"; "OPTIONS"] transactionsHandler;
   mkRoute "/refresh" ["POST"; "OPTIONS"] refreshHandler].

(** [Router.Match]: the first route that matches; [mismatch] records that
    the path of an earlier route matched and its methods did not
    ([ErrMethodMismatch]). *)
Fixpoint Match (routes : list Route) (path method : string) (mismatch : bool)
    : Route + bool :=
  match routes with
  | [] => inr mismatch
  | route :: routes' =>
      if decide (route_path route = path) then
        if decide (method ∈ route_methods route) then inl route
        else Match routes' path method true
      else Match routes' path method mismatch
  end.

(** The router's own answer to a method no route of the path takes: status
    405, nothing else. *)
Definition methodNotAllowed (rc : Redis) : Served :=
  mkServed (WriteHeader StatusMethodNotAllowed new_writer) rc [].

Definition StatusNotFound : Z := 404.

(** [http.NotFound] *)
Definition NotFound (rc : Redis) : Served :=
  let w := Header_Set "Content-Type" "text/plain; charset=utf-8" new_writer in
  let w := Header_Set "X-Content-Type-Options" "nosniff" w in
  let w := WriteHeader StatusNotFound w in
  mkServed (Write ("404 page not found" +:+ line_feed) w) rc [].

(** What the router does with a request: a redirect (status 301) to the
    canonical form of its path, or an answer. *)
Inductive Outcome :=
| Redirected (path : string)
| Answered (served : Served).

Section WithCleanPath.

(** [cleanPath] of [gorilla/mux]: the canonical form of a path. *)
Variable cleanPath : string → string.

(** [Router.ServeHTTP] for the router of [main]. *)
Definition ServeHTTP (env : Env) (rc : Redis) (incoming : Incoming) : Outcome :=
  let path := Path incoming in
  if decide (cleanPath path ≠ path) then Redirected (cleanPath path)
  else
    match Match routes path (Method (request incoming)) false with
    | inl route => Answered (route_handler route env rc (request incoming))
    | inr true => Answered (methodNotAllowed rc)
    | inr false => Answered (NotFound rc)
    end.

End WithCleanPath.

(** The address [main] listens on: the port of the environment, 8080 when
    it names none. *)
Definition listen_address (PORT : string) : string :=
  let port := if decide (PORT = "") then "8080" else PORT in
  ":" +:+ port.

End router.

(* --------------------------------------------------------------------- *)
(** ** A reference JSON codec for the worked examples

    The properties of the HTTP layer hold for any codec in the place of
    [encoding/json].  The examples run the handler with this one, which
    follows the package on the values and documents they use:
    [Marshal] writes the compact form with the struct fields in declaration
    order, a nil slice as [null], strings escaped as the package escapes
    them (HTML-safe), and each float64 with the fewest digits that read
    back to it; [Unmarshal] reads a JSON document into the struct, matching
    object keys to fields by name (ASCII letters without regard to case),
    skipping unknown keys, and leaving a field as it is on [null]. *)

Module json_ref.
Import types main.

(** *** Numbers *)

(** [c * 10^q] compared with [x * 2^s]. *)
Definition cmp_scaled (c q x s : Z) : comparison :=
  (c * 10 ^ Z.max q 0 * 2 ^ Z.max (- s) 0 ?= x * 2 ^ Z.max s 0 * 10 ^ Z.max (- q) 0).

(** [floor (x * 2^s / 10^q)] *)
Definition floor_scaled (x s q : Z) : Z :=
  (x * 2 ^ Z.max s 0 * 10 ^ Z.max (- q) 0) / (2 ^ Z.max (- s) 0 * 10 ^ Z.max q 0).

(** The decimal exponent [x] with [10^x <= m * 2^e < 10^(x+1)], found from
    an estimate by steps of one. *)
Fixpoint adjust_exp10 (fuel : nat) (m e x : Z) : Z :=
  match fuel with
  | O => x
  | S fuel' =>
      match cmp_scaled 1 x m e with
      | Gt => adjust_exp10 fuel' m e (x - 1)
      | _ =>
          match cmp_scaled 1 (x + 1) m e with
          | Gt => x
          | _ => adjust_exp10 fuel' m e (x + 1)
          end
      end
  end.

Definition exp10 (m e : Z) : Z :=
  adjust_exp10 8 m e ((Z.log2 m + e) * 30103 / 100000).

Fixpoint strip_zeros (fuel : nat) (c q : Z) : Z * Z :=
  match fuel with
  | O => (c, q)
  | S fuel' => if (c mod 10 =? 0) && negb (c =? 0) then strip_zeros fuel' (c / 10) (q + 1) else (c, q)
  end.

(** The shortest decimal [c * 10^q] that reads back to [m * 2^e], the
    nearest to it among the shortest: for [n] = 1, 2, ... digits, the two
    [n]-digit neighbours of the value are tried against the interval of
    the reals that round to the float. *)
Fixpoint shortest_from (fuel : nat) (n : Z) (m e x : Z) : Z * Z :=
  let q := x - n + 1 in
  let down := floor_scaled m e q in
  let up := down + 1 in
  let lower := if (m =? 2 ^ 52) && (-1074 <? e) then 4 * m - 1 else 4 * m - 2 in
  let upper := 4 * m + 2 in
  let inclusive := Z.even m in
  let inside c :=
    (match cmp_scaled c q lower (e - 2) with Gt => true | Eq => inclusive | Lt => false end)
    && (match cmp_scaled c q upper (e - 2) with Lt => true | Eq => inclusive | Gt => false end) in
  match fuel with
  | O => (down, q)
  | S fuel' =>
      match inside down, inside up with
      | true, true =>
          match cmp_scaled (2 * down + 1) q (2 * m) e with
          | Gt => (down, q)
          | Lt => (up, q)
          | Eq => if Z.even down then (down, q) else (up, q)
          end
      | true, false => (down, q)
      | false, true => (up, q)
      | false, false => shortest_from fuel' (n + 1) m e x
      end
  end.

Definition shortest (m e : Z) : Z * Z :=
  let '(c, q) := shortest_from 17 1 m e (exp10 m e) in
  strip_zeros 20 c q.

Definition decimal (u : Z) : string := pad_digits 1 u.

(** The digit of [ds] at index [i], ['0'] outside. *)
Definition digit_at (ds : string) (i : Z) : ascii :=
  if i <? 0 then "0"%char else default "0"%char (String.get (Z.to_nat i) ds).

(** [%f] with the shortest digits [ds], the decimal point after [dp] of them. *)
Definition fmtF (ds : string) (dp : Z) : string :=
  let nd := Z.of_nat (String.length ds) in
  let int_part :=
    if 0 <? dp then string_of_bytes ((λ i, digit_at ds i) <$> seqZ 0 dp) else "0" in
  let prec := Z.max (nd - dp) 0 in
  let frac_part :=
    if 0 <? prec then "." +:+ string_of_bytes ((λ i, digit_at ds (dp + i)) <$> seqZ 0 prec)
    else "" in
  int_part +:+ frac_part.

(** [%e] with the shortest digits, and the exponent as the package
    rewrites it (no leading zero). *)
Definition fmtE (ds : string) (dp : Z) : string :=
  let exp := dp - 1 in
  string_take 1 ds
    +:+ (if (1 <? String.length ds)%nat then "." +:+ string_drop 1 ds else "")
    +:+ "e" +:+ (if exp <? 0 then "-" else "+") +:+ decimal (Z.abs exp).

(** The encoding of a float64; [None] for an infinity or a NaN, which the
    package refuses. *)
Definition encode_float (f : float) : option string :=
  match Prim2SF f with
  | S754_zero s => Some (if s then "-0" else "0")
  | S754_finite s m e =>
      let '(c, q) := shortest (Zpos m) e in
      let ds := decimal c in
      let dp := Z.of_nat (String.length ds) + q in
      (* abs < 1e-6 || abs >= 1e21 *)
      let text := if (dp <? -5) || (21 <? dp) then fmtE ds dp else fmtF ds dp in
      Some ((if s then "-" else "") +:+ text)
  | _ => None
  end.

(** *** Strings *)

Definition hex_digit (n : Z) : ascii :=
  if n <? 10 then byte_of (48 + n) else byte_of (87 + n).

Definition backslash : string := String (ascii_of_nat 92) EmptyString.

(** The bytes below 0x80 that are written as they are (HTML-safe set). *)
Definition htmlSafe (b : Z) : bool :=
  (32 <=? b) && negb (b =? 34) && negb (b =? 92)
  && negb (b =? 60) && negb (b =? 62) && negb (b =? 38).

Fixpoint escape (fuel : nat) (s : string) : string :=
  match fuel with
  | O => ""
  | S fuel' =>
      match utf8.DecodeRuneInString s with
      | None => ""
      | Some (c, rest) =>
          let width := (String.length s - String.length rest)%nat in
          let piece :=
            if c <? 128 then
              if htmlSafe c then string_take 1 s
              else if (c =? 92) || (c =? 34) then backslash +:+ string_take 1 s
              else if c =? 10 then backslash +:+ "n"
              else if c =? 13 then backslash +:+ "r"
              else if c =? 9 then backslash +:+ "t"
              else backslash +:+ "u00"
                     +:+ String (hex_digit (c / 16)) (String (hex_digit (c mod 16)) "")
            else if (c =? utf8.RuneError) && (width =? 1)%nat then backslash +:+ "ufffd"
            else if (c =? 8232) || (c =? 8233) then
              backslash +:+ "u202" +:+ String (hex_digit (c mod 16)) ""
            else string_take width s in
          piece +:+ escape fuel' rest
      end
  end.

Definition encode_string (s : string) : string :=
  dquote +:+ escape (String.length s) s +:+ dquote.

(** *** Marshal *)

Definition key (name : string) : string := dquote +:+ name +:+ dquote +:+ ":".

Definition encode_Summary (s : Summary) : option string :=
  t ← encode_float (Total s);
  p ← encode_float (Previously s);
  c ← encode_float (ChangePercentage s);
  Some ("{" +:+ key "total" +:+ t +:+ "," +:+ key "previously" +:+ p
          +:+ "," +:+ key "changePercentage" +:+ c +:+ "}").

Definition encode_Transaction (t : Transaction) : option string :=
  a ← encode_float (Amount t);
  Some ("{" +:+ key "date" +:+ encode_string (Date t) +:+ "," +:+ key "amount" +:+ a
          +:+ "," +:+ key "description" +:+ encode_string (Description t) +:+ "}").

Fixpoint join_comma (l : list string) : string :=
  match l with
  | [] => ""
  | [x] => x
  | x :: l' => x +:+ "," +:+ join_comma l'
  end.

Definition encode_Details (d : slice Transaction) : option string :=
  match d with
  | None => Some "null"
  | Some l => items ← mapM encode_Transaction l; Some ("[" +:+ join_comma items +:+ "]")
  end.

Definition Marshal (v : value) : string + error :=
  match v with
  | response_value r =>
      match encode_Summary (Summary_ r), encode_Details (Details r) with
      | Some s, Some d => inl ("{" +:+ key "summary" +:+ s +:+ "," +:+ key "details" +:+ d +:+ "}")
      | _, _ => inr "json: unsupported value"
      end
  | error_value message code =>
      (* the keys of a map are written in sorted order *)
      inl ("{" +:+ key "code" +:+ (if code <? 0 then "-" else "") +:+ decimal (Z.abs code)
             +:+ "," +:+ key "error" +:+ encode_string message +:+ "}")
  end.

(** *** Reading a document *)

#[local] Unset Elimination Schemes.
Inductive json :=
| JNull
| JBool (b : bool)
| JNumber (negative : bool) (mantissa : Z) (exp10 : Z)   (* mantissa * 10^exp10 *)
| JString (s : string)
| JArray (items : list json)
| JObject (members : list (string * json)).
#[local] Set Elimination Schemes.

Definition is_ws (c : ascii) : bool :=
  let b := byte_val c in (b =? 32) || (b =? 9) || (b =? 10) || (b =? 13).

Fixpoint skip_ws (s : string) : string :=
  match s with
  | String c rest => if is_ws c then skip_ws rest else s
  | EmptyString => s
  end.

Definition hex_val (c : ascii) : option Z :=
  let b := byte_val c in
  if (48 <=? b) && (b <=? 57) then Some (b - 48)
  else if (97 <=? b) && (b <=? 102) then Some (b - 87)
  else if (65 <=? b) && (b <=? 70) then Some (b - 55)
  else None.

(** [utf8.EncodeRune] *)
Definition encode_rune (r : Z) : string :=
  let cont x := byte_of (128 + x mod 64) in
  if r <? 128 then String (byte_of r) ""
  else if r <? 2048 then String (byte_of (192 + r / 64)) (String (cont r) "")
  else if r <? 65536 then
    String (byte_of (224 + r / 4096)) (String (cont (r / 64)) (String (cont r) ""))
  else String (byte_of (240 + r / 262144))
         (String (cont (r / 4096)) (String (cont (r / 64)) (String (cont r) ""))).

Definition hex4 (s : string) : option (Z * string) :=
  match s with
  | String a (String b (String c (String d rest))) =>
      x ← hex_val a; y ← hex_val b; z ← hex_val c; w ← hex_val d;
      Some (((x * 16 + y) * 16 + z) * 16 + w, rest)
  | _ => None
  end.

(** The text of a string literal after its opening quote, and what
    follows the closing quote. *)
Fixpoint read_string (fuel : nat) (s : string) (acc : string) : option (string * string) :=
  match fuel, s with
  | S fuel', String c rest =>
      let b := byte_val c in
      if b =? 34 then Some (acc, rest)
      else if b <? 32 then None
      else if b =? 92 then
        match rest with
        | String e rest' =>
            let plain x := read_string fuel' rest' (acc +:+ String (byte_of x) "") in
            let eb := byte_val e in
            if (eb =? 34) || (eb =? 92) || (eb =? 47) then plain eb
            else if eb =? 98 then plain 8
            else if eb =? 102 then plain 12
            else if eb =? 110 then plain 10
            else if eb =? 114 then plain 13
            else if eb =? 116 then plain 9
            else if eb =? 117 then
              match hex4 rest' with
              | Some (u, rest'') =>
                  if (55296 <=? u) && (u <? 56320) then
                    (* a high surrogate: joined with a low one that follows *)
                    match rest'' with
                    | String b1 (String b2 low) =>
                        match (if (byte_val b1 =? 92) && (byte_val b2 =? 117)
                               then hex4 low else None) with
                        | Some (u2, rest3) =>
                            if (56320 <=? u2) && (u2 <? 57344) then
                              read_string fuel' rest3
                                (acc +:+ encode_rune (65536 + (u - 55296) * 1024 + (u2 - 56320)))
                            else read_string fuel' rest'' (acc +:+ encode_rune utf8.RuneError)
                        | None => read_string fuel' rest'' (acc +:+ encode_rune utf8.RuneError)
                        end
                    | _ => read_string fuel' rest'' (acc +:+ encode_rune utf8.RuneError)
                    end
                  else if (56320 <=? u) && (u <? 57344) then
                    read_string fuel' rest'' (acc +:+ encode_rune utf8.RuneError)
                  else read_string fuel' rest'' (acc +:+ encode_rune u)
              | None => None
              end
            else None
        | EmptyString => None
        end
      else read_string fuel' rest (acc +:+ String c "")
  | _, _ => None
  end.

Fixpoint read_digits (s : string) (acc : Z) (n : Z) : Z * Z * string :=
  match s with
  | String c rest => if isDigit c then read_digits rest (acc * 10 + digit_val c) (n + 1)
                     else (acc, n, s)
  | EmptyString => (acc, n, s)
  end.

(** A number: an optional minus, an integer without a leading zero, an
    optional fraction and an optional exponent. *)
Definition read_number (s : string) : option (json * string) :=
  let '(negative, s) :=
    match s with
    | String c rest => if Ascii.eqb c "-" then (true, rest) else (false, s)
    | _ => (false, s)
    end in
  let '(int, n, s1) := read_digits s 0 0 in
  let leading_zero := match s with String c _ => Ascii.eqb c "0" | _ => false end in
  if (n =? 0) || (leading_zero && (1 <? n)) then None
  else
    match
      (match s1 with
       | String c rest =>
           if Ascii.eqb c "." then
             let '(m, k, s2) := read_digits rest int 0 in
             if k =? 0 then None else Some (m, k, s2)
           else Some (int, 0, s1)
       | _ => Some (int, 0, s1)
       end)
    with
    | None => None
    | Some (m, k, s2) =>
        match s2 with
        | String c rest =>
            if Ascii.eqb c "e" || Ascii.eqb c "E" then
              let '(eneg, rest) :=
                match rest with
                | String d rest' =>
                    if Ascii.eqb d "-" then (true, rest')
                    else if Ascii.eqb d "+" then (false, rest') else (false, rest)
                | _ => (false, rest)
                end in
              let '(x, xn, s3) := read_digits rest 0 0 in
              if xn =? 0 then None
              else Some (JNumber negative m ((if eneg then - x else x) - k), s3)
            else Some (JNumber negative m (- k), s2)
        | _ => Some (JNumber negative m (- k), s2)
        end
    end.

Fixpoint read_value (fuel : nat) (s : string) : option (json * string) :=
  match fuel with
  | O => None
  | S fuel' =>
      let s := skip_ws s in
      match s with
      | String c rest =>
          let b := byte_val c in
          if b =? 123 then                                   (* an object *)
            match skip_ws rest with
            | String d rest' =>
                if byte_val d =? 125 then Some (JObject [], rest')
                else read_members fuel' (skip_ws rest) []
            | _ => None
            end
          else if b =? 91 then                               (* an array *)
            match skip_ws rest with
            | String d rest' =>
                if byte_val d =? 93 then Some (JArray [], rest')
                else read_items fuel' (skip_ws rest) []
            | _ => None
            end
          else if b =? 34 then
            '(text, rest') ← read_string (String.length rest) rest "";
            Some (JString text, rest')
          else
            match skip_literal "true" s, skip_literal "false" s, skip_literal "null" s with
            | Some rest', _, _ => Some (JBool true, rest')
            | _, Some rest', _ => Some (JBool false, rest')
            | _, _, Some rest' => Some (JNull, rest')
            | _, _, _ => read_number s
            end
      | EmptyString => None
      end
  end
with read_items (fuel : nat) (s : string) (acc : list json) : option (json * string) :=
  match fuel with
  | O => None
  | S fuel' =>
      match read_value fuel' s with
      | Some (v, rest) =>
          match skip_ws rest with
          | String c rest' =>
              if byte_val c =? 44 then read_items fuel' rest' (acc ++ [v])
              else if byte_val c =? 93 then Some (JArray (acc ++ [v]), rest')
              else None
          | _ => None
          end
      | None => None
      end
  end
with read_members (fuel : nat) (s : string) (acc : list (string * json))
    : option (json * string) :=
  match fuel with
  | O => None
  | S fuel' =>
      match skip_ws s with
      | String q rest =>
          if byte_val q =? 34 then
            match read_string (String.length rest) rest "" with
            | Some (name, rest1) =>
                match skip_ws rest1 with
                | String colon rest2 =>
                    if byte_val colon =? 58 then
                      match read_value fuel' rest2 with
                      | Some (v, rest3) =>
                          match skip_ws rest3 with
                          | String c rest4 =>
                              if byte_val c =? 44 then
                                read_members fuel' rest4 (acc ++ [(name, v)])
                              else if byte_val c =? 125 then
                                Some (JObject (acc ++ [(name, v)]), rest4)
                              else None
                          | _ => None
                          end
                      | None => None
                      end
                    else None
                | _ => None
                end
            | None => None
            end
          else None
      | _ => None
      end
  end.

(** A whole document. *)
Definition read_document (s : string) : option json :=
  match read_value (2 * String.length s + 2) s with
  | Some (v, rest) => match skip_ws rest with EmptyString => Some v | _ => None end
  | None => None
  end.

(** *** Unmarshal *)

Definition lower_ascii (s : string) : string :=
  string_of_bytes (html_ref.toLower <$> bytes_of_string s).

(** A key names a field when it is the field's JSON name up to the case
    of ASCII letters. *)
Definition names (k field : string) : bool :=
  bool_decide (lower_ascii k = lower_ascii field).

(** A number as a float64; [None] when it is out of range. *)
Definition number (negative : bool) (mantissa exp10 : Z) : option float :=
  let f :=
    match mantissa with
    | Zpos m =>
        SF2Prim (SFdiv prec emax
                   (S754_finite false (Z.to_pos (mantissa * 10 ^ Z.max exp10 0)) 0)
                   (S754_finite false (Z.to_pos (10 ^ Z.max (- exp10) 0)) 0))
    | _ => 0%float
    end in
  if PrimFloat.is_infinity f then None
  else Some (if negative then PrimFloat.opp f else f).

Definition into_float (old : float) (v : json) : option float :=
  match v with
  | JNull => Some old
  | JNumber negative m x => number negative m x
  | _ => None
  end.

Definition into_string (old : string) (v : json) : option string :=
  match v with
  | JNull => Some old
  | JString s => Some s
  | _ => None
  end.

(** Each member of an object stored into the field it names, in order. *)
Definition into_fields {A} (store : A → string → json → option A) (start : A)
    (members : list (string * json)) : option A :=
  fold_left (λ acc m, a ← acc; store a m.1 m.2) members (Some start).

Definition into_Summary (old : Summary) (v : json) : option Summary :=
  match v with
  | JNull => Some old
  | JObject members =>
      into_fields (λ s k v,
        if names k "total" then
          (λ x, mkSummary x (Previously s) (ChangePercentage s)) <$> into_float (Total s) v
        else if names k "previously" then
          (λ x, mkSummary (Total s) x (ChangePercentage s)) <$> into_float (Previously s) v
        else if names k "changePercentage" then
          (λ x, mkSummary (Total s) (Previously s) x) <$> into_float (ChangePercentage s) v
        else Some s) old members
  | _ => None
  end.

Definition into_Transaction (old : Transaction) (v : json) : option Transaction :=
  match v with
  | JNull => Some old
  | JObject members =>
      into_fields (λ t k v,
        if names k "date" then
          (λ x, mkTransaction x (Amount t) (Description t)) <$> into_string (Date t) v
        else if names k "amount" then
          (λ x, mkTransaction (Date t) x (Description t)) <$> into_float (Amount t) v
        else if names k "description" then
          (λ x, mkTransaction (Date t) (Amount t) x) <$> into_string (Description t) v
        else Some t) old members
  | _ => None
  end.

Definition into_Details (v : json) : option (slice Transaction) :=
  match v with
  | JNull => Some None
  | JArray items => Some <$> mapM (into_Transaction (mkTransaction "" 0%float "")) items
  | _ => None
  end.

Definition into_Response (old : TransactionsResponse) (v : json)
    : option TransactionsResponse :=
  match v with
  | JNull => Some old
  | JObject members =>
      into_fields (λ r k v,
        if names k "summary" then
          (λ x, mkResponse x (Details r)) <$> into_Summary (Summary_ r) v
        else if names k "details" then
          (λ x, mkResponse (Summary_ r) x) <$> into_Details v
        else Some r) old members
  | _ => None
  end.

Definition zero_response : TransactionsResponse :=
  mkResponse (mkSummary 0%float 0%float 0%float) None.

Definition Unmarshal (data : string) : TransactionsResponse + error :=
  match read_document data with
  | None => inr "json: syntax error"
  | Some v =>
      match into_Response zero_response v with
      | Some r => inl r
      | None => inr "json: cannot unmarshal into Go value"
      end
  end.

End json_ref.

(* --------------------------------------------------------------------- *)
(** ** Notions the statements about the summarizer use *)

Module SummarySpec.
Import types GoTime main.

(** The sum of a list of [float64] values, added left to right from 0 as
    a running total does. *)
Fixpoint float_sum_from (acc : float) (l : list float) : float :=
  match l with
  | [] => acc
  | x :: l' => float_sum_from (PrimFloat.add acc x) l'
  end.
Definition float_sum (l : list float) : float := float_sum_from 0%float l.


(** Strings of decimal digits, and the numbers they denote. *)
Definition digits2 (a b : Z) : string :=
  String (digit_char a) (String (digit_char b) "").
Definition digits4 (a b c d : Z) : string :=
  String (digit_char a) (String (digit_char b) (digits2 c d)).

Definition below10 : list Z := seqZ 0 10.

Definition val2 (a b : ascii) : Z := digit_val a * 10 + digit_val b.
Definition val4 (a b c d : ascii) : Z :=
  ((digit_val a * 10 + digit_val b) * 10 + digit_val c) * 10 + digit_val d.


(** The text "YYYY-MM-DD" with the given digits. *)
Definition iso_string (y1 y2 y3 y4 m1 m2 d1 d2 : ascii) : string :=
  String y1 (String y2 (String y3 (String y4 (String "-"
    (String m1 (String m2 (String "-" (String d1 (String d2 "")))))))))%char.


(** A date that [time.Parse] accepts under "2006-01-02" is a calendar
    date of the years 0 to 9999. *)
Definition valid_date (t : Time) : Prop :=
  0 ≤ year t ≤ 9999 ∧ 1 ≤ month t ≤ 12 ∧ 1 ≤ day t ≤ daysIn (month t) (year t).


#[global] Instance Time_eq_dec : EqDecision Time.
Proof. solve_decision. Defined.
#[global] Instance ParseError_eq_dec : EqDecision ParseError.
Proof. solve_decision. Defined.

(** [t] is not later than [u]. *)
Definition not_after (t u : Time) : Prop := After t u = false.

(** The parsed date of a transaction, when its [Date] parses. *)
Definition dateOf (txn : Transaction) : option Time :=
  match Parse layoutISO (Date txn) with
  | inl t => Some t
  | inr _ => None
  end.


(** [d] is the latest date present in [txs]: some transaction parses to
    it and no transaction parses to a later one. *)
Definition latest_date (txs : list Transaction) (d : Time) : Prop :=
  (∃ t, t ∈ txs ∧ Parse layoutISO (Date t) = inl d)
  ∧ ∀ t d', t ∈ txs → Parse layoutISO (Date t) = inl d' → not_after d' d.


(** The total of the transactions dated [d], in list order. *)
Definition dayTotal (txs : list Transaction) (d : Time) : float :=
  float_sum (Amount <$> filter (λ t, Parse layoutISO (Date t) = inl d) txs).


(** The YYYY-MM key of a transaction, when its [Date] parses. *)
Definition monthKey (txn : Transaction) : option string :=
  match Parse layoutISO (Date txn) with
  | inl t => Some (Format t layoutMonth)
  | inr _ => None
  end.

Definition monthTotal (txs : list Transaction) (k : string) : float :=
  float_sum (Amount <$> filter (λ t, monthKey t = Some k) txs).

Definition month_present (txs : list Transaction) (k : string) : Prop :=
  ∃ t, t ∈ txs ∧ monthKey t = Some k.

Definition greatest_month (txs : list Transaction) (k : string) : Prop :=
  month_present txs k ∧ ∀ k', month_present txs k' → String.le k' k.

Definition second_greatest_month (txs : list Transaction) (k2 k1 : string) : Prop :=
  month_present txs k2 ∧ k2 ≠ k1 ∧
  ∀ k', month_present txs k' → k' ≠ k1 → String.le k' k2.


(** Accumulating values into a map by an optional key: the shape of the
    loops [for _, txn := range transactions { ... m[key] += txn.Amount }]. *)
Definition group_step {A} (key : A → option string) (val : A → float)
    (m : gmap string float) (x : A) : gmap string float :=
  match key x with
  | Some k => map_add m k (val x)
  | None => m
  end.

Definition group_vals {A} (key : A → option string) (val : A → float)
    (k : string) (l : list A) : list float :=
  val <$> filter (λ x, key x = Some k) l.

(** The key of the "daily" loop: the [Date] text itself, when it parses. *)
Definition dailyKey (txn : Transaction) : option string :=
  match Parse layoutISO (Date txn) with
  | inl _ => Some (Date txn)
  | inr _ => None
  end.

(** [if t.After(maxDate) { maxDate = t }]. *)
Definition later (maxDate t : Time) : Time := if After t maxDate then t else maxDate.

(** Sample transactions for the worked examples. *)
Definition txn (date : string) (amount : float) : Transaction :=
  mkTransaction date amount "Transaction from HTML email".

Definition sparse_months : list Transaction :=
  [txn "2024-01-10" 5%float; txn "2024-03-01" 7%float; txn "2024-03-05" 1.5%float;
   txn "yesterday" 100%float].

Definition early_march : list Transaction :=
  [txn "2024-03-04" 5%float; txn "2024-03-01" 7%float; txn "2024-03-05" 1.5%float;
   txn "05-03-24" 100%float].

Ltac zdiv := Z.div_mod_to_equations; lia.


Ltac after_cases :=
  unfold not_after, After in *; cbn [year month day] in *;
  repeat match goal with
  | H : context [?a <? ?b] |- _ => destruct (Z.ltb_spec a b); cbn [orb andb] in H
  | H : context [?a =? ?b] |- _ => destruct (Z.eqb_spec a b); cbn [orb andb] in H
  | |- context [?a <? ?b] => destruct (Z.ltb_spec a b); cbn [orb andb]
  | |- context [?a =? ?b] => destruct (Z.eqb_spec a b); cbn [orb andb]
  end; try discriminate; try reflexivity; try lia.


End SummarySpec.

(* --------------------------------------------------------------------- *)
(** ** Notions the statements about the content extractor use *)

Module ContentSpec.
Import gmail services.

(** The decodable body of a node itself: its type is text/plain or
    text/html, it has a body with data, and the data decodes.  (A node has
    one type, so looking for text/plain first never passes over a text/html
    body of the same node.) *)
Definition own_body (part : MessagePart) : option string :=
  if decide (MimeType part = "text/plain") then decoded_body (Body part)
  else if decide (MimeType part = "text/html") then decoded_body (Body part)
  else None.

(** The nodes of a tree in depth-first order, a node before its children. *)
Fixpoint preorder (part : MessagePart) : list MessagePart :=
  part :: (fix children (ps : list MessagePart) : list MessagePart :=
             match ps with
             | [] => []
             | p :: ps' => preorder p ++ children ps'
             end) (Parts part).

(** The first decodable body that traversal finds. *)
Definition first_body (part : MessagePart) : option string :=
  head (omap own_body (preorder part)).

(** No decodable body of the tree is empty. *)
Definition no_empty_body (part : MessagePart) : Prop :=
  ∀ p, p ∈ preorder part → own_body p ≠ Some "".

(** The loop over the children: the first non-empty result. *)
Definition range_parts (contents : list string) : string :=
  default "" (head (filter (λ c, c ≠ "") contents)).

(** A line feed, which [DecodeString] skips. *)
Definition newline : string := String (ascii_of_nat 10) EmptyString.

Definition plain (data : string) : MessagePart :=
  mkPart "text/plain" (Some (mkBody data)) [].
Definition html (data : string) : MessagePart :=
  mkPart "text/html" (Some (mkBody data)) [].
Definition multipart (parts : list MessagePart) : MessagePart :=
  mkPart "multipart/alternative" None parts.

End ContentSpec.

(* --------------------------------------------------------------------- *)
(** ** What a regular expression matches *)

Module RegexpSpec.
Import regexp.

(** Every byte of [s] satisfies [p]. *)
Fixpoint all_bytes (p : ascii → bool) (s : string) : bool :=
  match s with
  | EmptyString => true
  | String c s' => p c && all_bytes p s'
  end.

(** [matches r s cs s' cs']: [r] matches a prefix of [s] and leaves [s'];
    the captures go from [cs] to [cs']. *)
Inductive matches : re → string → captures → string → captures → Prop :=
| matches_Rune p s c rest cs :
    utf8.DecodeRuneInString s = Some (c, rest) → p c = true →
    matches (Rune p) s cs rest cs
| matches_Cat r1 r2 s cs s1 cs1 s2 cs2 :
    matches r1 s cs s1 cs1 → matches r2 s1 cs1 s2 cs2 →
    matches (Cat r1 r2) s cs s2 cs2
| matches_Star_stop r s cs : matches (Star r) s cs s cs
| matches_Star_turn r s cs s1 cs1 s2 cs2 :
    matches r s cs s1 cs1 → matches (Star r) s1 cs1 s2 cs2 →
    matches (Star r) s cs s2 cs2
| matches_Plus r s cs s1 cs1 s2 cs2 :
    matches r s cs s1 cs1 → matches (Star r) s1 cs1 s2 cs2 →
    matches (Plus r) s cs s2 cs2
| matches_Quest_one r s cs s1 cs1 :
    matches r s cs s1 cs1 → matches (Quest r) s cs s1 cs1
| matches_Quest_none r s cs : matches (Quest r) s cs s cs
| matches_Cap i r s cs s1 cs1 :
    matches r s cs s1 cs1 →
    matches (Cap i r) s cs s1
      ((i, string_take (String.length s - String.length s1) s) :: cs1).

(** No group inside. *)
Fixpoint cap_free (r : re) : bool :=
  match r with
  | Rune _ => true
  | Cat r1 r2 => cap_free r1 && cap_free r2
  | Star r1 | Plus r1 | Quest r1 => cap_free r1
  | Cap _ _ => false
  end.

(** The bytes of the class [[0-9,.]]. *)
Definition amount_byte (c : ascii) : bool :=
  isDigit c || Ascii.eqb c "," || Ascii.eqb c ".".

Definition digit_or_dot (c : ascii) : bool := isDigit c || Ascii.eqb c ".".

Definition digit_or_dash (c : ascii) : bool := isDigit c || Ascii.eqb c "-".

End RegexpSpec.

(* --------------------------------------------------------------------- *)
(** ** Notions the statements about the field extractor and the fetcher use *)

Module FieldSpec.
Import types gmail googleapi services ContentSpec.

(** The message of the failure the two patterns decide. *)
Definition could_not_parse : error := "could not parse transaction details".

(** [sub] occurs in [s]. *)
Fixpoint has_substring (sub s : string) : bool :=
  match skip_literal sub s with
  | Some _ => true
  | None => match s with String _ s' => has_substring sub s' | EmptyString => false end
  end.

(** What one listed message adds to the result of [FetchTransactions]:
    its transaction when it is fetched and parsed, nothing otherwise. *)
Definition contribution (html_Parse : string → html.Node + error) (srv : Service)
    (id : string) : option Transaction :=
  match Messages_Get srv id with
  | inl message =>
      match parseTransactionEmail html_Parse message with
      | inl transaction => Some transaction
      | inr _ => None
      end
  | inr _ => None
  end.

(** The sample of the specification: a message whose only part is
    text/html, its body the base64url text of
    [<p>Rs. 1,234.50 on 05-03-24</p>]. *)
Definition sample_markup : string := "<p>Rs. 1,234.50 on 05-03-24</p>".
Definition sample_data : string := "PHA-UnMuIDEsMjM0LjUwIG9uIDA1LTAzLTI0PC9wPg==".
Definition sample_message : Message := mkMessage "m1" (html sample_data).

(** A mailbox of three messages; the second lacks the date pattern
    ("Rs. 75 at the shop"), the third is plain text. *)
Definition sample_mailbox : Service :=
  mkService
    (λ query, inl ["m1"; "m2"; "m3"])
    (λ id,
       if decide (id = "m1") then inl sample_message
       else if decide (id = "m2") then
         inl (mkMessage "m2" (plain "UnMuIDc1IGF0IHRoZSBzaG9w"))
       else if decide (id = "m3") then
         inl (mkMessage "m3" (multipart [plain "UnMuIDI1MCBvbiAwMS0wMi0yNA=="]))
       else inr (googleapi.Error 404 "googleapi: Error 404: Requested entity was not found.")).

End FieldSpec.

(* --------------------------------------------------------------------- *)
(** ** Notions the statements about the HTTP layer use *)

Module HttpSpec.
Import types gmail googleapi services main FieldSpec.

(** The filter a request asks for: "all" when it names none. *)
Definition filter_of (r : Request) : string :=
  let filter := Query_Get (URL_Query r) "filter" in
  if decide (filter = "") then "all" else filter.

Definition token_of (r : Request) : string := Query_Get (URL_Query r) "access_token".

(** A string of white space only (the empty string too). *)
Definition blank (s : string) : Prop :=
  Forall (λ x, strings.IsSpace x.1 = true) (strings.runes (String.length s) s).

(** The key of the request's filter holds [cached], which decodes to
    [resp]: a valid cached entry. *)
Definition cache_hit (env : Env) (rc : Redis) (r : Request)
    (cached : string) (resp : TransactionsResponse) : Prop :=
  redis_Get rc (getCacheKey (filter_of r)) = Some cached
  ∧ json_Unmarshal env cached = inl resp.

Definition cache_miss (env : Env) (rc : Redis) (r : Request) : Prop :=
  ∀ cached resp, ¬ cache_hit env rc r cached resp.

(** The lookup at the head of the handler: the decoded entry of the
    filter's key, when there is a valid one. *)
Definition lookup (env : Env) (rc : Redis) (r : Request) : option TransactionsResponse :=
  match redis_Get rc (getCacheKey (filter_of r)) with
  | Some cached =>
      match json_Unmarshal env cached with
      | inl response => Some response
      | inr _ => None
      end
  | None => None
  end.

(** The bytes [Encode] writes for a value: its JSON and a line feed, or
    nothing when it cannot be marshalled. *)
Definition encoded (env : Env) (v : value) : string :=
  match json_Marshal env v with
  | inl data => data +:+ line_feed
  | inr _ => ""
  end.

(** The sample world: the reference parser and codec, the mailbox of
    three messages behind every token, on 6 March 2024. *)
Definition sample_env : Env :=
  mkEnv "https://dashboard.example" html_ref.Parse json_ref.Marshal json_ref.Unmarshal
        (λ token, inl sample_mailbox) (GoTime.mkTime 2024 3 6).

(** The same world when the Gmail client cannot be built. *)
Definition no_client_env : Env :=
  mkEnv "https://dashboard.example" html_ref.Parse json_ref.Marshal json_ref.Unmarshal
        (λ token, inr "unable to create Gmail service: no client")
        (GoTime.mkTime 2024 3 6).

Definition empty_cache : Redis := mkRedis ∅ true.

Definition get (query : list (string * string)) : Request := mkRequest "GET" query.

(** The cache after the sample world served [filter=all] once. *)
Definition warm_cache : Redis :=
  cache (transactionsHandler sample_env empty_cache
           (get [("filter", "all"); ("access_token", "ya29.token")])).

(** What that request was answered with, and the bytes it stored. *)
Definition sample_response : TransactionsResponse :=
  mkResponse (mkSummary 1484.5%float 0%float 0%float)
    (Some [mkTransaction "2024-03-05" 1234.5%float "Transaction from HTML email";
           mkTransaction "2024-02-01" 250%float "Transaction from HTML email"]).

Definition sample_stored : string :=
  match json_ref.Marshal (response_value sample_response) with
  | inl data => data
  | inr _ => ""
  end.

End HttpSpec.
(* --------------------------------------------------------------------- *)
(** ** More notions about the summarizer *)

Module SummaryMore.
Import types GoTime main SummarySpec.

(** The transaction's [Date] parses under "2006-01-02". *)
Definition dated (txn : Transaction) : Prop := is_Some (dateOf txn).

#[global] Instance dated_dec (txn : Transaction) : Decision (dated txn).
Proof. unfold dated. apply _. Defined.

(** The total of the seven days [latest - from], ..., [latest - from - 6],
    added in that order from 0 as the loop of the "weekly" branch does. *)
Definition weekTotal (txs : list Transaction) (latest : Time) (from : Z) : float :=
  float_sum ((λ i, dayTotal txs (AddDays latest (- i))) <$> seqZ from 7).

(** The three periods that compare two spans of time. *)
Definition comparing : list string := ["daily"; "weekly"; "monthly"].

(** The days just before a date that is later than the zero time are
    calendar dates, down to 0000-12-01. *)
Definition near (k : Z) (t : Time) : Prop :=
  valid_date t ∧ (1 ≤ year t ∨ (year t = 0 ∧ month t = 12 ∧ 31 - k ≤ day t)).

(** No transaction has a date later than the zero time. *)
Definition none_after_zero (txs : list Transaction) : Prop :=
  ∀ t d, t ∈ txs → Parse layoutISO (Date t) = inl d → After d zero = false.

(** No transaction has a date that parses. *)
Definition undated (txs : list Transaction) : Prop :=
  ∀ t, t ∈ txs → dateOf t = None.

(** Sample transactions of one month, with a malformed date among them. *)
Definition march_only : list Transaction :=
  [txn "2024-03-01" 7%float; txn "March 3rd" 3%float; txn "2024-03-05" 1.5%float].

(** Sample transactions of three weeks: two in the week that ends on
    5 March 2024, two in the week before it, one earlier. *)
Definition three_weeks : list Transaction :=
  [txn "2024-02-28" 6%float; txn "2024-03-05" 4%float; txn "2024-02-27" 5%float;
   txn "2024-02-20" 100%float; txn "2024-02-21" 3%float].

End SummaryMore.

(* --------------------------------------------------------------------- *)
(** ** More notions about the field extractor and the fetcher *)

Module FieldMore.
Import types gmail googleapi GoTime services SummarySpec FieldSpec.

(** The number of bytes of [s] that satisfy [p]. *)
Fixpoint count_bytes (p : ascii → bool) (s : string) : nat :=
  match s with
  | EmptyString => 0
  | String c s' => (if p c then 1 else 0) + count_bytes p s'
  end.

Definition is_dot (c : ascii) : bool := Ascii.eqb c ".".

(** The text [amountStr] of [parseTransactionEmail]: the group of the
    amount pattern without its commas. *)
Definition amount_text (body : string) : string :=
  remove_byte "," (at1 (regexp.FindStringSubmatch amountPattern body)).

(** The text [dateMatch[1]]. *)
Definition date_text (body : string) : string :=
  at1 (regexp.FindStringSubmatch datePattern body).

(** The text "DD-MM-YY" with the given digits. *)
Definition dmy_string (d1 d2 m1 m2 y1 y2 : ascii) : string :=
  String d1 (String d2 (String "-" (String m1 (String m2 (String "-"
    (String y1 (String y2 "")))))))%char.

(** The year a two-digit year stands for under the layout "06". *)
Definition century (yy : Z) : Z := if 69 <=? yy then yy + 1900 else yy + 2000.

(** The date [time.Parse] reads from such a text, when it is one. *)
Definition dmy_date (d1 d2 m1 m2 y1 y2 : ascii) : Time :=
  mkTime (century (val2 y1 y2)) (val2 m1 m2) (val2 d1 d2).

(** What every transaction the program parses looks like: the fixed
    description, and a date in the form "2006-01-02" of the years 1969 to
    2068. *)
Definition well_dated (tx : Transaction) : Prop :=
  Description tx = "Transaction from HTML email"
  ∧ ∃ t, Parse layoutISO (Date tx) = inl t ∧ Format t layoutISO = Date tx
         ∧ 1969 ≤ year t ≤ 2068.

(** The listing was refused for want of authorisation: a
    [*googleapi.Error] with code 401 or 403. *)
Definition refused (err : api_error) : Prop :=
  ∃ text, err = googleapi.Error 401 text ∨ err = googleapi.Error 403 text.

(** A mailbox that refuses every call with code 403. *)
Definition denied_mailbox : Service :=
  mkService
    (λ query, inr (googleapi.Error 403 "googleapi: Error 403: Insufficient Permission"))
    (λ id, inr (googleapi.Error 403 "googleapi: Error 403: Insufficient Permission")).

(** A mailbox that is out of order. *)
Definition broken_mailbox : Service :=
  mkService
    (λ query, inr (googleapi.Error 503 "googleapi: Error 503: Backend Error"))
    (λ id, inr (googleapi.other "connection reset")).

(** A mailbox that lists four messages and cannot deliver the second. *)
Definition lossy_mailbox : Service :=
  mkService
    (λ query, inl ["m1"; "gone"; "m2"; "m3"])
    (λ id, if decide (id = "gone") then inr (googleapi.other "connection reset")
           else Messages_Get sample_mailbox id).

(** A mailbox without messages. *)
Definition empty_mailbox : Service :=
  mkService (λ query, inl [])
            (λ id, inr (googleapi.Error 404 "googleapi: Error 404: Requested entity was not found.")).

End FieldMore.

(* --------------------------------------------------------------------- *)
(** ** More notions about the content extractor and the markup stripper *)

Module ContentMore.
Import gmail services html ContentSpec.

(** The data of the text nodes of a tree, a node before its children and
    the children in document order. *)
Fixpoint node_texts (n : Node) : list string :=
  (if decide (Typ n = TextNode) then [Data n] else [])
  ++ (fix children (cs : list Node) : list string :=
        match cs with
        | [] => []
        | c :: cs' => node_texts c ++ children cs'
        end) (Children n).

Definition concat_strings (l : list string) : string := foldr String.append "" l.

End ContentMore.

(* --------------------------------------------------------------------- *)
(** ** More notions about the HTTP layer *)

Module HttpMore.
Import types gmail googleapi services main FieldSpec FieldMore HttpSpec refresh.

(** The headers every response carries for the browser of the
    dashboard. *)
Definition cors_headers (env : Env) (w : ResponseWriter) : Prop :=
  Header w !! "Access-Control-Allow-Origin" = Some (FRONTEND_URL env)
  ∧ Header w !! "Access-Control-Allow-Credentials" = Some "true".

Definition json_typed (w : ResponseWriter) : Prop :=
  Header w !! "Content-Type" = Some "application/json".

(** The status codes the two handlers answer with. *)
Definition status_codes : list Z :=
  [StatusOK; StatusBadRequest; StatusUnauthorized; StatusMethodNotAllowed;
   StatusInternalServerError].

(** The sample world with another mailbox behind every token. *)
Definition world (mailbox : Service) : Env :=
  mkEnv "https://dashboard.example" html_ref.Parse json_ref.Marshal json_ref.Unmarshal
        (λ token, inl mailbox) (GoTime.mkTime 2024 3 6).

Definition post (query : list (string * string)) : Request := mkRequest "POST" query.

(** A cache whose server does not answer. *)
Definition down_cache : Redis := mkRedis ∅ false.

(** The request reaches the mailbox and the fetch succeeds: the token is
    not blank, a Gmail client is built for it, the filter is one of the
    four, and [FetchTransactions] returns [txs] after the calls [calls]. *)
Definition live_fetch (env : Env) (r : Request) (txs : list Transaction)
    (calls : list Call) : Prop :=
  strings.TrimSpace (token_of r) ≠ ""
  ∧ ∃ gmailService days,
      NewGmailServiceWithClient env (token_of r) = inl gmailService
      ∧ lookback_days (filter_of r) = Some days
      ∧ FetchTransactions (html_Parse env) gmailService (now env) days = (inl txs, calls).

(** The cache after [response] was stored for [filter] with a time to
    live of [ttl] minutes, when it can be marshalled. *)
Definition stored (env : Env) (rc : Redis) (filter : string)
    (response : TransactionsResponse) (ttl : Z) : Redis :=
  match json_Marshal env (response_value response) with
  | inl data => redis_Set rc (getCacheKey filter) data ttl
  | inr _ => rc
  end.

(** The codec reads back what it writes for [response]. *)
Definition round_trip (env : Env) (response : TransactionsResponse) : Prop :=
  ∃ data, json_Marshal env (response_value response) = inl data
          ∧ json_Unmarshal env data = inl response.

(** The refresh reaches the mailbox and its three fetches succeed: the
    token is not blank, a Gmail client is built for it, and
    [FetchTransactions] returns [daily], [weekly] and [monthly] for 2, 14
    and 60 days, after the calls [calls] in all. *)
Definition refresh_fetch (env : Env) (r : Request) (daily weekly monthly : list Transaction)
    (calls : list Call) : Prop :=
  strings.TrimSpace (token_of r) ≠ ""
  ∧ ∃ gmailService calls1 calls2 calls3,
      NewGmailServiceWithClient env (token_of r) = inl gmailService
      ∧ FetchTransactions (html_Parse env) gmailService (now env) 2 = (inl daily, calls1)
      ∧ FetchTransactions (html_Parse env) gmailService (now env) 14 = (inl weekly, calls2)
      ∧ FetchTransactions (html_Parse env) gmailService (now env) 60 = (inl monthly, calls3)
      ∧ calls = (calls1 ++ calls2) ++ calls3.

(** The three keys a refresh writes. *)
Definition refreshed_keys : list string :=
  [getCacheKey "daily"; getCacheKey "weekly"; getCacheKey "monthly"].

(** The answer to a preflight request that allows [allowed]. *)
Definition preflight (env : Env) (allowed : string) (rc : Redis) : Served :=
  mkServed
    (mkWriter
       (<["Access-Control-Allow-Headers" := "Content-Type, Authorization"]>
          (<["Access-Control-Allow-Methods" := allowed]>
             (<["Access-Control-Allow-Credentials" := "true"]>
                (<["Access-Control-Allow-Origin" := FRONTEND_URL env]> ∅))))
       (Some StatusOK) "") rc [].

(** The method was refused: status 405 with the error body, no call to
    the mailbox, and the cache as it was. *)
Definition method_refused (env : Env) (rc : Redis) (served : Served) : Prop :=
  StatusCode (response served) = StatusMethodNotAllowed
  ∧ body (response served)
    = encoded env (error_value "Method not allowed" StatusMethodNotAllowed)
  ∧ provider_calls served = []
  ∧ cache served = rc.

(** Sample requests with a token, and what the sample mailbox yields. *)
Definition asking (filter : string) : Request :=
  get [("filter", filter); ("access_token", "ya29.token")].

Definition sample_txs : list Transaction :=
  [mkTransaction "2024-03-05" 1234.5%float "Transaction from HTML email";
   mkTransaction "2024-02-01" 250%float "Transaction from HTML email"].

Definition sample_calls (days : Z) : list Call :=
  [ListCall (query_for (GoTime.mkTime 2024 3 6) days);
   GetCall "m1"; GetCall "m2"; GetCall "m3"].

(** A mailbox like the sample one that lists nothing for the last two
    days. *)
Definition quiet_mailbox : Service :=
  mkService
    (λ query, if decide (query = query_for (GoTime.mkTime 2024 3 6) 2) then inl []
              else inl ["m1"; "m2"; "m3"])
    (Messages_Get sample_mailbox).

(** A message of plain text whose amount is 1 followed by 308 zeros:
    the base64url text of [Rs. 10...0 on 05-03-24].  Two such amounts add
    up to more than a [float64] holds. *)
Definition large_data : string :=
  "UnMuIDEwMDAwMDAwMDAwMDAwMDAwMDAwMDAwMDAwMDAwMDAwMDAwMDAwMDAwMDAw" +:+
  "MDAwMDAwMDAwMDAwMDAwMDAwMDAwMDAwMDAwMDAwMDAwMDAwMDAwMDAwMDAwMDAw" +:+
  "MDAwMDAwMDAwMDAwMDAwMDAwMDAwMDAwMDAwMDAwMDAwMDAwMDAwMDAwMDAwMDAw" +:+
  "MDAwMDAwMDAwMDAwMDAwMDAwMDAwMDAwMDAwMDAwMDAwMDAwMDAwMDAwMDAwMDAw" +:+
  "MDAwMDAwMDAwMDAwMDAwMDAwMDAwMDAwMDAwMDAwMDAwMDAwMDAwMDAwMDAwMDAw" +:+
  "MDAwMDAwMDAwMDAwMDAwMDAwMDAwMDAwMDAwMDAwMDAwMDAwMDAwMDAwMDAwMDAw" +:+
  "MDAwMDAwMDAwMDAwMDAwMDAwMDAwMDAwMCBvbiAwNS0wMy0yNA==".

Definition large_amount : float := 0x1.1ccf385ebc8ap+1023.

(** A mailbox of two such messages. *)
Definition large_mailbox : Service :=
  mkService
    (λ query, inl ["m1"; "m2"])
    (λ id, inl (mkMessage id (mkPart "text/plain" (Some (mkBody large_data)) []))).

Definition large_txs : list Transaction :=
  [mkTransaction "2024-03-05" large_amount "Transaction from HTML email";
   mkTransaction "2024-03-05" large_amount "Transaction from HTML email"].

Definition large_calls (days : Z) : list Call :=
  [ListCall (query_for (GoTime.mkTime 2024 3 6) days); GetCall "m1"; GetCall "m2"].

(** The bytes the reference codec writes for a response. *)
Definition marshalled (response : TransactionsResponse) : string :=
  match json_ref.Marshal (response_value response) with
  | inl data => data
  | inr _ => ""
  end.

(** A request to refresh, with a token. *)
Definition refreshing : Request := post [("access_token", "ya29.token")].

End HttpMore.

(* ===================================================================== *)
(** * Part II. Properties                                                  *)
(* ===================================================================== *)

(* --------------------------------------------------------------------- *)
(** ** Facts about the [time] model *)

Section TimeFacts.
Import GoTime SummarySpec.

Lemma isDigit_inv (c : ascii) :
  isDigit c = true → 0 ≤ digit_val c ≤ 9 ∧ digit_char (digit_val c) = c.
Proof.
  destruct c as [[] [] [] [] [] [] [] []]; vm_compute; intros H; try discriminate H;
    (split; [split; discriminate|reflexivity]).
Qed.

Lemma isDigit_digit_char (d : Z) :
  0 ≤ d ≤ 9 → isDigit (digit_char d) = true ∧ digit_val (digit_char d) = d.
Proof.
  intros H.
  assert (d = 0 ∨ d = 1 ∨ d = 2 ∨ d = 3 ∨ d = 4 ∨ d = 5 ∨ d = 6 ∨ d = 7 ∨ d = 8 ∨ d = 9)
    as Hd by lia.
  repeat destruct Hd as [->|Hd]; try subst d; by vm_compute.
Qed.

Lemma forall_below10 (f : Z → bool) :
  forallb f below10 = true → ∀ x, 0 ≤ x ≤ 9 → f x = true.
Proof.
  intros Hall x Hx. rewrite forallb_forall in Hall.
  apply Hall. apply list_elem_of_In. unfold below10. apply elem_of_seqZ. lia.
Qed.

Lemma pad_digits2 (a b : Z) :
  0 ≤ a ≤ 9 → 0 ≤ b ≤ 9 → pad_digits 2 (a * 10 + b) = digits2 a b.
Proof.
  intros Ha Hb. apply String.eqb_eq.
  revert b Hb. apply forall_below10. revert a Ha. apply forall_below10.
  by vm_compute.
Qed.

Lemma pad_digits4 (a b c d : Z) :
  0 ≤ a ≤ 9 → 0 ≤ b ≤ 9 → 0 ≤ c ≤ 9 → 0 ≤ d ≤ 9 →
  pad_digits 4 (((a * 10 + b) * 10 + c) * 10 + d) = digits4 a b c d.
Proof.
  intros Ha Hb Hc Hd. apply String.eqb_eq.
  revert d Hd. apply forall_below10. revert c Hc. apply forall_below10.
  revert b Hb. apply forall_below10. revert a Ha. apply forall_below10.
  by vm_compute.
Qed.

Lemma getnum2_inv (s : string) (n : Z) (rest : string) :
  getnum2 s = Some (n, rest) →
  ∃ a b, s = String a (String b rest) ∧ isDigit a = true ∧ isDigit b = true ∧ n = val2 a b.
Proof.
  unfold getnum2. destruct s as [|a [|b s]]; try discriminate.
  destruct (isDigit a) eqn:Ha, (isDigit b) eqn:Hb; simpl; try discriminate.
  intros [= <- <-]. by exists a, b.
Qed.

Lemma getnum2_digits (a b : ascii) (rest : string) :
  isDigit a = true → isDigit b = true →
  getnum2 (String a (String b rest)) = Some (val2 a b, rest).
Proof. intros Ha Hb. unfold getnum2. by rewrite Ha, Hb. Qed.

Lemma atoi_digits4 (a b c d : ascii) :
  isDigit a = true →
  atoi (String a (String b (String c (String d "")))) =
  if isDigit b && isDigit c && isDigit d then Some (val4 a b c d) else None.
Proof.
  intros Ha. unfold atoi.
  destruct (Ascii.eqb_spec a "-") as [->|_]; [by vm_compute in Ha|].
  destruct (Ascii.eqb_spec a "+") as [->|_]; [by vm_compute in Ha|].
  simpl. rewrite Ha.
  destruct (isDigit b); [|done]. destruct (isDigit c); [|done].
  destruct (isDigit d); [|done]. simpl. unfold val4. f_equal; lia.
Qed.

Lemma longYear_inv (f f' : fields) (v rest : string) :
  parse_chunk stdLongYear f v = chunk_ok f' rest →
  ∃ a b c d, v = String a (String b (String c (String d rest)))
    ∧ isDigit a = true ∧ isDigit b = true ∧ isDigit c = true ∧ isDigit d = true
    ∧ f' = mkFields (val4 a b c d) (f_month f) (f_day f).
Proof.
  unfold parse_chunk.
  destruct v as [|a [|b [|c [|d v]]]].
  1-4: by (simpl String.length; cbn).
  destruct (4 <=? _); [|done].
  cbn [String.get default string_take string_drop andb from_option id].
    destruct (isDigit a) eqn:Ha; [|done].
    rewrite atoi_digits4 by done.
    destruct (isDigit b) eqn:Hb; [|done]. destruct (isDigit c) eqn:Hc; [|done].
    destruct (isDigit d) eqn:Hd; [|done]. simpl.
    intros [= <- <-]. by exists a, b, c, d.
Qed.

Lemma longYear_digits (f : fields) (a b c d : ascii) (rest : string) :
  isDigit a = true → isDigit b = true → isDigit c = true → isDigit d = true →
  parse_chunk stdLongYear f (String a (String b (String c (String d rest))))
  = chunk_ok (mkFields (val4 a b c d) (f_month f) (f_day f)) rest.
Proof.
  intros Ha Hb Hc Hd. unfold parse_chunk.
  replace (4 <=? Z.of_nat (String.length (String a (String b (String c (String d rest))))))
    with true by (simpl String.length; symmetry; apply Z.leb_le; lia).
  cbn [String.get default string_take string_drop andb from_option id].
  rewrite Ha. rewrite atoi_digits4 by done. by rewrite Hb, Hc, Hd.
Qed.

Lemma lit_dash_inv (f f' : fields) (v rest : string) (c : ascii) :
  parse_chunk (lit (String c "")) f v = chunk_ok f' rest → v = String c rest ∧ f' = f.
Proof.
  unfold parse_chunk. destruct v as [|b v]; simpl; [done|].
  destruct (Ascii.eqb_spec c b) as [->|]; [|done]. by intros [= -> ->].
Qed.

Lemma val2_range a b : isDigit a = true → isDigit b = true → 0 ≤ val2 a b ≤ 99.
Proof. intros [? _]%isDigit_inv [? _]%isDigit_inv. unfold val2. lia. Qed.
Lemma val4_range a b c d :
  isDigit a = true → isDigit b = true → isDigit c = true → isDigit d = true →
  0 ≤ val4 a b c d ≤ 9999.
Proof.
  intros [? _]%isDigit_inv [? _]%isDigit_inv [? _]%isDigit_inv [? _]%isDigit_inv.
  unfold val4. lia.
Qed.

Lemma Parse_ISO_inv (s : string) (t : Time) :
  Parse layoutISO s = inl t →
  ∃ y1 y2 y3 y4 m1 m2 d1 d2,
    s = iso_string y1 y2 y3 y4 m1 m2 d1 d2
    ∧ Forall (λ c, isDigit c = true) [y1; y2; y3; y4; m1; m2; d1; d2]
    ∧ t = mkTime (val4 y1 y2 y3 y4) (val2 m1 m2) (val2 d1 d2)
    ∧ valid_date t.
Proof.
  unfold Parse, layoutISO. cbn [parse_loop].
  destruct (parse_chunk stdLongYear _ s) as [f1 r1| |] eqn:H1; try done.
  apply longYear_inv in H1 as (y1 & y2 & y3 & y4 & -> & Hy1 & Hy2 & Hy3 & Hy4 & ->).
  destruct (parse_chunk (lit "-") _ r1) as [f2 r2| |] eqn:H2; try done.
  apply lit_dash_inv in H2 as [-> ->].
  destruct (parse_chunk stdZeroMonth _ r2) as [f3 r3| |] eqn:H3; try done.
  unfold parse_chunk in H3.
  destruct (getnum2 r2) as [[m r]|] eqn:Hm; [|done].
  apply getnum2_inv in Hm as (m1 & m2 & -> & Hm1 & Hm2 & ->).
  destruct ((val2 m1 m2 <=? 0) || (12 <? val2 m1 m2)) eqn:Hrange; [done|].
  injection H3 as <- <-.
  destruct (parse_chunk (lit "-") _ r) as [f4 r4| |] eqn:H4; try done.
  apply lit_dash_inv in H4 as [-> ->].
  destruct (parse_chunk stdZeroDay _ r4) as [f5 r5| |] eqn:H5; try done.
  unfold parse_chunk in H5.
  destruct (getnum2 r4) as [[d r']|] eqn:Hd; [|done].
  apply getnum2_inv in Hd as (d1 & d2 & -> & Hd1 & Hd2 & ->).
  injection H5 as <- <-.
  case_decide as Hr; [subst r'|done]. cbn [f_year f_month f_day].
  pose proof (val2_range _ _ Hm1 Hm2). pose proof (val2_range _ _ Hd1 Hd2).
  pose proof (val4_range _ _ _ _ Hy1 Hy2 Hy3 Hy4).
  apply orb_false_iff in Hrange as [Hlo%Z.leb_gt Hhi%Z.ltb_ge].
  destruct (val2 m1 m2 <? 0) eqn:Hneg; [apply Z.ltb_lt in Hneg; lia|].
  destruct (val2 d1 d2 <? 0) eqn:Hneg'; [apply Z.ltb_lt in Hneg'; lia|].
  destruct ((val2 d1 d2 <? 1) || _) eqn:Hday; [done|].
  apply orb_false_iff in Hday as [Hdlo%Z.ltb_ge Hdhi%Z.ltb_ge].
  intros [= <-]. exists y1, y2, y3, y4, m1, m2, d1, d2.
  split; [done|]. split; [by repeat constructor|]. split; [done|].
  unfold valid_date; simpl. lia.
Qed.

Lemma Format_ISO_digits (y1 y2 y3 y4 m1 m2 d1 d2 : ascii) :
  Forall (λ c, isDigit c = true) [y1; y2; y3; y4; m1; m2; d1; d2] →
  Format (mkTime (val4 y1 y2 y3 y4) (val2 m1 m2) (val2 d1 d2)) layoutISO
  = iso_string y1 y2 y3 y4 m1 m2 d1 d2.
Proof.
  intros H. repeat (apply Forall_cons in H as [?%isDigit_inv H]).
  unfold Format, layoutISO, iso_string. cbn [fold_right format_chunk year month day].
  unfold appendInt, val4, val2.
  destruct (_ <? 0) eqn:Hneg; [apply Z.ltb_lt in Hneg; lia|].
  rewrite pad_digits4, !pad_digits2 by tauto.
  unfold digits4, digits2. cbn.
  repeat match goal with H : _ ∧ digit_char _ = _ |- _ => destruct H as [_ ->] end.
  reflexivity.
Qed.

Lemma Parse_ISO_digits (y1 y2 y3 y4 m1 m2 d1 d2 : ascii) :
  Forall (λ c, isDigit c = true) [y1; y2; y3; y4; m1; m2; d1; d2] →
  valid_date (mkTime (val4 y1 y2 y3 y4) (val2 m1 m2) (val2 d1 d2)) →
  Parse layoutISO (iso_string y1 y2 y3 y4 m1 m2 d1 d2)
  = inl (mkTime (val4 y1 y2 y3 y4) (val2 m1 m2) (val2 d1 d2)).
Proof.
  intros H (Hy & Hm & Hd). simpl in Hy, Hm, Hd.
  repeat (apply Forall_cons in H as [? H]).
  unfold Parse, layoutISO, iso_string. cbn [parse_loop].
  rewrite longYear_digits by done.
  cbn [parse_chunk skip_literal]. rewrite Ascii.eqb_refl.
  rewrite getnum2_digits by done. cbn [f_year f_month f_day].
  replace ((val2 m1 m2 <=? 0) || (12 <? val2 m1 m2)) with false
    by (symmetry; apply orb_false_iff; split; [apply Z.leb_gt|apply Z.ltb_ge]; lia).
  cbn [skip_literal]. rewrite Ascii.eqb_refl.
  rewrite getnum2_digits by done. cbn [f_year f_month f_day].
  case_decide; [|done].
  replace (val2 m1 m2 <? 0) with false by (symmetry; apply Z.ltb_ge; lia).
  replace (val2 d1 d2 <? 0) with false by (symmetry; apply Z.ltb_ge; lia).
  replace ((val2 d1 d2 <? 1) || (daysIn (val2 m1 m2) (val4 y1 y2 y3 y4) <? val2 d1 d2))
    with false
    by (symmetry; apply orb_false_iff; split; apply Z.ltb_ge; lia).
  reflexivity.
Qed.

Lemma digits_of_2 (n : Z) :
  0 ≤ n ≤ 99 → ∃ a b, isDigit a = true ∧ isDigit b = true ∧ n = val2 a b.
Proof.
  intros Hn. exists (digit_char (n / 10)), (digit_char (n mod 10)).
  destruct (isDigit_digit_char (n / 10)) as [-> E1]; [zdiv|].
  destruct (isDigit_digit_char (n mod 10)) as [-> E2]; [zdiv|].
  unfold val2. rewrite E1, E2. repeat split. zdiv.
Qed.

Lemma digits_of_4 (n : Z) :
  0 ≤ n ≤ 9999 →
  ∃ a b c d, Forall (λ c, isDigit c = true) [a; b; c; d] ∧ n = val4 a b c d.
Proof.
  intros Hn.
  exists (digit_char (n / 1000)), (digit_char (n / 100 mod 10)),
         (digit_char (n / 10 mod 10)), (digit_char (n mod 10)).
  destruct (isDigit_digit_char (n / 1000)) as [H1 E1]; [zdiv|].
  destruct (isDigit_digit_char (n / 100 mod 10)) as [H2 E2]; [zdiv|].
  destruct (isDigit_digit_char (n / 10 mod 10)) as [H3 E3]; [zdiv|].
  destruct (isDigit_digit_char (n mod 10)) as [H4 E4]; [zdiv|].
  split; [by repeat constructor|].
  unfold val4. rewrite E1, E2, E3, E4. zdiv.
Qed.

Lemma daysIn_le_31 (m y : Z) : daysIn m y ≤ 31.
Proof. unfold daysIn. repeat case_match; lia. Qed.

(** [Format] undoes a successful [Parse] ... *)
Lemma Format_Parse_ISO (s : string) (t : Time) :
  Parse layoutISO s = inl t → Format t layoutISO = s ∧ valid_date t.
Proof.
  intros (y1 & y2 & y3 & y4 & m1 & m2 & d1 & d2 & -> & Hdig & -> & Hv)%Parse_ISO_inv.
  split; [by apply Format_ISO_digits|done].
Qed.

(** ... and [Parse] reads back what [Format] writes for a calendar date. *)
Lemma Parse_Format_ISO (t : Time) :
  valid_date t → Parse layoutISO (Format t layoutISO) = inl t.
Proof.
  intros Hv. destruct t as [y m d]. destruct Hv as (Hy & Hm & Hd).
  cbn [year month day] in Hy, Hm, Hd.
  pose proof (daysIn_le_31 m y).
  destruct (digits_of_4 y) as (y1 & y2 & y3 & y4 & Hdy & ->); [done|].
  destruct (digits_of_2 m) as (m1 & m2 & ? & ? & ->); [lia|].
  destruct (digits_of_2 d) as (d1 & d2 & ? & ? & ->); [lia|].
  assert (Forall (λ c, isDigit c = true) [y1; y2; y3; y4; m1; m2; d1; d2]) as Hall.
  { repeat (apply Forall_cons in Hdy as [? Hdy]). by repeat constructor. }
  rewrite Format_ISO_digits by done. apply Parse_ISO_digits; [done|].
  unfold valid_date; cbn [year month day]; lia.
Qed.

Lemma Parse_ISO_iff (s : string) (t : Time) :
  valid_date t → Parse layoutISO s = inl t ↔ s = Format t layoutISO.
Proof.
  intros Hv. split.
  - by intros [-> _]%Format_Parse_ISO.
  - intros ->. by apply Parse_Format_ISO.
Qed.

(** The month key is the YYYY-MM prefix of the date. *)
Lemma Format_month_prefix (s : string) (t : Time) :
  Parse layoutISO s = inl t → Format t layoutMonth = string_take 7 s.
Proof.
  intros (y1 & y2 & y3 & y4 & m1 & m2 & d1 & d2 & -> & Hdig & -> & Hv)%Parse_ISO_inv.
  pose proof (Format_ISO_digits _ _ _ _ _ _ _ _ Hdig) as HF.
  unfold Format, layoutISO, layoutMonth, iso_string in *.
  cbn [fold_right format_chunk year month day] in *.
  apply (f_equal (string_take 7)) in HF.
  rewrite <- HF. clear HF.
  repeat (apply Forall_cons in Hdig as [?%isDigit_inv Hdig]).
  unfold appendInt, val4, val2.
  destruct (_ <? 0) eqn:Hneg; [apply Z.ltb_lt in Hneg; lia|].
  rewrite pad_digits4, !pad_digits2 by tauto. reflexivity.
Qed.

Lemma not_after_refl t : not_after t t.
Proof. destruct t. after_cases. Qed.

Lemma not_after_trans t u v : not_after t u → not_after u v → not_after t v.
Proof. destruct t, u, v. intros H1 H2. after_cases. Qed.

Lemma not_after_antisym t u : not_after t u → not_after u t → t = u.
Proof. destruct t, u. intros H1 H2. after_cases; f_equal; lia. Qed.

Lemma After_not_after t u : After t u = true → not_after u t.
Proof. destruct t, u. intros H. after_cases. Qed.

Lemma pred_day_valid (t : Time) :
  valid_date t → After t zero = true → valid_date (pred_day t).
Proof.
  destruct t as [y m d]. unfold valid_date, pred_day. cbn [year month day].
  intros (Hy & Hm & Hd) Haft.
  assert (1 ≤ y).
  { unfold zero in Haft. after_cases. }
  destruct (Z.ltb_spec 1 d); cbn [year month day].
  - lia.
  - destruct (Z.ltb_spec 1 m); cbn [year month day].
    + split; [lia|]. split; [lia|]. split; [|lia].
      unfold daysIn. repeat case_match; lia.
    + split; [lia|]. split; [lia|]. by vm_compute.
Qed.


End TimeFacts.

(* --------------------------------------------------------------------- *)
(** ** The summarizer *)

Section Summarizer.
Import types GoTime main SummarySpec.

Lemma fold_amounts_sum (txs : list Transaction) (acc : float) :
  fold_left (fun total t => PrimFloat.add total (Amount t)) txs acc
  = float_sum_from acc (Amount <$> txs).
Proof.
  revert acc. induction txs as [|t txs IH]; intros acc; simpl; [reflexivity|].
  apply IH.
Qed.

(** C9. For a period other than "daily", "weekly" and "monthly" (so also
    for "all"), and for every transaction list, [calculateSummary] returns
    no error: Total is the sum of all amounts, Previously and
    ChangePercentage are 0. *)
Theorem calculateSummary_default (txs : list Transaction) (period : string) :
  period ≠ "daily" → period ≠ "weekly" → period ≠ "monthly" →
  calculateSummary txs period
  = inl (mkSummary (float_sum (Amount <$> txs)) 0%float 0%float).
Proof.
  intros Hd Hw Hm. unfold calculateSummary.
  repeat (case_decide; [congruence|]).
  by rewrite fold_amounts_sum.
Qed.

Lemma calculateSummary_default_witness :
  "all" ≠ "daily" ∧ "all" ≠ "weekly" ∧ "all" ≠ "monthly"
  ∧ calculateSummary sparse_months "all" = inl (mkSummary 113.5%float 0%float 0%float)
  ∧ calculateSummary [] "all" = inl (mkSummary 0%float 0%float 0%float)
  ∧ calculateSummary [txn "n/a" 2%float] "yearly" = inl (mkSummary 2%float 0%float 0%float).
Proof.
  split; [discriminate|]. split; [discriminate|]. split; [discriminate|].
  split; [|split].
  - exact (calculateSummary_default sparse_months "all"
             ltac:(discriminate) ltac:(discriminate) ltac:(discriminate)).
  - exact (calculateSummary_default [] "all"
             ltac:(discriminate) ltac:(discriminate) ltac:(discriminate)).
  - exact (calculateSummary_default [txn "n/a" 2%float] "yearly"
             ltac:(discriminate) ltac:(discriminate) ltac:(discriminate)).
Defined.

(** *** Grouped accumulation *)

Lemma group_fold_lookup {A} (key : A → option string) (val : A → float)
    (l : list A) (m : gmap string float) (k : string) :
  map_at (fold_left (group_step key val) l m) k
  = float_sum_from (map_at m k) (group_vals key val k l).
Proof.
  revert m. induction l as [|x l IH]; intros m; [reflexivity|].
  simpl. rewrite IH. unfold group_vals. rewrite filter_cons.
  unfold group_step at 1. destruct (key x) as [k'|] eqn:Hk.
  - case_decide as Heq.
    + inversion Heq; subst k'. simpl. f_equal.
      unfold map_add, map_at. by rewrite lookup_insert_eq.
    + f_equal. unfold map_add, map_at. rewrite lookup_insert_ne; [done|congruence].
  - case_decide; [congruence|]. done.
Qed.

Lemma group_fold_dom {A} (key : A → option string) (val : A → float)
    (l : list A) (m : gmap string float) (k : string) :
  is_Some (fold_left (group_step key val) l m !! k)
  ↔ is_Some (m !! k) ∨ ∃ x, x ∈ l ∧ key x = Some k.
Proof.
  revert m. induction l as [|x l IH]; intros m; simpl.
  - split; [by left|]. intros [?|(x & Hx & _)]; [done|]. by apply elem_of_nil in Hx.
  - rewrite IH. unfold group_step at 1. destruct (key x) as [k'|] eqn:Hk.
    + unfold map_add. destruct (decide (k' = k)) as [->|Hne].
      * rewrite lookup_insert_eq. split; [|eauto].
        intros _. right. exists x. split; [left|done].
      * rewrite lookup_insert_ne by done. split.
        -- intros [?|(y & Hy & Hky)]; [by left|]. right. exists y. split; [by right|done].
        -- intros [?|(y & Hy & Hky)]; [by left|].
           apply elem_of_cons in Hy as [->|Hy]; [congruence|]. right. eauto.
    + split.
      * intros [?|(y & Hy & Hky)]; [by left|]. right. exists y. split; [by right|done].
      * intros [?|(y & Hy & Hky)]; [by left|].
        apply elem_of_cons in Hy as [->|Hy]; [congruence|]. right. eauto.
Qed.

(** *** The "monthly" branch *)

Lemma monthly_step_group (m : gmap string float) (t : Transaction) :
  monthly_step m t = group_step monthKey Amount m t.
Proof. unfold monthly_step, group_step, monthKey. by destruct (Parse _ _). Qed.

Lemma monthly_fold_group (txs : list Transaction) (m : gmap string float) :
  fold_left monthly_step txs m = fold_left (group_step monthKey Amount) txs m.
Proof.
  revert m. induction txs as [|t txs IH]; intros m; [done|].
  simpl. by rewrite monthly_step_group, IH.
Qed.

Lemma elem_of_map_keys (m : gmap string float) (k : string) :
  k ∈ map_keys m ↔ is_Some (m !! k).
Proof.
  unfold map_keys. rewrite list_elem_of_fmap. split.
  - intros ([k' v] & -> & Hin). apply elem_of_map_to_list in Hin. by exists v.
  - intros [v Hv]. exists (k, v). split; [done|]. by apply elem_of_map_to_list.
Qed.

Lemma NoDup_map_keys (m : gmap string float) : NoDup (map_keys m).
Proof. apply NoDup_fst_map_to_list. Qed.

(** Whatever order the map yields its keys in, sorting gives one list. *)
Lemma sort_Strings_order_independent (l1 l2 : list string) :
  l1 ≡ₚ l2 → sort_Strings l1 = sort_Strings l2.
Proof.
  intros Hp. apply (Sorted_unique String.le).
  - apply (Sorted_merge_sort _).
  - apply (Sorted_merge_sort _).
  - unfold sort_Strings. by rewrite !merge_sort_Permutation.
Qed.

(** The greatest element of a sorted list without repeats is its last
    one, the second greatest its last but one. *)
Lemma sorted_last_two (l : list string) (k1 k2 : string) :
  Sorted String.le l → NoDup l →
  k1 ∈ l → (∀ k, k ∈ l → String.le k k1) →
  k2 ∈ l → k2 ≠ k1 → (∀ k, k ∈ l → k ≠ k1 → String.le k k2) →
  ∃ l', l = l' ++ [k2; k1].
Proof.
  intros Hs Hnd Hk1 Hmax Hk2 Hne Hsec.
  apply (Sorted_StronglySorted _) in Hs.
  destruct (decide (l = [])) as [->|Hnil]; [by apply elem_of_nil in Hk1|].
  destruct (exists_last Hnil) as (l1 & x & ->).
  apply StronglySorted_app in Hs as (Hle1 & Hs1 & _).
  assert (x = k1) as ->.
  { apply (anti_symm String.le).
    - apply Hmax. apply elem_of_app. right. by apply list_elem_of_singleton.
    - apply elem_of_app in Hk1 as [Hk1|Hk1].
      + apply (Hle1 k1 x); [done|]. by apply list_elem_of_singleton.
      + apply list_elem_of_singleton in Hk1. by subst. }
  apply NoDup_app in Hnd as (Hnd1 & Hdisj & _).
  assert (k2 ∈ l1) as Hk2'.
  { apply elem_of_app in Hk2 as [?|Hk2]; [done|]. apply list_elem_of_singleton in Hk2. done. }
  destruct (decide (l1 = [])) as [->|Hnil1]; [by apply elem_of_nil in Hk2'|].
  destruct (exists_last Hnil1) as (l2 & y & ->).
  apply StronglySorted_app in Hs1 as (Hle2 & _ & _).
  assert (y = k2) as ->.
  { apply (anti_symm String.le).
    - apply Hsec.
      + apply elem_of_app. left. apply elem_of_app. right. by apply list_elem_of_singleton.
      + intros ->. apply (Hdisj k1); [|by apply list_elem_of_singleton].
        apply elem_of_app. right. by apply list_elem_of_singleton.
    - apply elem_of_app in Hk2' as [Hk2'|Hk2'].
      + apply (Hle2 k2 y); [done|]. by apply list_elem_of_singleton.
      + apply list_elem_of_singleton in Hk2'. by subst. }
  exists l2. by rewrite <- app_assoc.
Qed.

Lemma lookup_last_two {A} (l : list A) (a b : A) :
  (l ++ [a; b]) !! (length (l ++ [a; b]) - 1)%nat = Some b.
Proof.
  rewrite length_app. simpl. rewrite lookup_app_r by lia.
  by replace (length l + 2 - 1 - length l)%nat with 1%nat by lia.
Qed.

Lemma lookup_last_but_one {A} (l : list A) (a b : A) :
  (l ++ [a; b]) !! (length (l ++ [a; b]) - 2)%nat = Some a.
Proof.
  rewrite length_app. simpl. rewrite lookup_app_r by lia.
  by replace (length l + 2 - 2 - length l)%nat with 0%nat by lia.
Qed.

Lemma Format_month_nonempty (t : Time) : Format t layoutMonth ≠ "".
Proof.
  unfold Format, layoutMonth. simpl.
  destruct (appendInt (year t) 4); simpl; discriminate.
Qed.

(** The month key of a transaction is the YYYY-MM prefix of its date. *)
Lemma monthKey_prefix (t : Transaction) (k : string) :
  monthKey t = Some k → k = string_take 7 (Date t).
Proof.
  unfold monthKey. destruct (Parse layoutISO (Date t)) eqn:Hp; [|done].
  intros [= <-]. by apply Format_month_prefix.
Qed.

(** C3. With period "monthly" the amounts are grouped by the YYYY-MM key
    of their date; Total is the total of the greatest key present in the
    bytewise (lexicographic) order of the keys and Previously the total of
    the second greatest key present, whether or not the two months are
    adjacent in the calendar. *)
Theorem monthly_two_latest_present (txs : list Transaction) (k1 k2 : string) :
  greatest_month txs k1 → second_greatest_month txs k2 k1 →
  calculateSummary txs "monthly"
  = inl (mkSummary (monthTotal txs k1) (monthTotal txs k2)
           (change_of (monthTotal txs k1) (monthTotal txs k2))).
Proof.
  intros [Hp1 Hmax] (Hp2 & Hne & Hsec).
  unfold calculateSummary.
  do 2 (case_decide; [discriminate|]). case_decide; [|done].
  rewrite monthly_fold_group.
  set (m := fold_left (group_step monthKey Amount) txs ∅).
  assert (Hdom : ∀ k, k ∈ map_keys m ↔ month_present txs k).
  { intros k. rewrite elem_of_map_keys. unfold m. rewrite group_fold_dom.
    rewrite lookup_empty. split; [intros [[? ?]|?]; done|by right]. }
  assert (Hat : ∀ k, map_at m k = monthTotal txs k).
  { intros k. unfold m. by rewrite group_fold_lookup. }
  assert (Hperm : sort_Strings (map_keys m) ≡ₚ map_keys m)
    by apply merge_sort_Permutation.
  assert (Hin : ∀ k, k ∈ sort_Strings (map_keys m) ↔ month_present txs k).
  { intros k. by rewrite Hperm, Hdom. }
  destruct (sorted_last_two (sort_Strings (map_keys m)) k1 k2) as [l' Hl'].
  - apply (Sorted_merge_sort _).
  - rewrite Hperm. apply NoDup_map_keys.
  - by apply Hin.
  - intros k Hk. apply Hmax. by apply Hin.
  - by apply Hin.
  - done.
  - intros k Hk. apply Hsec. by apply Hin.
  - case_decide as Hlen.
    { apply Hdom in Hp1. destruct (map_keys m); [by apply elem_of_nil in Hp1|done]. }
    rewrite Hl'. rewrite (lookup_last_two l' k2 k1), (lookup_last_but_one l' k2 k1).
    assert (2 ≤ length (l' ++ [k2; k1]))%nat by (rewrite length_app; simpl; lia).
    destruct (decide (2 ≤ length (l' ++ [k2; k1]))%nat) as [_|?]; [|lia].
    simpl. case_decide as Hk2.
    + by rewrite !Hat.
    + exfalso. subst k2.
      destruct Hp2 as (t & _ & Hk). unfold monthKey in Hk.
      destruct (Parse layoutISO (Date t)); [|done].
      inversion Hk as [Hf]. by apply Format_month_nonempty in Hf.
Qed.

Lemma sparse_months_present (k : string) :
  month_present sparse_months k → k = "2024-01" ∨ k = "2024-03".
Proof.
  intros (t & Ht & Hk). unfold sparse_months in Ht.
  repeat (apply elem_of_cons in Ht as [->|Ht]); [..|by apply elem_of_nil in Ht];
    vm_compute in Hk; try discriminate Hk; injection Hk as <-; auto.
Qed.

(** Transactions only in 2024-01 and 2024-03: March is compared with
    January, not with the empty February. *)
Lemma monthly_two_latest_present_witness :
  greatest_month sparse_months "2024-03"
  ∧ second_greatest_month sparse_months "2024-01" "2024-03"
  ∧ calculateSummary sparse_months "monthly"
    = inl (mkSummary 8.5%float 5%float 70%float).
Proof.
  assert (month_present sparse_months "2024-03") as H3.
  { exists (txn "2024-03-01" 7%float). split; [|done]. right. by left. }
  assert (month_present sparse_months "2024-01") as H1.
  { exists (txn "2024-01-10" 5%float). split; [|done]. by left. }
  assert (greatest_month sparse_months "2024-03") as Hg.
  { split; [done|]. intros k [->| ->]%sparse_months_present; by vm_compute. }
  assert (second_greatest_month sparse_months "2024-01" "2024-03") as Hs.
  { split; [done|]. split; [discriminate|].
    intros k [->| ->]%sparse_months_present Hne; [by vm_compute|done]. }
  split; [done|]. split; [done|].
  exact (monthly_two_latest_present sparse_months "2024-03" "2024-01" Hg Hs).
Defined.

(** *** The "daily" branch *)

Lemma later_spec (m t : Time) :
  not_after m (later m t) ∧ not_after t (later m t) ∧ (later m t = m ∨ later m t = t).
Proof.
  unfold later. destruct (After t m) eqn:H.
  - split; [by apply After_not_after|]. split; [apply not_after_refl|by right].
  - split; [apply not_after_refl|]. split; [done|by left].
Qed.

Lemma daily_fold_split (txs : list Transaction) (m : Time) (tot : gmap string float) :
  fold_left daily_step txs (m, tot)
  = (fold_left later (omap dateOf txs) m,
     fold_left (group_step dailyKey Amount) txs tot).
Proof.
  revert m tot. induction txs as [|x txs IH]; intros m tot; [done|].
  cbn [fold_left omap].
  assert (daily_step (m, tot) x
          = (from_option (later m) m (dateOf x), group_step dailyKey Amount tot x)) as ->.
  { unfold daily_step, group_step, dailyKey, dateOf, later.
    by destruct (Parse layoutISO (Date x)). }
  rewrite IH. f_equal. cbn [omap list_omap]. by destruct (dateOf x).
Qed.

Lemma fold_later_spec (ds : list Time) (m : Time) :
  let r := fold_left later ds m in
  not_after m r ∧ (∀ d, d ∈ ds → not_after d r) ∧ (r = m ∨ r ∈ ds).
Proof.
  revert m. induction ds as [|d ds IH]; intros m; cbn [fold_left].
  - split; [apply not_after_refl|]. split; [|by left].
    intros d Hd. by apply elem_of_nil in Hd.
  - destruct (IH (later m d)) as (H1 & H2 & H3).
    destruct (later_spec m d) as (L1 & L2 & L3).
    split; [by eapply not_after_trans|]. split.
    + intros d' [->|Hd']%elem_of_cons; [by eapply not_after_trans|by apply H2].
    + destruct H3 as [->|H3]; [|right; by right].
      destruct L3 as [->| ->]; [by left|right; by left].
Qed.

Lemma elem_of_omap_dateOf (txs : list Transaction) (d : Time) :
  d ∈ omap dateOf txs ↔ ∃ t, t ∈ txs ∧ Parse layoutISO (Date t) = inl d.
Proof.
  rewrite list_elem_of_omap. unfold dateOf. split.
  - intros (t & Ht & Hd). exists t. split; [done|].
    destruct (Parse layoutISO (Date t)); congruence.
  - intros (t & Ht & Hd). exists t. split; [done|]. by rewrite Hd.
Qed.

Lemma daily_totals_at (txs : list Transaction) (d : Time) :
  valid_date d →
  map_at (fold_left (group_step dailyKey Amount) txs ∅) (Format d layoutISO)
  = dayTotal txs d.
Proof.
  intros Hv. rewrite group_fold_lookup. unfold dayTotal, float_sum, group_vals.
  f_equal. f_equal. apply list_filter_iff. intros t. unfold dailyKey.
  destruct (Parse layoutISO (Date t)) as [d'|e] eqn:Hp.
  - split.
    + intros Heq%(inj Some). rewrite Heq in Hp. rewrite Parse_Format_ISO in Hp by done. done.
    + intros [= ->]. f_equal. by apply Format_Parse_ISO in Hp as [-> _].
  - split; [done|]. intros [=].
Qed.

(** The date the "daily" loop ends with: the latest date present, when one
    is later than the zero time. *)
Lemma daily_maxDate (txs : list Transaction) (latest : Time) :
  latest_date txs latest → After latest zero = true →
  fold_left later (omap dateOf txs) zero = latest.
Proof.
  intros [(t0 & Ht0 & Hp0) Hmax] Hafter.
  destruct (fold_later_spec (omap dateOf txs) zero) as (Hz & Hall & Hin).
  set (r := fold_left later (omap dateOf txs) zero) in *.
  apply not_after_antisym.
  - destruct Hin as [Hr|Hr].
    + exfalso. assert (not_after latest zero) as Hc.
      { rewrite <- Hr. apply Hall. apply elem_of_omap_dateOf. eauto. }
      unfold not_after in Hc. congruence.
    + apply elem_of_omap_dateOf in Hr as (t & Ht & Hp). by eapply Hmax.
  - apply Hall. apply elem_of_omap_dateOf. eauto.
Qed.

(** C4, as the code has it. When the latest date present is later than
    0001-01-01 (the zero [time.Time], which the loop starts from and the
    guard [maxDate.IsZero()] rejects), period "daily" returns the total of
    the latest date as Total and the total of the calendar day before it as
    Previously, and ChangePercentage is 0 whenever that previous total is
    0, whatever the current total. *)
Theorem daily_latest_vs_day_before (txs : list Transaction) (latest : Time) :
  latest_date txs latest → After latest zero = true →
  calculateSummary txs "daily"
  = inl (mkSummary (dayTotal txs latest) (dayTotal txs (pred_day latest))
           (change_of (dayTotal txs latest) (dayTotal txs (pred_day latest))))
  ∧ (PrimFloat.eqb (dayTotal txs (pred_day latest)) 0%float = true →
     change_of (dayTotal txs latest) (dayTotal txs (pred_day latest)) = 0%float).
Proof.
  intros Hlatest Hafter. split.
  - unfold calculateSummary. case_decide; [|done].
    rewrite daily_fold_split, (daily_maxDate txs latest) by done.
    destruct Hlatest as [(t0 & Ht0 & Hp0) _].
    destruct (IsZero latest) eqn:Hzero.
    { exfalso. destruct latest as [y m d]. unfold IsZero, zero in *. after_cases. }
    pose proof (Format_Parse_ISO _ _ Hp0) as [_ Hv].
    replace (AddDays latest (-1)) with (pred_day latest) by reflexivity.
    by rewrite !daily_totals_at by auto using pred_day_valid.
  - intros Hprev. unfold change_of, nonzero. by rewrite Hprev.
Qed.

Lemma early_march_dates (t : Transaction) (d : Time) :
  t ∈ early_march → Parse layoutISO (Date t) = inl d →
  d = mkTime 2024 3 4 ∨ d = mkTime 2024 3 1 ∨ d = mkTime 2024 3 5.
Proof.
  intros Ht Hd. unfold early_march in Ht.
  repeat (apply elem_of_cons in Ht as [->|Ht]); [..|by apply elem_of_nil in Ht];
    vm_compute in Hd; try discriminate Hd; injection Hd as <-; auto.
Qed.

Lemma daily_latest_vs_day_before_witness :
  latest_date early_march (mkTime 2024 3 5)
  ∧ After (mkTime 2024 3 5) zero = true
  ∧ calculateSummary early_march "daily" = inl (mkSummary 1.5%float 5%float (-70)%float)
  ∧ calculateSummary [txn "2024-03-05" 9%float] "daily"
    = inl (mkSummary 9%float 0%float 0%float).
Proof.
  assert (latest_date early_march (mkTime 2024 3 5)) as Hl.
  { split.
    - exists (txn "2024-03-05" 1.5%float). split; [|done]. do 2 right. by left.
    - intros t d' Ht Hd. by destruct (early_march_dates t d' Ht Hd) as [->|[->| ->]]. }
  split; [done|]. split; [done|]. split.
  - exact (proj1 (daily_latest_vs_day_before early_march (mkTime 2024 3 5) Hl eq_refl)).
  - assert (latest_date [txn "2024-03-05" 9%float] (mkTime 2024 3 5)) as Hl1.
    { split.
      - exists (txn "2024-03-05" 9%float). split; [by left|done].
      - intros t d' [->|Ht]%elem_of_cons Hd; [|by apply elem_of_nil in Ht].
        vm_compute in Hd. by injection Hd as <-. }
    exact (proj1 (daily_latest_vs_day_before _ (mkTime 2024 3 5) Hl1 eq_refl)).
Defined.

(** C4 as stated fails: a list whose only parseable date is 0001-01-01
    has a parseable date, and "daily" returns an error for it. *)
Lemma daily_rejects_zero_date :
  (∃ t d, t ∈ [txn "0001-01-01" 5%float] ∧ Parse layoutISO (Date t) = inl d)
  ∧ calculateSummary [txn "0001-01-01" 5%float] "daily"
    = inr "no valid transaction dates found".
Proof.
  split; [|reflexivity].
  exists (txn "0001-01-01" 5%float), zero. split; [by left|reflexivity].
Qed.

End Summarizer.

(* --------------------------------------------------------------------- *)
(** ** The content extractor *)

Section ContentExtractor.
Import gmail services ContentSpec.

(** Induction on a part tree, with the property known of all children. *)
Lemma MessagePart_ind_parts (P : MessagePart → Prop) :
  (∀ mime body parts, Forall P parts → P (mkPart mime body parts)) →
  ∀ part, P part.
Proof.
  intros H. fix IH 1. intros [mime body parts]. apply H.
  induction parts as [|p ps IHps]; constructor; [apply IH|apply IHps].
Qed.

Lemma preorder_unfold (part : MessagePart) :
  preorder part = part :: mjoin (preorder <$> Parts part).
Proof.
  destruct part as [mime body parts]. cbn [preorder Parts]. f_equal.
  induction parts as [|p ps IH]; [done|]. cbn [fmap list_fmap mjoin list_join]. by rewrite IH.
Qed.

Lemma extractMessageContent_unfold (part : MessagePart) :
  extractMessageContent part
  = match own_body part with
    | Some data => data
    | None => range_parts (extractMessageContent <$> Parts part)
    end.
Proof.
  destruct part as [mime body parts]. unfold own_body.
  cbn [extractMessageContent MimeType Body Parts].
  destruct (decide (mime = "text/plain")) as [->|Hp].
  - destruct (decoded_body body); [done|].
    destruct (decide ("text/plain" = "text/html")); [discriminate|].
    induction parts as [|p ps IH]; [done|].
    unfold range_parts. cbn [fmap list_fmap]. rewrite filter_cons.
    destruct (decide (extractMessageContent p ≠ "")); [done|]. apply IH.
  - destruct (decide (mime = "text/html")) as [->|Hh].
    + destruct (decoded_body body); [done|].
      induction parts as [|p ps IH]; [done|].
      unfold range_parts. cbn [fmap list_fmap]. rewrite filter_cons.
      destruct (decide (extractMessageContent p ≠ "")); [done|]. apply IH.
    + induction parts as [|p ps IH]; [done|].
      unfold range_parts. cbn [fmap list_fmap]. rewrite filter_cons.
      destruct (decide (extractMessageContent p ≠ "")); [done|]. apply IH.
Qed.

Lemma head_Some_elem_of {A} (l : list A) (x : A) : head l = Some x → x ∈ l.
Proof. destruct l; [done|]. intros [= ->]. by left. Qed.

Lemma first_body_nonempty (part : MessagePart) (b : string) :
  no_empty_body part → first_body part = Some b → b ≠ "".
Proof.
  intros Hne Hb%head_Some_elem_of. apply list_elem_of_omap in Hb as (q & Hq & Hqb).
  intros ->. by apply (Hne q).
Qed.

Lemma no_empty_body_child (mime : string) (body : option MessagePartBody)
    (parts : list MessagePart) (p : MessagePart) :
  no_empty_body (mkPart mime body parts) → p ∈ parts → no_empty_body p.
Proof.
  intros Hne Hp q Hq. apply Hne. rewrite preorder_unfold. right.
  apply list_elem_of_join. exists (preorder p). split; [done|].
  apply list_elem_of_fmap. by exists p.
Qed.

Lemma range_parts_first_body (parts : list MessagePart) :
  Forall (λ p, no_empty_body p ∧
               extractMessageContent p = default "" (first_body p)) parts →
  range_parts (extractMessageContent <$> parts)
  = default "" (head (omap own_body (mjoin (preorder <$> parts)))).
Proof.
  induction 1 as [|p ps [Hne Hp] _ IH]; [done|].
  cbn [fmap list_fmap mjoin list_join]. rewrite omap_app.
  unfold range_parts. rewrite filter_cons. rewrite Hp.
  destruct (first_body p) as [b|] eqn:Hb.
  - pose proof (first_body_nonempty p b Hne Hb) as Hnonempty.
    change (default "" (Some b)) with b.
    destruct (decide (b ≠ "")); [|done].
    unfold first_body in Hb. by destruct (omap own_body (preorder p)); simplify_eq/=.
  - change (default "" None) with "". destruct (decide ("" ≠ "")); [done|].
    unfold first_body in Hb. destruct (omap own_body (preorder p)); [|done].
    apply IH.
Qed.

(** C7, as the code has it.  In a part tree none of whose decodable bodies
    is empty, [extractMessageContent] returns the first decodable
    text/plain or text/html body of the depth-first traversal that takes a
    node before its children and the children in their order, and the empty
    string when the tree has no decodable part.  The type of a body plays
    no part in the choice: when the node has no decodable body of its own
    and its first child has one, that body is returned, text/html as well
    as text/plain, whatever the later children hold. *)
Theorem extractMessageContent_first_decodable (part : MessagePart) :
  no_empty_body part →
  extractMessageContent part = default "" (first_body part)
  ∧ (first_body part = None → extractMessageContent part = "")
  ∧ (∀ p data, own_body part = None → head (Parts part) = Some p →
       own_body p = Some data → extractMessageContent part = data).
Proof.
  intros Hne.
  assert (extractMessageContent part = default "" (first_body part)) as Heq.
  { induction part as [mime body parts IH] using MessagePart_ind_parts.
    rewrite extractMessageContent_unfold. unfold first_body. rewrite preorder_unfold.
    cbn [omap list_omap Parts].
    destruct (own_body (mkPart mime body parts)) as [data|]; [done|].
    apply range_parts_first_body.
    apply Forall_forall. intros p Hp.
    assert (no_empty_body p) by (by eapply no_empty_body_child).
    split; [done|]. by apply (proj1 (Forall_forall _ _) IH). }
  split; [done|]. split.
  - intros Hnone. by rewrite Heq, Hnone.
  - intros p data Hown Hhead Hp. rewrite Heq. unfold first_body.
    rewrite preorder_unfold. cbn [omap list_omap]. rewrite Hown.
    destruct (Parts part) as [|p' rest]; [done|]. injection Hhead as ->.
    cbn [fmap list_fmap mjoin list_join]. rewrite (preorder_unfold p).
    cbn [app omap list_omap]. by rewrite Hp.
Qed.

(** A text/html part nested below a multipart node, after a sibling that
    does not decode; a tree without a decodable part; and a text/html part
    before a text/plain one. *)
Lemma extractMessageContent_first_decodable_witness :
  no_empty_body (multipart [plain "not base64!"; multipart [html "aGk="]; plain "eW8="])
  ∧ extractMessageContent
      (multipart [plain "not base64!"; multipart [html "aGk="]; plain "eW8="]) = "hi"
  ∧ no_empty_body (multipart [plain "not base64!"])
  ∧ extractMessageContent (multipart [plain "not base64!"]) = ""
  ∧ no_empty_body (multipart [html "aGk="; plain "eW8="])
  ∧ extractMessageContent (multipart [html "aGk="; plain "eW8="]) = "hi".
Proof.
  assert (no_empty_body
            (multipart [plain "not base64!"; multipart [html "aGk="]; plain "eW8="])) as H1.
  { intros p Hp. cbn in Hp.
    repeat (apply elem_of_cons in Hp as [->|Hp]); [..|by apply elem_of_nil in Hp];
      by vm_compute. }
  assert (no_empty_body (multipart [plain "not base64!"])) as H2.
  { intros p Hp. cbn in Hp.
    repeat (apply elem_of_cons in Hp as [->|Hp]); [..|by apply elem_of_nil in Hp];
      by vm_compute. }
  assert (no_empty_body (multipart [html "aGk="; plain "eW8="])) as H3.
  { intros p Hp. cbn in Hp.
    repeat (apply elem_of_cons in Hp as [->|Hp]); [..|by apply elem_of_nil in Hp];
      by vm_compute. }
  split; [exact H1|]. split.
  { exact (proj1 (extractMessageContent_first_decodable _ H1)). }
  split; [exact H2|]. split.
  { exact (proj1 (proj2 (extractMessageContent_first_decodable _ H2)) eq_refl). }
  split; [exact H3|].
  exact (proj2 (proj2 (extractMessageContent_first_decodable _ H3))
           (html "aGk=") "hi" eq_refl eq_refl eq_refl).
Defined.

(** C7 as stated fails, in two ways.  The first decodable body of the
    first tree is the empty text/plain body (its data is a line feed, which
    decodes to nothing), and the function passes it over and returns the
    text/html body.  On the node itself an empty body is not passed over:
    with the same body on the parent, the function returns it and leaves
    the text/html child unread.  And text/plain is not preferred over
    text/html among the parts of a node: in the last tree both parts of the
    node decode, to "hi" and to "yo", and the function returns the
    text/html body, which comes first. *)
Lemma extractMessageContent_skips_empty_body :
  first_body (multipart [plain newline; html "aGk="]) = Some ""
  ∧ extractMessageContent (multipart [plain newline; html "aGk="]) = "hi"
  ∧ extractMessageContent (mkPart "text/plain" (Some (mkBody newline)) [html "aGk="]) = ""
  ∧ own_body (html "aGk=") = Some "hi"
  ∧ own_body (plain "eW8=") = Some "yo"
  ∧ extractMessageContent (multipart [html "aGk="; plain "eW8="]) = "hi".
Proof. repeat split; reflexivity. Qed.

End ContentExtractor.

(* --------------------------------------------------------------------- *)
(** ** Runes, regular expressions and the text of the groups *)

Section RegexpFacts.
Import regexp services RegexpSpec.

Lemma byte_val_range (c : ascii) : 0 ≤ byte_val c < 256.
Proof.
  unfold byte_val. pose proof (N_ascii_bounded c). lia.
Qed.

Lemma lor_lower_l (a b : Z) : 0 ≤ a → 0 ≤ b → a ≤ Z.lor a b.
Proof.
  intros Ha Hb.
  assert (Z.lor a b = a + Z.ldiff b a) as ->.
  { rewrite Z.add_nocarry_lxor.
    - apply Z.bits_inj'. intros n Hn.
      rewrite Z.lor_spec, Z.lxor_spec, Z.ldiff_spec.
      by destruct (Z.testbit a n), (Z.testbit b n).
    - apply Z.bits_inj'. intros n Hn.
      rewrite Z.land_spec, Z.ldiff_spec, Z.bits_0.
      by destruct (Z.testbit a n), (Z.testbit b n). }
  pose proof (proj2 (Z.ldiff_nonneg b a) (or_introl Hb)). lia.
Qed.

Lemma lor_lower_r (a b : Z) : 0 ≤ a → 0 ≤ b → b ≤ Z.lor a b.
Proof. intros. rewrite Z.lor_comm. by apply lor_lower_l. Qed.

Lemma cont_bits_mod (c : ascii) : utf8.cont_bits c = byte_val c mod 64.
Proof. unfold utf8.cont_bits. by rewrite (Z.land_ones _ 6). Qed.

Lemma in_range_spec (lo hi : Z) (c : ascii) :
  utf8.in_range lo hi c = true ↔ lo ≤ byte_val c ≤ hi.
Proof. unfold utf8.in_range. rewrite andb_true_iff, !Z.leb_le. done. Qed.

Lemma shiftl_lower (x n k : Z) : 0 ≤ n → k ≤ x * 2 ^ n → k ≤ Z.shiftl x n.
Proof. intros Hn Hk. by rewrite Z.shiftl_mul_pow2. Qed.

(** A rune below 128 is one byte of the input. *)
Lemma DecodeRuneInString_ascii (s : string) (r : Z) (rest : string) :
  utf8.DecodeRuneInString s = Some (r, rest) → r < 128 →
  ∃ c, s = String c rest ∧ r = byte_val c.
Proof.
  destruct s as [|c0 s]; [done|]. unfold utf8.DecodeRuneInString.
  pose proof (byte_val_range c0) as H0.
  destruct (Z.ltb_spec (byte_val c0) 128) as [Hlt|H128].
  { intros [= <- <-] _. eauto. }
  intros Hdec Hr. exfalso. revert Hdec.
  assert (Some (utf8.RuneError, s) = Some (r, rest) → False) as Hinvalid.
  { intros [= <- _]. unfold utf8.RuneError in Hr. lia. }
  assert (∀ c, 0 ≤ utf8.cont_bits c) as Hcont.
  { intros c. rewrite cont_bits_mod. apply Z.mod_pos_bound. lia. }
  assert (∀ x n, 0 ≤ x → 0 ≤ Z.shiftl x n) as Hshift.
  { intros x n Hx. by apply Z.shiftl_nonneg. }
  assert (∀ x y, 0 ≤ x → 0 ≤ y → 0 ≤ Z.lor x y) as Hlor.
  { intros x y Hx Hy. apply Z.lor_nonneg. done. }
  destruct (Z.ltb_spec (byte_val c0) 194); [done|].
  destruct (Z.leb_spec (byte_val c0) 223).
  { destruct s as [|c1 s]; [done|].
    destruct (utf8.in_range 128 191 c1); [|done].
    intros [= <- _].
    assert (128 ≤ Z.shiftl (Z.land (byte_val c0) 31) 6).
    { apply shiftl_lower; [lia|]. rewrite (Z.land_ones _ 5) by lia.
      change (2 ^ 5) with 32. change (2 ^ 6) with 64. Z.div_mod_to_equations. lia. }
    pose proof (lor_lower_l (Z.shiftl (Z.land (byte_val c0) 31) 6) (utf8.cont_bits c1)).
    pose proof (Hcont c1). lia. }
  destruct (Z.leb_spec (byte_val c0) 239).
  { destruct s as [|c1 [|c2 s]]; [done..|].
    destruct (utf8.in_range _ _ c1) eqn:Hc1; [|done].
    destruct (utf8.in_range 128 191 c2); [|done].
    cbn [andb]. intros [= <- _].
    apply in_range_spec in Hc1.
    pose proof (Hcont c1). pose proof (Hcont c2).
    assert (0 ≤ Z.land (byte_val c0) 15) as Hx.
    { rewrite (Z.land_ones _ 4) by lia. apply Z.mod_pos_bound. done. }
    assert (128 ≤ Z.shiftl (Z.land (byte_val c0) 15) 12
            ∨ 128 ≤ Z.shiftl (utf8.cont_bits c1) 6) as Hcase.
    { revert Hc1. destruct (byte_val c0 =? 237);
        destruct (Z.eqb_spec (byte_val c0) 224) as [He|Hne]; intros Hc1.
      all: first
        [ right; apply shiftl_lower; [lia|]; rewrite cont_bits_mod;
          change (2 ^ 6) with 64; Z.div_mod_to_equations; lia
        | left; apply shiftl_lower; [lia|]; rewrite (Z.land_ones _ 4) by lia;
          change (2 ^ 4) with 16; change (2 ^ 12) with 4096;
          Z.div_mod_to_equations; lia ]. }
    pose proof (lor_lower_l (Z.shiftl (Z.land (byte_val c0) 15) 12)
                  (Z.lor (Z.shiftl (utf8.cont_bits c1) 6) (utf8.cont_bits c2))).
    pose proof (lor_lower_r (Z.shiftl (Z.land (byte_val c0) 15) 12)
                  (Z.lor (Z.shiftl (utf8.cont_bits c1) 6) (utf8.cont_bits c2))).
    pose proof (lor_lower_l (Z.shiftl (utf8.cont_bits c1) 6) (utf8.cont_bits c2)).
    pose proof (Hshift (Z.land (byte_val c0) 15) 12).
    pose proof (Hshift (utf8.cont_bits c1) 6).
    pose proof (Hlor (Z.shiftl (utf8.cont_bits c1) 6) (utf8.cont_bits c2)).
    lia. }
  destruct (Z.leb_spec (byte_val c0) 244); [|done].
  destruct s as [|c1 [|c2 [|c3 s]]]; [done..|].
  destruct (utf8.in_range _ _ c1) eqn:Hc1; [|done].
  destruct (utf8.in_range 128 191 c2); [|done].
  destruct (utf8.in_range 128 191 c3); [|done].
  cbn [andb]. intros [= <- _].
  apply in_range_spec in Hc1.
  pose proof (Hcont c1). pose proof (Hcont c2). pose proof (Hcont c3).
  assert (0 ≤ Z.land (byte_val c0) 7) as Hx.
  { rewrite (Z.land_ones _ 3) by lia. apply Z.mod_pos_bound. done. }
  assert (128 ≤ Z.shiftl (Z.land (byte_val c0) 7) 18
          ∨ 128 ≤ Z.shiftl (utf8.cont_bits c1) 12) as Hcase.
  { revert Hc1. destruct (byte_val c0 =? 244);
      destruct (Z.eqb_spec (byte_val c0) 240) as [He|Hne]; intros Hc1.
    all: first
      [ right; apply shiftl_lower; [lia|]; rewrite cont_bits_mod;
        change (2 ^ 12) with 4096; Z.div_mod_to_equations; lia
      | left; apply shiftl_lower; [lia|]; rewrite (Z.land_ones _ 3) by lia;
        change (2 ^ 3) with 8; change (2 ^ 18) with 262144;
        Z.div_mod_to_equations; lia ]. }
  set (t2 := Z.lor (Z.shiftl (utf8.cont_bits c2) 6) (utf8.cont_bits c3)) in *.
  set (t1 := Z.lor (Z.shiftl (utf8.cont_bits c1) 12) t2) in *.
  pose proof (Hshift (utf8.cont_bits c2) 6).
  pose proof (Hshift (utf8.cont_bits c1) 12).
  pose proof (Hshift (Z.land (byte_val c0) 7) 18).
  assert (0 ≤ t2) by (apply Hlor; lia).
  assert (0 ≤ t1) by (apply Hlor; lia).
  pose proof (lor_lower_l (Z.shiftl (Z.land (byte_val c0) 7) 18) t1).
  pose proof (lor_lower_r (Z.shiftl (Z.land (byte_val c0) 7) 18) t1).
  pose proof (lor_lower_l (Z.shiftl (utf8.cont_bits c1) 12) t2).
  lia.
Qed.

(** The loop of a repetition finds a match of the starred expression
    when each turn finds a match of the expression. *)
Lemma star_loop_sound {A} (r : re)
    (step : string → captures → (string → captures → option A) → option A)
    (k : string → captures → option A) :
  (∀ s cs k' a, step s cs k' = Some a →
     ∃ s' cs', matches r s cs s' cs' ∧ k' s' cs' = Some a) →
  ∀ fuel s cs a, star_loop step k fuel s cs = Some a →
    ∃ s' cs', matches (Star r) s cs s' cs' ∧ k s' cs' = Some a.
Proof.
  intros Hstep fuel. induction fuel as [|fuel IH]; intros s cs a; cbn [star_loop].
  { intros Hk. exists s, cs. split; [apply matches_Star_stop|done]. }
  destruct (step s cs _) as [a'|] eqn:Hturn.
  - intros [= ->]. apply Hstep in Hturn as (s1 & cs1 & Hm1 & Hrest).
    destruct (String.length s1 <? String.length s)%nat; [|done].
    apply IH in Hrest as (s2 & cs2 & Hm2 & Hk).
    exists s2, cs2. split; [|done]. by eapply matches_Star_turn.
  - intros Hk. exists s, cs. split; [apply matches_Star_stop|done].
Qed.

(** What the search returns is a match: the continuation was entered
    after a match of the expression. *)
Lemma run_sound {A} (r : re) (s : string) (cs : captures)
    (k : string → captures → option A) (a : A) :
  run r s cs k = Some a →
  ∃ s' cs', matches r s cs s' cs' ∧ k s' cs' = Some a.
Proof.
  revert s cs k a. induction r as [p|r1 IH1 r2 IH2|r1 IH1|r1 IH1|r1 IH1|i r1 IH1];
    intros s cs k a; cbn [run].
  - destruct (utf8.DecodeRuneInString s) as [[c rest]|] eqn:Hdec; [|done].
    destruct (p c) eqn:Hp; [|done]. intros Hk.
    exists rest, cs. split; [by econstructor|done].
  - intros (s1 & cs1 & Hm1 & (s2 & cs2 & Hm2 & Hk)%IH2)%IH1.
    exists s2, cs2. split; [by econstructor|done].
  - apply star_loop_sound. intros s0 cs0 k' a'. apply IH1.
  - intros (s1 & cs1 & Hm1 & Hloop)%IH1.
    apply (star_loop_sound r1 (run r1) k (λ s0 cs0 k' a', IH1 s0 cs0 k' a'))
      in Hloop as (s2 & cs2 & Hm2 & Hk).
    exists s2, cs2. split; [by econstructor|done].
  - destruct (run r1 s cs k) as [a'|] eqn:Hone.
    + intros [= ->]. apply IH1 in Hone as (s1 & cs1 & Hm1 & Hk).
      exists s1, cs1. split; [by constructor|done].
    + intros Hk. exists s, cs. split; [apply matches_Quest_none|done].
  - intros (s1 & cs1 & Hm1 & Hk)%IH1.
    eexists _, _. split; [by constructor|done].
Qed.

Lemma matches_cap_free (r : re) (s : string) (cs : captures) (s' : string)
    (cs' : captures) :
  matches r s cs s' cs' → cap_free r = true → cs' = cs.
Proof.
  induction 1 as [| ? ? ? ? ? ? ? ? _ IH1 _ IH2 | | ? ? ? ? ? ? ? _ IH1 _ IH2
                  | ? ? ? ? ? ? ? _ IH1 _ IH2 | ? ? ? ? ? _ IH1 | |];
    cbn [cap_free]; try done.
  - intros [H1 H2]%andb_true_iff. rewrite IH2, IH1; done.
  - intros Hr. rewrite IH2, IH1; done.
  - intros Hr. rewrite IH2, IH1; done.
Qed.

(** A class of runes below 128 matches one byte. *)
Lemma matches_byte (p : Z → bool) (s : string) (cs : captures) (s' : string)
    (cs' : captures) :
  (∀ c, p c = true → c < 128) →
  matches (Rune p) s cs s' cs' →
  ∃ c, s = String c s' ∧ p (byte_val c) = true.
Proof.
  intros Hascii Hm. inversion Hm as [p' s0 c rest cs0 Hdec Hp | | | | | | |]; subst.
  destruct (DecodeRuneInString_ascii _ _ _ Hdec (Hascii _ Hp)) as (b & -> & ->).
  by exists b.
Qed.

Lemma matches_bytes (p : Z → bool) (s : string) (cs : captures) (s' : string)
    (cs' : captures) :
  (∀ c, p c = true → c < 128) →
  matches (Star (Rune p)) s cs s' cs' →
  ∃ t, s = t +:+ s' ∧ all_bytes (λ c, p (byte_val c)) t = true.
Proof.
  intros Hascii Hm. remember (Star (Rune p)) as r eqn:Hr.
  induction Hm as [| | r0 s cs | r0 s cs s1 cs1 s2 cs2 Hm1 _ Hm2 IH2 | | | |];
    try discriminate Hr.
  - by exists "".
  - injection Hr as ->.
    destruct (matches_byte _ _ _ _ _ Hascii Hm1) as (c & -> & Hp).
    destruct (IH2 eq_refl) as (t & -> & Ht).
    exists (String c t). split; [done|]. cbn [all_bytes]. by rewrite Hp, Ht.
Qed.

Lemma string_length_append (s t : string) :
  String.length (s +:+ t) = (String.length s + String.length t)%nat.
Proof.
  induction s as [|c s IH]; [done|].
  change (String c s +:+ t) with (String c (s +:+ t)).
  cbn [String.length]. by rewrite IH.
Qed.

Lemma string_take_app (s t : string) : string_take (String.length s) (s +:+ t) = s.
Proof.
  induction s as [|c s IH]; [by destruct t|].
  change (String c s +:+ t) with (String c (s +:+ t)).
  cbn [String.length string_take]. by rewrite IH.
Qed.

Lemma search_sound (fuel : nat) (r : re) (s : string) (m : string * captures) :
  search fuel r s = Some m → ∃ s0, match_here r s0 = Some m.
Proof.
  revert s. induction fuel as [|fuel IH]; intros s; cbn [search]; [done|].
  destruct (match_here r s) as [m'|] eqn:Hhere.
  - intros [= ->]. by exists s.
  - destruct (utf8.DecodeRuneInString s) as [[c rest]|]; [apply IH|done].
Qed.

Lemma matches_after_cap_free (r1 r2 : re) (s : string) (cs : captures)
    (s2 : string) (cs2 : captures) :
  cap_free r1 = true → matches (Cat r1 r2) s cs s2 cs2 →
  ∃ s1, matches r2 s1 cs s2 cs2.
Proof.
  intros Hfree Hm.
  inversion Hm as [| r1' r2' s0 cs0 s1 cs1 s2' cs2' Hm1 Hm2 | | | | | |]; subst.
  apply matches_cap_free in Hm1 as ->; [|done]. by exists s1.
Qed.

(** The text of a group [(x+)], for a class [x] of runes below 128, is
    made of bytes of the class. *)
Lemma matches_group_bytes (i : nat) (p : Z → bool) (s : string) (cs : captures)
    (s' : string) (cs' : captures) :
  (∀ c, p c = true → c < 128) →
  matches (Cap i (Plus (Rune p))) s cs s' cs' →
  ∃ t, cs' = (i, t) :: cs ∧ all_bytes (λ c, p (byte_val c)) t = true.
Proof.
  intros Hascii Hm.
  inversion Hm as [| | | | | | | i' r s0 cs0 s1 cs1 Hplus]; subst.
  inversion Hplus as [| | | | r s0 cs0 s1 cs1' s2 cs2 Hone Hmore | | |]; subst.
  pose proof (matches_cap_free _ _ _ _ _ Hone eq_refl) as ->.
  pose proof (matches_cap_free _ _ _ _ _ Hmore eq_refl) as ->.
  destruct (matches_byte _ _ _ _ _ Hascii Hone) as (c & -> & Hp).
  destruct (matches_bytes _ _ _ _ _ Hascii Hmore) as (t & -> & Ht).
  exists (String c t). split; [|by cbn [all_bytes]; rewrite Hp, Ht].
  do 2 f_equal. cbn [String.length]. rewrite string_length_append.
  replace (S (String.length t + String.length s') - String.length s')%nat
    with (String.length (String c t)) by (cbn [String.length]; lia).
  apply (string_take_app (String c t)).
Qed.

Lemma byte_val_inj (c d : ascii) : byte_val c = byte_val d → c = d.
Proof.
  unfold byte_val. intros H%(inj Z.of_N).
  by rewrite <- (ascii_N_embedding c), <- (ascii_N_embedding d), H.
Qed.

Lemma byte_val_eqb (c d : ascii) : Ascii.eqb c d = (byte_val c =? byte_val d).
Proof.
  destruct (Ascii.eqb_spec c d) as [->|Hne]; [by rewrite Z.eqb_refl|].
  symmetry. apply Z.eqb_neq. intros H. by apply Hne, byte_val_inj.
Qed.

Lemma all_bytes_ext (p q : ascii → bool) (s : string) :
  (∀ c, p c = q c) → all_bytes p s = all_bytes q s.
Proof.
  intros Hpq. induction s as [|c s IH]; [done|].
  cbn [all_bytes]. by rewrite Hpq, IH.
Qed.

(** The text of the group of [amountPattern] is made of digits, commas
    and dots. *)
Lemma amount_group_bytes (body : string) :
  all_bytes amount_byte (at1 (FindStringSubmatch amountPattern body)) = true.
Proof.
  unfold FindStringSubmatch.
  destruct (search _ amountPattern body) as [[whole cs]|] eqn:Hsearch; [|done].
  apply search_sound in Hsearch as [s0 Hhere].
  apply run_sound in Hhere as (s' & cs' & Hm & [= _ <-]).
  change (at1 _) with (capture 1 cs').
  do 5 (apply matches_after_cap_free in Hm as [? Hm]; [|done]).
  apply matches_group_bytes in Hm as (t & -> & Ht).
  - cbn [capture]. rewrite decide_True by done.
    rewrite <- Ht. apply all_bytes_ext. intros c.
    unfold amount_byte, isDigit. by rewrite !byte_val_eqb.
  - intros c. rewrite !orb_true_iff, andb_true_iff, Z.leb_le, !Z.eqb_eq. lia.
Qed.

Lemma all_bytes_remove_comma (s : string) :
  all_bytes amount_byte s = true → all_bytes digit_or_dot (remove_byte "," s) = true.
Proof.
  induction s as [|c s IH]; [done|]. cbn [all_bytes remove_byte].
  intros [Hc Hs]%andb_true_iff. unfold amount_byte in Hc.
  destruct (Ascii.eqb c ",") eqn:Hcomma; [by apply IH|].
  cbn [all_bytes]. rewrite IH by done. unfold digit_or_dot.
  rewrite orb_false_r in Hc. by rewrite Hc.
Qed.

(** The text the program hands to [strconv.ParseFloat] is made of decimal
    digits and dots. *)
Lemma amount_text_digits_dots (body : string) :
  all_bytes digit_or_dot
    (remove_byte "," (at1 (FindStringSubmatch amountPattern body))) = true.
Proof. apply all_bytes_remove_comma, amount_group_bytes. Qed.

Lemma matches_byte_then (p : Z → bool) (r : re) (s : string) (cs : captures)
    (s' : string) (cs' : captures) :
  (∀ c, p c = true → c < 128) →
  matches (Cat (Rune p) r) s cs s' cs' →
  ∃ c s1, s = String c s1 ∧ p (byte_val c) = true ∧ matches r s1 cs s' cs'.
Proof.
  intros Hascii Hm.
  inversion Hm as [| r1' r2' s0 cs0 s1 cs1 s2' cs2' Hm1 Hm2 | | | | | |]; subst.
  pose proof (matches_cap_free _ _ _ _ _ Hm1 eq_refl) as ->.
  destruct (matches_byte _ _ _ _ _ Hascii Hm1) as (c & -> & Hp).
  by exists c, s1.
Qed.

Lemma perl_digit_isDigit (c : ascii) :
  ((48 <=? byte_val c) && (byte_val c <=? 57)) = true → digit_or_dash c = true.
Proof. unfold digit_or_dash, isDigit. by intros ->. Qed.

Lemma dash_digit_or_dash (c : ascii) :
  (byte_val c =? byte_val "-") = true → digit_or_dash c = true.
Proof.
  unfold digit_or_dash. rewrite <- byte_val_eqb. intros ->. apply orb_true_r.
Qed.

(** The text of the group of [datePattern] is made of digits and dashes. *)
Lemma date_text_digits_dashes (body : string) :
  all_bytes digit_or_dash (at1 (FindStringSubmatch datePattern body)) = true.
Proof.
  unfold FindStringSubmatch.
  destruct (search _ datePattern body) as [[whole cs]|] eqn:Hsearch; [|done].
  apply search_sound in Hsearch as [s0 Hhere].
  apply run_sound in Hhere as (s' & cs' & Hm & [= _ <-]).
  change (at1 _) with (capture 1 cs').
  do 3 (apply matches_after_cap_free in Hm as [? Hm]; [|done]).
  inversion Hm as [| | | | | | | i' r s1 cs1 s2 cs2 Hgroup]; subst.
  cbn [capture]. rewrite decide_True by done.
  assert (∀ c, ((48 <=? c) && (c <=? 57)) = true → c < 128) as Hdigit.
  { intros c. rewrite andb_true_iff, Z.leb_le. lia. }
  assert (∀ c, (c =? byte_val "-") = true → c < 128) as Hdash.
  { intros c Hc%Z.eqb_eq. by subst. }
  cbn [rep replicate cat foldr] in Hgroup.
  apply matches_byte_then in Hgroup as (d1 & ? & -> & Hd1 & Hgroup); [|done].
  apply matches_byte_then in Hgroup as (d2 & ? & -> & Hd2 & Hgroup); [|done].
  apply matches_byte_then in Hgroup as (h1 & ? & -> & Hh1 & Hgroup); [|done].
  apply matches_byte_then in Hgroup as (m1 & ? & -> & Hm1 & Hgroup); [|done].
  apply matches_byte_then in Hgroup as (m2 & ? & -> & Hm2 & Hgroup); [|done].
  apply matches_byte_then in Hgroup as (h2 & ? & -> & Hh2 & Hgroup); [|done].
  apply matches_byte_then in Hgroup as (y1 & ? & -> & Hy1 & Hgroup); [|done].
  apply matches_byte in Hgroup as (y2 & -> & Hy2); [|done].
  cbn [String.length].
  replace (_ - _)%nat with 8%nat by lia. cbn [string_take all_bytes].
  repeat (apply andb_true_intro; split); try done;
    first [by apply perl_digit_isDigit | by apply dash_digit_or_dash].
Qed.

End RegexpFacts.

(* --------------------------------------------------------------------- *)
(** ** The field extractor and the fetcher *)

Section FieldExtractor.
Import types gmail googleapi regexp services ContentSpec FieldSpec.

Variable html_Parse : string → html.Node + error.

Lemma FindStringSubmatch_length (r : re) (s : string) :
  FindStringSubmatch r s = [] ∨ length (FindStringSubmatch r s) = S (numCap r).
Proof.
  unfold FindStringSubmatch. destruct (search _ r s) as [[whole cs]|]; [right|by left].
  cbn [length]. by rewrite length_fmap, length_seq.
Qed.

(** For a pattern with one group, [len(match) < 2] says there is no match. *)
Lemma no_match_iff (r : re) (s : string) :
  numCap r = 1%nat →
  (length (FindStringSubmatch r s) <? 2)%nat = true ↔ FindStringSubmatch r s = [].
Proof.
  intros Hn. destruct (FindStringSubmatch_length r s) as [->|Hl]; [done|].
  rewrite Hl, Hn. split; [done|]. intros Heq. by rewrite Heq in Hl.
Qed.

Lemma amount_error_other (e : string) : "could not parse amount: " +:+ e ≠ could_not_parse.
Proof. unfold could_not_parse. cbv [String.append]. discriminate. Qed.

Lemma date_error_other (e : string) : "could not parse date: " +:+ e ≠ could_not_parse.
Proof. unfold could_not_parse. cbv [String.append]. discriminate. Qed.

Lemma extractFields_could_not_parse (body : string) :
  extractFields body = inr could_not_parse
  ↔ FindStringSubmatch amountPattern body = [] ∨ FindStringSubmatch datePattern body = [].
Proof.
  unfold extractFields.
  rewrite <- (no_match_iff amountPattern body eq_refl), <- (no_match_iff datePattern body eq_refl).
  destruct (length (FindStringSubmatch amountPattern body) <? 2)%nat;
    destruct (length (FindStringSubmatch datePattern body) <? 2)%nat; cbn [orb];
    try (split; [auto|done]).
  split; [|by intros [|]].
  destruct (strconv.ParseFloat _) as [amount|err].
  - destruct (GoTime.Parse _ _) as [d|err]; [done|].
    intros H%(inj inr). by apply date_error_other in H.
  - intros H%(inj inr). by apply amount_error_other in H.
Qed.

Lemma fetch_step_contribution (srv : Service) (id : string)
    (transactions : list Transaction) (calls : list Call) :
  fetch_step html_Parse srv (transactions, calls) id
  = (transactions ++ option_list (contribution html_Parse srv id), calls ++ [GetCall id]).
Proof.
  unfold fetch_step, contribution.
  destruct (Messages_Get srv id) as [message|err]; [|by rewrite app_nil_r].
  destruct (parseTransactionEmail html_Parse message); [done|by rewrite app_nil_r].
Qed.

Lemma fetch_fold (srv : Service) (ids : list string)
    (transactions : list Transaction) (calls : list Call) :
  fold_left (fetch_step html_Parse srv) ids (transactions, calls)
  = (transactions ++ omap (contribution html_Parse srv) ids, calls ++ (GetCall <$> ids)).
Proof.
  revert transactions calls. induction ids as [|id ids IH]; intros transactions calls.
  - by rewrite !app_nil_r.
  - cbn [fold_left]. rewrite fetch_step_contribution, IH.
    rewrite <- !app_assoc. cbn [omap list_omap fmap list_fmap].
    by destruct (contribution html_Parse srv id).
Qed.

(** When the listing succeeds, the result is the transactions of the
    messages that are fetched and parsed, in the order of the listing, and
    every listed message is asked for. *)
Lemma FetchTransactions_listed (srv : Service) (now : GoTime.Time) (days : Z)
    (ids : list string) :
  Messages_List srv (query_for now days) = inl ids →
  FetchTransactions html_Parse srv now days
  = (inl (omap (contribution html_Parse srv) ids),
     ListCall (query_for now days) :: (GetCall <$> ids)).
Proof.
  intros Hlist. unfold FetchTransactions. rewrite Hlist.
  by rewrite fetch_fold.
Qed.

(** C6. Field extraction fails with "could not parse transaction details"
    exactly when the amount pattern or the date pattern does not match the
    stripped body; [parseTransactionEmail] is that extraction on the
    stripped body of a message that has content, and fails with another
    message on one that has none.  In [FetchTransactions] a
    message whose parse fails contributes nothing, the other messages
    contribute as they would without it, and the call returns the
    transactions and no error. *)
Theorem parse_failure_is_skipped :
  (∀ body, extractFields body = inr could_not_parse
           ↔ FindStringSubmatch amountPattern body = []
             ∨ FindStringSubmatch datePattern body = [])
  ∧ (∀ msg, extractMessageContent (Payload msg) ≠ "" →
            parseTransactionEmail html_Parse msg
            = extractFields (stripHTMLTags html_Parse (extractMessageContent (Payload msg))))
  ∧ (∀ msg, extractMessageContent (Payload msg) = "" →
            parseTransactionEmail html_Parse msg = inr "no suitable content found in email")
  ∧ (∀ srv now days before id after message err,
       Messages_List srv (query_for now days) = inl (before ++ id :: after) →
       Messages_Get srv id = inl message →
       parseTransactionEmail html_Parse message = inr err →
       (FetchTransactions html_Parse srv now days).1
       = inl (omap (contribution html_Parse srv) before
              ++ omap (contribution html_Parse srv) after)).
Proof.
  split; [exact extractFields_could_not_parse|]. split.
  - intros msg Hcontent. unfold parseTransactionEmail. by case_decide.
  - split; [intros msg Hcontent; unfold parseTransactionEmail; by case_decide|].
    intros srv now days before id after message err Hlist Hget Hparse.
    rewrite (FetchTransactions_listed _ _ _ _ Hlist). cbn [fst].
    rewrite omap_app. cbn [omap list_omap]. unfold contribution at 2.
    by rewrite Hget, Hparse.
Qed.

(** The pipeline on a message whose content strips to [text]. *)
Lemma parseTransactionEmail_stripped (msg : Message) (markup text : string) :
  extractMessageContent (Payload msg) = markup → markup ≠ "" →
  stripHTMLTags html_Parse markup = text →
  parseTransactionEmail html_Parse msg = extractFields text.
Proof.
  intros Hcontent Hne Hstrip. unfold parseTransactionEmail.
  rewrite Hcontent. case_decide; [done|]. by rewrite Hstrip.
Qed.

End FieldExtractor.

Section FieldExamples.
Import types gmail googleapi regexp services ContentSpec FieldSpec.

(** C2. The full pipeline on a MIME tree whose only part is a text/html
    part with the base64url body of [<p>Rs. 1,234.50 on 05-03-24</p>]:
    content extraction yields the markup, markup stripping its text, and
    field extraction the transaction of 2024-03-05 with amount 1234.50. *)
Theorem html_only_pipeline :
  base64.DecodeString sample_data = Some sample_markup
  ∧ extractMessageContent (Payload sample_message) = sample_markup
  ∧ stripHTMLTags html_ref.Parse sample_markup = "Rs. 1,234.50 on 05-03-24"
  ∧ parseTransactionEmail html_ref.Parse sample_message
    = inl (mkTransaction "2024-03-05" 1234.5%float "Transaction from HTML email").
Proof.
  assert (extractMessageContent (Payload sample_message) = sample_markup) as Hcontent
    by reflexivity.
  assert (stripHTMLTags html_ref.Parse sample_markup = "Rs. 1,234.50 on 05-03-24") as Hstrip
    by reflexivity.
  split; [reflexivity|]. split; [done|]. split; [done|].
  rewrite (parseTransactionEmail_stripped html_ref.Parse _ _ _ Hcontent
             ltac:(discriminate) Hstrip).
  by vm_compute.
Qed.

(** C10. The dot after "Rs" in the amount pattern matches any character
    but a line feed: the bodies "Rs 100 on 01-02-24" and
    "RsX100 on 01-02-24" do not contain "Rs.", and field extraction
    succeeds on them with the amount 100; so it does whatever ASCII byte
    but a line feed stands between "Rs" and "100". *)
Theorem amount_dot_is_wildcard :
  has_substring "Rs." "Rs 100 on 01-02-24" = false
  ∧ extractFields "Rs 100 on 01-02-24"
    = inl (mkTransaction "2024-02-01" 100%float "Transaction from HTML email")
  ∧ has_substring "Rs." "RsX100 on 01-02-24" = false
  ∧ extractFields "RsX100 on 01-02-24"
    = inl (mkTransaction "2024-02-01" 100%float "Transaction from HTML email")
  ∧ ∀ c : ascii, byte_val c < 128 → byte_val c ≠ 10 →
      extractFields ("Rs" +:+ String c "100 on 01-02-24")
      = inl (mkTransaction "2024-02-01" 100%float "Transaction from HTML email").
Proof.
  split; [reflexivity|]. split; [by vm_compute|]. split; [reflexivity|].
  split; [by vm_compute|].
  intros [[] [] [] [] [] [] [] []]; vm_compute; intros Hlt Hne;
    try discriminate Hlt; try reflexivity.
  by destruct Hne.
Qed.

(** The mailbox of three messages: the second, which lacks the date,
    fails to parse and is left out; the first and the third are kept. *)
Lemma parse_failure_is_skipped_witness :
  parseTransactionEmail html_ref.Parse
    (mkMessage "m2" (plain "UnMuIDc1IGF0IHRoZSBzaG9w")) = inr could_not_parse
  ∧ (FetchTransactions html_ref.Parse sample_mailbox (GoTime.mkTime 2024 3 6) 2).1
    = inl [mkTransaction "2024-03-05" 1234.5%float "Transaction from HTML email";
           mkTransaction "2024-02-01" 250%float "Transaction from HTML email"].
Proof.
  assert (parseTransactionEmail html_ref.Parse
            (mkMessage "m2" (plain "UnMuIDc1IGF0IHRoZSBzaG9w")) = inr could_not_parse)
    as Hparse by (by vm_compute).
  split; [done|].
  exact (proj2 (proj2 (proj2 (parse_failure_is_skipped html_ref.Parse)))
           sample_mailbox (GoTime.mkTime 2024 3 6) 2 ["m1"] "m2" ["m3"] _ _
           eq_refl eq_refl Hparse).
Defined.

End FieldExamples.

(* --------------------------------------------------------------------- *)
(** ** The HTTP layer *)

Section HttpLayer.
Import types gmail googleapi services main FieldSpec HttpSpec.

Variable env : Env.

(** A string of white space only trims to nothing. *)
Lemma drop_spaces_all (l : list (Z * string)) :
  Forall (λ x, strings.IsSpace x.1 = true) l → strings.drop_spaces l = [].
Proof.
  induction 1 as [|[r bytes] l Hr _ IH]; [done|]. cbn in Hr. cbn. by rewrite Hr.
Qed.

Lemma TrimSpace_blank (s : string) : blank s → strings.TrimSpace s = "".
Proof. intros H. unfold strings.TrimSpace. by rewrite (drop_spaces_all _ H). Qed.

Lemma blank_empty : blank "".
Proof. constructor. Qed.

(** A parameter the query lacks reads as the empty string. *)
Lemma Query_Get_missing (q : list (string * string)) (key : string) :
  key ∉ q.*1 → Query_Get q key = "".
Proof.
  induction q as [|[k v] q IH]; [done|]. cbn. intros Hk.
  case_decide as Heq; [subst; exfalso; apply Hk; by left|].
  apply IH. intros Hin. apply Hk. by right.
Qed.

Lemma lookup_hit (rc : Redis) (r : Request) (cached : string) (resp : TransactionsResponse) :
  cache_hit env rc r cached resp → lookup env rc r = Some resp.
Proof. intros [Hget Hdec]. unfold lookup. by rewrite Hget, Hdec. Qed.

Lemma lookup_miss (rc : Redis) (r : Request) :
  cache_miss env rc r → lookup env rc r = None.
Proof.
  intros Hmiss. unfold lookup.
  destruct (redis_Get rc (getCacheKey (filter_of r))) as [cached|] eqn:Hget; [|done].
  destruct (json_Unmarshal env cached) as [resp|] eqn:Hdec; [|done].
  by destruct (Hmiss cached resp).
Qed.

Lemma respondError_outcome (w : ResponseWriter) (code : Z) (message : string) :
  status w = None → body w = "" →
  StatusCode (respondError env w code message) = code
  ∧ body (respondError env w code message) = encoded env (error_value message code).
Proof.
  intros Hs Hb. unfold respondError, Encode, encoded, StatusCode, Write, WriteHeader.
  cbn [Header_Set status body]. rewrite Hs. cbn [status body].
  destruct (json_Marshal env _); cbn [status body]; [|done]. by rewrite Hb.
Qed.

Lemma Encode_outcome (w : ResponseWriter) (v : value) :
  status w = None → body w = "" →
  StatusCode (Encode env v w) = StatusOK ∧ body (Encode env v w) = encoded env v.
Proof.
  intros Hs Hb. unfold Encode, encoded, StatusCode, Write, WriteHeader.
  destruct (json_Marshal env v); cbn [status body]; rewrite Hs; [|done].
  cbn [status body default from_option]. by rewrite Hb.
Qed.

(** The handler on a GET request, past the method checks. *)
Lemma transactionsHandler_GET (rc : Redis) (r : Request) :
  Method r = "GET" →
  transactionsHandler env rc r
  = let w := Header_Set "Access-Control-Allow-Credentials" "true"
               (Header_Set "Access-Control-Allow-Origin" (FRONTEND_URL env) new_writer) in
    match lookup env rc r with
    | Some response =>
        mkServed (Encode env (response_value response)
                    (Header_Set "Content-Type" "application/json" w)) rc []
    | None =>
        if decide (strings.TrimSpace (token_of r) = "") then
          mkServed (respondError env w StatusUnauthorized
                      "Missing access token in query string") rc []
        else
          match NewGmailServiceWithClient env (token_of r) with
          | inr err =>
              mkServed (respondError env w StatusInternalServerError
                          ("Gmail service error: " +:+ err)) rc []
          | inl gmailService =>
              match lookback_days (filter_of r) with
              | None =>
                  mkServed (respondError env w StatusBadRequest "Invalid filter") rc []
              | Some days =>
                  let '(fetched, calls) :=
                    FetchTransactions (html_Parse env) gmailService (now env) days in
                  match fetched with
                  | inr appErr =>
                      mkServed (respondError env w (Code appErr) (Msg appErr)) rc calls
                  | inl transactions =>
                      match calculateSummary transactions (filter_of r) with
                      | inr err =>
                          mkServed (respondError env w StatusInternalServerError err) rc calls
                      | inl summary =>
                          let response := mkResponse summary (appended transactions) in
                          let rc' :=
                            match json_Marshal env (response_value response) with
                            | inr _ => rc
                            | inl respJSON =>
                                redis_Set rc (getCacheKey (filter_of r)) respJSON 10
                            end in
                          mkServed (Encode env (response_value response)
                                      (Header_Set "Content-Type" "application/json" w))
                                   rc' calls
                      end
                  end
              end
          end
    end.
Proof.
  intros Hm. unfold transactionsHandler. rewrite Hm.
  destruct (decide ("GET" = "OPTIONS")) as [|_]; [discriminate|].
  destruct (decide ("GET" ≠ "GET")) as [|_]; [done|].
  reflexivity.
Qed.

(** The token check, which comes after the cache lookup.  A GET request
    whose access token is missing or blank, for a filter key without a
    valid cached entry, gets status 401 with the error body and no
    transaction payload; the provider is not called and the cache is left
    as it was. *)
Theorem missing_token_unauthorized (rc : Redis) (r : Request) :
  Method r = "GET" → blank (token_of r) → cache_miss env rc r →
  let served := transactionsHandler env rc r in
  StatusCode (response served) = StatusUnauthorized
  ∧ body (response served)
    = encoded env (error_value "Missing access token in query string" StatusUnauthorized)
  ∧ provider_calls served = []
  ∧ cache served = rc.
Proof.
  intros Hm Hblank Hmiss. cbn zeta.
  rewrite (transactionsHandler_GET rc r Hm). cbn zeta.
  rewrite (lookup_miss rc r Hmiss), (TrimSpace_blank _ Hblank).
  case_decide; [|done]. cbn [response provider_calls cache].
  destruct (respondError_outcome
              (Header_Set "Access-Control-Allow-Credentials" "true"
                 (Header_Set "Access-Control-Allow-Origin" (FRONTEND_URL env) new_writer))
              StatusUnauthorized "Missing access token in query string") as [-> ->]; done.
Qed.

(** On a cache hit the handler writes the decoded entry and stops. *)
Lemma cache_hit_response (rc : Redis) (r : Request) (cached : string)
    (resp : TransactionsResponse) :
  Method r = "GET" → cache_hit env rc r cached resp →
  transactionsHandler env rc r
  = mkServed
      (Encode env (response_value resp)
         (Header_Set "Content-Type" "application/json"
            (Header_Set "Access-Control-Allow-Credentials" "true"
               (Header_Set "Access-Control-Allow-Origin" (FRONTEND_URL env) new_writer))))
      rc [].
Proof.
  intros Hm Hhit.
  rewrite (transactionsHandler_GET rc r Hm). cbn zeta.
  by rewrite (lookup_hit rc r cached resp Hhit).
Qed.

(** With a codec that reads back what it writes, an entry the program
    stored is served with a line feed after the stored bytes. *)
Lemma cache_hit_appends_line_feed (rc : Redis) (r : Request) (stored : string)
    (resp : TransactionsResponse) :
  Method r = "GET" →
  json_Marshal env (response_value resp) = inl stored →
  cache_hit env rc r stored resp →
  body (response (transactionsHandler env rc r)) = stored +:+ line_feed.
Proof.
  intros Hm Hmarshal Hhit.
  rewrite (cache_hit_response rc r stored resp Hm Hhit). cbn [response].
  destruct (Encode_outcome
              (Header_Set "Content-Type" "application/json"
                 (Header_Set "Access-Control-Allow-Credentials" "true"
                    (Header_Set "Access-Control-Allow-Origin" (FRONTEND_URL env) new_writer)))
              (response_value resp)) as [_ ->]; [done..|].
  unfold encoded. by rewrite Hmarshal.
Qed.

(** C5, as the code has it.  When the filter key of a GET request has a
    valid cached entry, the body is the decoded entry encoded again (its
    JSON followed by a line feed), the status is 200, the provider is not
    called and the cache is left as it was. *)
Theorem cache_hit_served (rc : Redis) (r : Request) (cached : string)
    (resp : TransactionsResponse) :
  Method r = "GET" → cache_hit env rc r cached resp →
  let served := transactionsHandler env rc r in
  body (response served) = encoded env (response_value resp)
  ∧ StatusCode (response served) = StatusOK
  ∧ provider_calls served = []
  ∧ cache served = rc.
Proof.
  intros Hm Hhit. cbn zeta.
  rewrite (cache_hit_response rc r cached resp Hm Hhit).
  cbn [response provider_calls cache].
  destruct (Encode_outcome
              (Header_Set "Content-Type" "application/json"
                 (Header_Set "Access-Control-Allow-Credentials" "true"
                    (Header_Set "Access-Control-Allow-Origin" (FRONTEND_URL env) new_writer)))
              (response_value resp)) as [-> ->]; done.
Qed.

Lemma lookback_days_other (filter : string) :
  filter ≠ "daily" → filter ≠ "weekly" → filter ≠ "monthly" → filter ≠ "all" →
  lookback_days filter = None.
Proof. intros. unfold lookback_days. by repeat case_decide. Qed.

(** C8, as the code has it.  The filter maps to the days to look back,
    daily to 2, weekly to 14, monthly to 60 and all to 90.  On a GET
    request with a token that is not blank, without a cache hit and with a
    Gmail client built for the token, such a filter makes the handler fetch
    that many days, and any other filter gets status 400 "Invalid filter"
    with no call to the provider. *)
Theorem filter_lookback (rc : Redis) (r : Request) (gmailService : Service) :
  Method r = "GET" → strings.TrimSpace (token_of r) ≠ "" → cache_miss env rc r →
  NewGmailServiceWithClient env (token_of r) = inl gmailService →
  let served := transactionsHandler env rc r in
  lookback_days "daily" = Some 2 ∧ lookback_days "weekly" = Some 14
  ∧ lookback_days "monthly" = Some 60 ∧ lookback_days "all" = Some 90
  ∧ (∀ days, lookback_days (filter_of r) = Some days →
       provider_calls served
       = (FetchTransactions (html_Parse env) gmailService (now env) days).2)
  ∧ (filter_of r ≠ "daily" → filter_of r ≠ "weekly" → filter_of r ≠ "monthly" →
     filter_of r ≠ "all" →
       StatusCode (response served) = StatusBadRequest
       ∧ body (response served) = encoded env (error_value "Invalid filter" StatusBadRequest)
       ∧ provider_calls served = []
       ∧ cache served = rc).
Proof.
  intros Hm Htoken Hmiss Hsrv. cbn zeta.
  do 4 (split; [reflexivity|]).
  rewrite (transactionsHandler_GET rc r Hm). cbn zeta.
  rewrite (lookup_miss rc r Hmiss). case_decide; [done|]. rewrite Hsrv. split.
  - intros days ->.
    destruct (FetchTransactions _ _ _ _) as [[transactions|appErr] calls]; [|done].
    cbn [snd]. by destruct (calculateSummary _ _).
  - intros Hd Hw Hmo Ha. rewrite (lookback_days_other _ Hd Hw Hmo Ha).
    cbn [response provider_calls cache].
    destruct (respondError_outcome
                (Header_Set "Access-Control-Allow-Credentials" "true"
                   (Header_Set "Access-Control-Allow-Origin" (FRONTEND_URL env) new_writer))
                StatusBadRequest "Invalid filter") as [-> ->]; done.
Qed.

End HttpLayer.

Section HttpExamples.
Import types gmail googleapi services main FieldSpec HttpSpec.

Lemma empty_cache_miss (env : Env) (r : Request) : cache_miss env empty_cache r.
Proof. intros cached resp [Hget _]. by vm_compute in Hget. Qed.

Lemma warm_cache_hit :
  cache_hit sample_env warm_cache (get []) sample_stored sample_response.
Proof. split; by vm_compute. Qed.

(** Without a token and without a cached entry: 401. *)
Lemma missing_token_unauthorized_witness :
  Method (get [("filter", "daily")]) = "GET"
  ∧ blank (token_of (get [("filter", "daily")]))
  ∧ cache_miss sample_env empty_cache (get [("filter", "daily")])
  ∧ StatusCode (response (transactionsHandler sample_env empty_cache
                            (get [("filter", "daily")]))) = 401
  ∧ provider_calls (transactionsHandler sample_env empty_cache
                      (get [("filter", "daily")])) = [].
Proof.
  pose proof (missing_token_unauthorized sample_env empty_cache
                (get [("filter", "daily")]) eq_refl blank_empty
                (empty_cache_miss sample_env _)) as (Hs & _ & Hc & _).
  split; [reflexivity|]. split; [exact blank_empty|].
  split; [apply empty_cache_miss|]. by split.
Defined.

(** C1.  The handler at a request without any token, over a cache that
    holds a valid entry for the filter's key: it answers 200 with the
    cached summary and transactions, where C1 has 401 and no transaction
    payload whatever the cache holds.  The lookup of the cache comes before
    the token is read.  The same request over an empty cache gets 401 with
    the missing-token body, and so does a refresh without a token over the
    same cache, where the token is checked first. *)
Theorem missing_token_served_from_cache :
  token_of (get []) = ""
  ∧ redis_Get warm_cache (getCacheKey (filter_of (get []))) = Some sample_stored
  ∧ StatusCode (response (transactionsHandler sample_env warm_cache (get []))) = 200
  ∧ body (response (transactionsHandler sample_env warm_cache (get [])))
    = sample_stored +:+ line_feed
  ∧ has_substring "1234.5"
      (body (response (transactionsHandler sample_env warm_cache (get [])))) = true
  ∧ StatusCode (response (transactionsHandler sample_env empty_cache (get []))) = 401
  ∧ body (response (transactionsHandler sample_env empty_cache (get [])))
    = encoded sample_env
        (error_value "Missing access token in query string" StatusUnauthorized)
  ∧ StatusCode (response (refresh.refreshHandler sample_env warm_cache (get []))) = 401
  ∧ body (response (refresh.refreshHandler sample_env warm_cache (get [])))
    = encoded sample_env
        (error_value "Missing access token in query string" StatusUnauthorized).
Proof. repeat split; by vm_compute. Qed.

(** A second request for the same filter is served from the cache. *)
Lemma cache_hit_served_witness :
  Method (get []) = "GET"
  ∧ cache_hit sample_env warm_cache (get []) sample_stored sample_response
  ∧ body (response (transactionsHandler sample_env warm_cache (get [])))
    = sample_stored +:+ line_feed
  ∧ provider_calls (transactionsHandler sample_env warm_cache (get [])) = [].
Proof.
  pose proof (cache_hit_served sample_env warm_cache (get []) sample_stored
                sample_response eq_refl warm_cache_hit) as (Hb & _ & Hc & _).
  split; [reflexivity|]. split; [exact warm_cache_hit|]. split; [|exact Hc].
  rewrite Hb. by vm_compute.
Defined.

Lemma append_line_feed_ne (s : string) : s +:+ line_feed ≠ s.
Proof.
  intros H. apply (f_equal String.length) in H.
  rewrite string_length_append in H. cbn in H. lia.
Qed.

(** C5 as stated fails: the entry the program stored is valid, and the
    body served from it is the stored bytes with a line feed after them,
    which are not the stored bytes. *)
Lemma cache_hit_not_byte_equal :
  cache_hit sample_env warm_cache (get []) sample_stored sample_response
  ∧ body (response (transactionsHandler sample_env warm_cache (get []))) ≠ sample_stored.
Proof.
  split; [exact warm_cache_hit|].
  assert (body (response (transactionsHandler sample_env warm_cache (get [])))
          = sample_stored +:+ line_feed) as -> by (by vm_compute).
  apply append_line_feed_ne.
Qed.

(** An unknown filter with a token: 400 and no call; a known one fetches. *)
Lemma filter_lookback_witness :
  Method (get [("filter", "unknown"); ("access_token", "ya29.token")]) = "GET"
  ∧ strings.TrimSpace (token_of (get [("filter", "unknown"); ("access_token", "ya29.token")]))
    ≠ ""
  ∧ cache_miss sample_env empty_cache
      (get [("filter", "unknown"); ("access_token", "ya29.token")])
  ∧ NewGmailServiceWithClient sample_env "ya29.token" = inl sample_mailbox
  ∧ StatusCode (response (transactionsHandler sample_env empty_cache
                   (get [("filter", "unknown"); ("access_token", "ya29.token")]))) = 400
  ∧ provider_calls (transactionsHandler sample_env empty_cache
                      (get [("filter", "unknown"); ("access_token", "ya29.token")])) = [].
Proof.
  assert (strings.TrimSpace
            (token_of (get [("filter", "unknown"); ("access_token", "ya29.token")])) ≠ "")
    as Htoken by (by vm_compute).
  pose proof (filter_lookback sample_env empty_cache
                (get [("filter", "unknown"); ("access_token", "ya29.token")])
                sample_mailbox eq_refl Htoken (empty_cache_miss sample_env _) eq_refl)
    as (_ & _ & _ & _ & _ & H).
  destruct H as (Hs & _ & Hc & _); try discriminate.
  split; [reflexivity|]. split; [exact Htoken|].
  split; [apply empty_cache_miss|]. split; [reflexivity|]. by split.
Defined.

(** C8 as stated fails: when the Gmail client cannot be built, the request
    with a token, without a cache hit and with an unknown filter is
    answered 500 before the filter is looked at. *)
Lemma unknown_filter_without_client :
  strings.TrimSpace (token_of (get [("filter", "unknown"); ("access_token", "ya29.token")]))
    ≠ ""
  ∧ cache_miss no_client_env empty_cache
      (get [("filter", "unknown"); ("access_token", "ya29.token")])
  ∧ StatusCode (response (transactionsHandler no_client_env empty_cache
                   (get [("filter", "unknown"); ("access_token", "ya29.token")]))) = 500.
Proof.
  split; [by vm_compute|]. split; [apply empty_cache_miss|]. by vm_compute.
Qed.

End HttpExamples.

(* --------------------------------------------------------------------- *)
(** ** More about the summarizer *)

Section SummarizerMore.
Import types GoTime main SummarySpec SummaryMore.

Lemma weekly_step_daily (st : Time * gmap string float) (txn : Transaction) :
  weekly_step st txn = daily_step st txn.
Proof.
  destruct st as [m tot]. unfold weekly_step, daily_step.
  destruct (Parse layoutISO (Date txn)) as [t|e] eqn:Hp; [|done].
  by apply Format_Parse_ISO in Hp as [-> _].
Qed.

Lemma weekly_fold_daily (txs : list Transaction) (st : Time * gmap string float) :
  fold_left weekly_step txs st = fold_left daily_step txs st.
Proof.
  revert st. induction txs as [|t txs IH]; intros st; [done|].
  cbn [fold_left]. by rewrite weekly_step_daily, IH.
Qed.

Lemma IsZero_spec (t : Time) : IsZero t = true ↔ t = zero.
Proof.
  destruct t as [y m d]. unfold IsZero, zero. cbn [year month day].
  rewrite !andb_true_iff, !Z.eqb_eq. split; [intros [[-> ->] ->]; done|].
  by intros [= -> -> ->].
Qed.

Lemma pred_day_near (k : Z) (t : Time) :
  0 ≤ k < 30 → near k t → near (k + 1) (pred_day t).
Proof.
  intros Hk [(Hy & Hm & Hd) Hnear]. destruct t as [y m d].
  cbn [year month day] in *. unfold pred_day, near, valid_date. cbn [year month day].
  destruct (Z.ltb_spec 1 d).
  { cbn [year month day]. split; [lia|]. destruct Hnear as [?|(-> & -> & ?)]; lia. }
  destruct (Z.ltb_spec 1 m).
  { cbn [year month day]. destruct Hnear as [?|(-> & -> & ?)]; [|lia].
    split; [|by left]. split; [lia|]. split; [lia|].
    unfold daysIn. repeat case_match; lia. }
  cbn [year month day]. destruct Hnear as [?|(-> & -> & ?)]; [|lia].
  assert (m = 1) as -> by lia.
  split; [split; [lia|]; split; [lia|]; by vm_compute|].
  destruct (decide (y = 1)) as [->|]; [right|left]; lia.
Qed.

Lemma iter_pred_day_near (n : nat) (t : Time) :
  (n ≤ 30)%nat → near 0 t → near (Z.of_nat n) (Nat.iter n pred_day t).
Proof.
  intros Hn Ht. induction n as [|n IH]; [done|].
  cbn [Nat.iter]. replace (Z.of_nat (S n)) with (Z.of_nat n + 1) by lia.
  apply pred_day_near; [lia|]. apply IH. lia.
Qed.

Lemma AddDays_back_valid (t : Time) (i : Z) :
  valid_date t → After t zero = true → 0 ≤ i ≤ 30 → valid_date (AddDays t (- i)).
Proof.
  intros Hv Hafter Hi.
  assert (near 0 t) as Hnear.
  { split; [done|]. left. destruct Hv as (Hy & _). destruct t as [y m d].
    unfold zero in Hafter. after_cases. }
  destruct (decide (i = 0)) as [->|Hne]; [done|].
  unfold AddDays. destruct (Z.leb_spec 0 (- i)); [lia|].
  replace (- - i) with i by lia.
  apply (iter_pred_day_near (Z.to_nat i)) in Hnear as [? _]; [done|lia].
Qed.

Lemma week_fold (maxDate : Time) (tot : gmap string float) :
  fold_left (week_step maxDate tot) (seqZ 0 14) (0%float, 0%float)
  = (float_sum ((λ i, map_at tot (Format (AddDays maxDate (- i)) layoutISO)) <$> seqZ 0 7),
     float_sum ((λ i, map_at tot (Format (AddDays maxDate (- i)) layoutISO)) <$> seqZ 7 7)).
Proof. reflexivity. Qed.

(** X1. The "weekly" branch: the seven days that end on the latest date
    against the seven days before them. *)
Theorem weekly_two_weeks (txs : list Transaction) (latest : Time) :
  latest_date txs latest → After latest zero = true →
  calculateSummary txs "weekly"
  = inl (mkSummary (weekTotal txs latest 0) (weekTotal txs latest 7)
           (change_of (weekTotal txs latest 0) (weekTotal txs latest 7))).
Proof.
  intros Hlatest Hafter. unfold calculateSummary.
  case_decide; [discriminate|]. case_decide; [|done].
  rewrite weekly_fold_daily, daily_fold_split, (daily_maxDate txs latest) by done.
  destruct (IsZero latest) eqn:Hzero.
  { apply IsZero_spec in Hzero as ->. done. }
  destruct Hlatest as [(t0 & Ht0 & Hp0) _].
  pose proof (Format_Parse_ISO _ _ Hp0) as [_ Hv].
  rewrite week_fold.
  assert (∀ from, 0 ≤ from ≤ 7 →
            float_sum ((λ i, map_at (fold_left (group_step dailyKey Amount) txs ∅)
                               (Format (AddDays latest (- i)) layoutISO)) <$> seqZ from 7)
            = weekTotal txs latest from) as Hweek.
  { intros from Hfrom. unfold weekTotal. f_equal. apply list_fmap_ext.
    intros k i Hi. apply lookup_seqZ in Hi as [-> Hk].
    apply daily_totals_at, AddDays_back_valid; [done..|lia]. }
  by rewrite !Hweek by lia.
Qed.

Lemma maxDate_zero_iff (txs : list Transaction) :
  fold_left later (omap dateOf txs) zero = zero ↔ none_after_zero txs.
Proof.
  destruct (fold_later_spec (omap dateOf txs) zero) as (Hz & Hall & Hin).
  set (r := fold_left later (omap dateOf txs) zero) in *. split.
  - intros Hr t d Ht Hp. rewrite <- Hr. apply Hall, elem_of_omap_dateOf. eauto.
  - intros Hnone. destruct Hin as [Hr|Hr]; [done|].
    apply elem_of_omap_dateOf in Hr as (t & Ht & Hp).
    apply not_after_antisym; [by eapply Hnone|done].
Qed.

Lemma dates_error_period (txs : list Transaction) (period : string) :
  period = "daily" ∨ period = "weekly" →
  (calculateSummary txs period = inr "no valid transaction dates found" ↔ none_after_zero txs)
  ∧ (∀ e, calculateSummary txs period = inr e → e = "no valid transaction dates found").
Proof.
  intros Hperiod. unfold calculateSummary.
  assert (∀ tot (rest : Time → Summary),
            ((if IsZero (fold_left later (omap dateOf txs) zero)
              then inr "no valid transaction dates found" else inl (rest tot))
             = (inr "no valid transaction dates found" : Summary + error)
             ↔ none_after_zero txs)
            ∧ ∀ e, (if IsZero (fold_left later (omap dateOf txs) zero)
                    then inr "no valid transaction dates found" else inl (rest tot))
                   = (inr e : Summary + error) → e = "no valid transaction dates found")
    as Hguard.
  { intros tot rest. rewrite <- maxDate_zero_iff, <- IsZero_spec.
    destruct (IsZero _); [|split; [split|]; done].
    split; [done|]. by intros e [= <-]. }
  destruct Hperiod as [-> | ->].
  - case_decide; [|done]. rewrite daily_fold_split.
    apply (Hguard (fold_left later (omap dateOf txs) zero)
             (λ maxDate, mkSummary _ _ _)).
  - case_decide; [discriminate|]. case_decide; [|done].
    rewrite weekly_fold_daily, daily_fold_split.
    destruct (fold_left (week_step _ _) _ _) as [cur prev].
    apply (Hguard (fold_left later (omap dateOf txs) zero)
             (λ maxDate, mkSummary cur prev (change_of cur prev))).
Qed.

(** X2. The "daily" and the "weekly" branch fail exactly when no transaction
    has a date later than 0001-01-01, and with one message. *)
Theorem dated_periods_fail_iff (txs : list Transaction) :
  (calculateSummary txs "daily" = inr "no valid transaction dates found"
   ↔ none_after_zero txs)
  ∧ (calculateSummary txs "weekly" = inr "no valid transaction dates found"
     ↔ none_after_zero txs)
  ∧ (∀ e, calculateSummary txs "daily" = inr e ∨ calculateSummary txs "weekly" = inr e →
          e = "no valid transaction dates found").
Proof.
  destruct (dates_error_period txs "daily" (or_introl eq_refl)) as [Hd Hd'].
  destruct (dates_error_period txs "weekly" (or_intror eq_refl)) as [Hw Hw'].
  split; [done|]. split; [done|]. intros e [He|He]; auto.
Qed.

Lemma monthly_keys (txs : list Transaction) (k : string) :
  k ∈ map_keys (fold_left monthly_step txs ∅) ↔ month_present txs k.
Proof.
  rewrite monthly_fold_group, elem_of_map_keys, group_fold_dom, lookup_empty.
  split; [intros [[? ?]|?]; done|by right].
Qed.

Lemma undated_no_month (txs : list Transaction) :
  undated txs ↔ ∀ k, ¬ month_present txs k.
Proof.
  unfold undated, month_present, monthKey, dateOf. split.
  - intros Hun k (t & Ht & Hk). specialize (Hun t Ht).
    destruct (Parse layoutISO (Date t)); done.
  - intros Hno t Ht. destruct (Parse layoutISO (Date t)) as [d|] eqn:Hp; [|done].
    exfalso. apply (Hno (Format d layoutMonth)). exists t. by rewrite Hp.
Qed.

(** X3. The "monthly" branch fails exactly when no transaction has a date
    that parses, and with one message. *)
Theorem monthly_fails_iff (txs : list Transaction) :
  (calculateSummary txs "monthly" = inr "no valid transaction months found" ↔ undated txs)
  ∧ (∀ e, calculateSummary txs "monthly" = inr e → e = "no valid transaction months found").
Proof.
  unfold calculateSummary.
  do 2 (case_decide; [discriminate|]). case_decide; [|done].
  rewrite undated_no_month.
  pose proof (monthly_keys txs) as Hkeys.
  destruct (map_keys (fold_left monthly_step txs ∅)) as [|k ks] eqn:Hm.
  - rewrite decide_True by done. split; [|by intros e [= <-]].
    split; [|done]. intros _ k Hk. apply Hkeys in Hk. by apply elem_of_nil in Hk.
  - rewrite decide_False by done. split; [|done]. split; [done|].
    intros Hno. exfalso. apply (Hno k), Hkeys. by left.
Qed.

Lemma fold_left_skip {A B} (step : B → A → B) (P : A → Prop) `{!∀ x, Decision (P x)}
    (l : list A) (st : B) :
  (∀ st x, ¬ P x → step st x = st) →
  fold_left step l st = fold_left step (filter P l) st.
Proof.
  intros Hskip. revert st. induction l as [|x l IH]; intros st; [done|].
  rewrite filter_cons. cbn [fold_left]. case_decide as HP.
  - cbn [fold_left]. apply IH.
  - rewrite (Hskip st x HP). apply IH.
Qed.

Lemma undated_step (txn : Transaction) :
  ¬ dated txn →
  (∀ st, daily_step st txn = st) ∧ (∀ st, weekly_step st txn = st)
  ∧ (∀ m, monthly_step m txn = m).
Proof.
  unfold dated, dateOf, daily_step, weekly_step, monthly_step. intros Hno.
  destruct (Parse layoutISO (Date txn)); [by destruct Hno|].
  split; [by intros []|]. split; [by intros []|done].
Qed.

(** X4. In the three comparing periods a transaction whose date does not parse
    counts for nothing: the summary is that of the list without it. *)
Theorem malformed_dates_skipped (txs : list Transaction) :
  Forall (λ period, calculateSummary txs period = calculateSummary (filter dated txs) period)
         comparing.
Proof.
  repeat apply Forall_cons_2; [..|apply Forall_nil_2]; unfold calculateSummary.
  - case_decide; [|done].
    by rewrite (fold_left_skip daily_step dated txs)
      by (intros st x Hx; by apply undated_step).
  - case_decide; [discriminate|]. case_decide; [|done].
    by rewrite (fold_left_skip weekly_step dated txs)
      by (intros st x Hx; by apply undated_step).
  - do 2 (case_decide; [discriminate|]). case_decide; [|done].
    by rewrite (fold_left_skip monthly_step dated txs)
      by (intros st x Hx; by apply undated_step).
Qed.

Lemma singleton_list (l : list string) (k : string) :
  NoDup l → (∀ x, x ∈ l ↔ x = k) → l = [k].
Proof.
  intros Hnd Hin. destruct l as [|a [|b l]].
  - exfalso. eapply not_elem_of_nil, Hin. done.
  - f_equal. apply Hin. by left.
  - exfalso. assert (a = k) as -> by (apply Hin; by left).
    assert (b = k) as -> by (apply Hin; right; by left).
    apply NoDup_cons in Hnd as [Hnot _]. apply Hnot. by left.
Qed.

(** X5. The "monthly" branch when the dates that parse fall in one month:
    nothing to compare with, so Previously and the change are 0. *)
Theorem monthly_single_month (txs : list Transaction) (k : string) :
  month_present txs k → (∀ k', month_present txs k' → k' = k) →
  calculateSummary txs "monthly" = inl (mkSummary (monthTotal txs k) 0%float 0%float).
Proof.
  intros Hk Honly. unfold calculateSummary.
  do 2 (case_decide; [discriminate|]). case_decide; [|done].
  assert (map_keys (fold_left monthly_step txs ∅) = [k]) as Hkeys.
  { apply singleton_list; [apply NoDup_map_keys|].
    intros x. rewrite monthly_keys. split; [apply Honly|by intros ->]. }
  rewrite Hkeys. cbn -[map_at]. rewrite monthly_fold_group, group_fold_lookup.
  done.
Qed.

Lemma monthly_single_month_witness :
  month_present march_only "2024-03"
  ∧ (∀ k', month_present march_only k' → k' = "2024-03")
  ∧ calculateSummary march_only "monthly" = inl (mkSummary 8.5%float 0%float 0%float).
Proof.
  assert (month_present march_only "2024-03") as Hk.
  { exists (txn "2024-03-01" 7%float). split; [by left|by vm_compute]. }
  assert (∀ k', month_present march_only k' → k' = "2024-03") as Honly.
  { intros k' (t & Ht & Hkey). unfold march_only in Ht.
    repeat (apply elem_of_cons in Ht as [->|Ht]); [..|by apply elem_of_nil in Ht];
      vm_compute in Hkey; congruence. }
  split; [done|]. split; [done|].
  exact (monthly_single_month march_only "2024-03" Hk Honly).
Defined.



Lemma weekly_two_weeks_witness :
  latest_date three_weeks (mkTime 2024 3 5)
  ∧ After (mkTime 2024 3 5) zero = true
  ∧ calculateSummary three_weeks "weekly" = inl (mkSummary 10%float 8%float 25%float).
Proof.
  assert (latest_date three_weeks (mkTime 2024 3 5)) as Hl.
  { split.
    - exists (txn "2024-03-05" 4%float). split; [|done]. right. by left.
    - intros t d' Ht Hd. unfold three_weeks in Ht.
      repeat (apply elem_of_cons in Ht as [->|Ht]); [..|by apply elem_of_nil in Ht];
        vm_compute in Hd; injection Hd as <-; done. }
  split; [done|]. split; [done|].
  exact (weekly_two_weeks three_weeks (mkTime 2024 3 5) Hl eq_refl).
Defined.

End SummarizerMore.

(* --------------------------------------------------------------------- *)
(** ** More about the field extractor *)

Section FieldExtractorMore.
Import types gmail googleapi GoTime regexp services SummarySpec RegexpSpec FieldSpec FieldMore.

Lemma isDigit_not_dot (c : ascii) : isDigit c = true → is_dot c = false.
Proof.
  unfold isDigit, is_dot. rewrite byte_val_eqb, andb_true_iff, !Z.leb_le.
  intros [H1 H2]. apply Z.eqb_neq. change (byte_val ".") with 46. lia.
Qed.

(** On digits and dots [readFloat] fails on a second dot or for want of
    a digit. *)
Lemma readFloat_None_iff (s : string) (mantissa frac : Z) (sawdot sawdigits : bool) :
  all_bytes digit_or_dot s = true →
  strconv.readFloat s mantissa frac sawdot sawdigits = None
  ↔ (2 ≤ count_bytes is_dot s + (if sawdot then 1 else 0))%nat
    ∨ (count_bytes isDigit s = 0%nat ∧ sawdigits = false).
Proof.
  revert mantissa frac sawdot sawdigits.
  induction s as [|c s IH]; intros mantissa frac sawdot sawdigits Hall;
    cbn [strconv.readFloat count_bytes].
  - destruct sawdot, sawdigits; cbn [Nat.add]; (split; [intros H|intros [H|[_ H]]]);
      first [done | lia | by right].
  - cbn [all_bytes] in Hall. apply andb_true_iff in Hall as [Hc Hall].
    destruct (isDigit c) eqn:Hd.
    + rewrite (isDigit_not_dot c Hd). rewrite IH by done. cbn [Nat.add].
      split; (intros [?|[? ?]]; [by left|done]).
    + unfold digit_or_dot in Hc. rewrite Hd in Hc. cbn [orb] in Hc.
      change (is_dot c) with (Ascii.eqb c "."). rewrite Hc. cbn [Nat.add].
      destruct sawdot.
      * split; [intros _; left; lia|done].
      * rewrite IH by done. split; (intros [?|[? ?]]; [left; lia|by right]).
Qed.

Lemma append_inv_head (s a b : string) : s +:+ a = s +:+ b → a = b.
Proof.
  induction s as [|c s IH]; [done|].
  change (String c s +:+ ?x) with (String c (s +:+ x)). intros [= H]. by apply IH.
Qed.

Lemma syntax_not_range (s : string) :
  strconv.NumError_Error (strconv.ErrRange s) ≠ strconv.NumError_Error (strconv.ErrSyntax s).
Proof.
  unfold strconv.NumError_Error, quote.
  intros H. do 2 apply append_inv_head in H. done.
Qed.

(** X7. When both patterns match, the amount is refused as invalid syntax
    exactly when its text, the commas removed, has a second dot or no
    digit. *)
Theorem amount_syntax_error_iff (body : string) :
  FindStringSubmatch amountPattern body ≠ [] →
  FindStringSubmatch datePattern body ≠ [] →
  extractFields body
  = inr ("could not parse amount: "
         +:+ strconv.NumError_Error (strconv.ErrSyntax (amount_text body)))
  ↔ (2 ≤ count_bytes is_dot (amount_text body))%nat
    ∨ count_bytes isDigit (amount_text body) = 0%nat.
Proof.
  intros Hamount Hdate. unfold extractFields.
  destruct (length (FindStringSubmatch amountPattern body) <? 2)%nat eqn:Ha.
  { by apply (no_match_iff amountPattern body eq_refl) in Ha. }
  destruct (length (FindStringSubmatch datePattern body) <? 2)%nat eqn:Hd.
  { by apply (no_match_iff datePattern body eq_refl) in Hd. }
  cbn [orb]. fold (amount_text body).
  pose proof (readFloat_None_iff (amount_text body) 0 0 false false
                (amount_text_digits_dots body)) as Hread.
  rewrite Nat.add_0_r in Hread.
  assert (count_bytes isDigit (amount_text body) = 0%nat ∧ false = false
          ↔ count_bytes isDigit (amount_text body) = 0%nat) as Hsimpl by tauto.
  rewrite Hsimpl in Hread. rewrite <- Hread. clear Hread Hsimpl.
  unfold strconv.ParseFloat.
  destruct (strconv.readFloat (amount_text body) 0 0 false false) as [[mantissa frac]|].
  - split; [|done]. destruct (PrimFloat.is_infinity _).
    + intros H%(inj inr)%append_inv_head. by apply syntax_not_range in H.
    + destruct (Parse layoutDMY _); [done|].
      intros H%(inj inr). exfalso. revert H. cbv [String.append]. discriminate.
  - done.
Qed.

Lemma amount_syntax_error_iff_witness :
  FindStringSubmatch amountPattern "Paid Rs. 1.2.3 on 05-03-24" ≠ []
  ∧ FindStringSubmatch datePattern "Paid Rs. 1.2.3 on 05-03-24" ≠ []
  ∧ amount_text "Paid Rs. 1.2.3 on 05-03-24" = "1.2.3"
  ∧ extractFields "Paid Rs. 1.2.3 on 05-03-24"
    = inr ("could not parse amount: strconv.ParseFloat: parsing "
           +:+ quote "1.2.3" +:+ ": invalid syntax").
Proof.
  assert (FindStringSubmatch amountPattern "Paid Rs. 1.2.3 on 05-03-24" ≠ []) as Ha
    by (by vm_compute).
  assert (FindStringSubmatch datePattern "Paid Rs. 1.2.3 on 05-03-24" ≠ []) as Hd
    by (by vm_compute).
  split; [done|]. split; [done|]. split; [by vm_compute|].
  apply (proj2 (amount_syntax_error_iff "Paid Rs. 1.2.3 on 05-03-24" Ha Hd)).
  left. vm_compute. lia.
Defined.

Lemma lit_byte (c d : ascii) : (byte_val c =? byte_val d) = true → c = d.
Proof. intros H%Z.eqb_eq. by apply byte_val_inj. Qed.

(** The text of the group of [datePattern]: two digits, a dash, two
    digits, a dash, two digits. *)
Lemma date_group_shape (body : string) :
  FindStringSubmatch datePattern body ≠ [] →
  ∃ d1 d2 m1 m2 y1 y2,
    Forall (λ c, isDigit c = true) [d1; d2; m1; m2; y1; y2]
    ∧ date_text body = dmy_string d1 d2 m1 m2 y1 y2.
Proof.
  unfold date_text, FindStringSubmatch.
  destruct (search _ datePattern body) as [[whole cs]|] eqn:Hsearch; [intros _|done].
  apply search_sound in Hsearch as [s0 Hhere].
  apply run_sound in Hhere as (s' & cs' & Hm & [= _ <-]).
  change (at1 _) with (capture 1 cs').
  do 3 (apply matches_after_cap_free in Hm as [? Hm]; [|done]).
  inversion Hm as [| | | | | | | i' r s1 cs1 s2 cs2 Hgroup]; subst.
  cbn [capture]. rewrite decide_True by done.
  assert (∀ c, ((48 <=? c) && (c <=? 57)) = true → c < 128) as Hdigit.
  { intros c. rewrite andb_true_iff, Z.leb_le. lia. }
  assert (∀ c, (c =? byte_val "-") = true → c < 128) as Hdash.
  { intros c Hc%Z.eqb_eq. by subst. }
  cbn [rep replicate cat foldr] in Hgroup.
  apply matches_byte_then in Hgroup as (d1 & ? & -> & Hd1 & Hgroup); [|done].
  apply matches_byte_then in Hgroup as (d2 & ? & -> & Hd2 & Hgroup); [|done].
  apply matches_byte_then in Hgroup as (h1 & ? & -> & Hh1 & Hgroup); [|done].
  apply lit_byte in Hh1 as ->.
  apply matches_byte_then in Hgroup as (m1 & ? & -> & Hm1 & Hgroup); [|done].
  apply matches_byte_then in Hgroup as (m2 & ? & -> & Hm2 & Hgroup); [|done].
  apply matches_byte_then in Hgroup as (h2 & ? & -> & Hh2 & Hgroup); [|done].
  apply lit_byte in Hh2 as ->.
  apply matches_byte_then in Hgroup as (y1 & ? & -> & Hy1 & Hgroup); [|done].
  apply matches_byte in Hgroup as (y2 & -> & Hy2); [|done].
  exists d1, d2, m1, m2, y1, y2. split; [by repeat constructor|].
  cbn [String.length]. replace (_ - _)%nat with 8%nat by lia. done.
Qed.

Lemma atoi_digits2 (a b : ascii) :
  isDigit a = true → isDigit b = true →
  atoi (String a (String b "")) = Some (val2 a b).
Proof.
  intros Ha Hb. unfold atoi.
  destruct (Ascii.eqb_spec a "-") as [->|_]; [by vm_compute in Ha|].
  destruct (Ascii.eqb_spec a "+") as [->|_]; [by vm_compute in Ha|].
  cbn [all_digits_val]. rewrite Ha, Hb. unfold val2. f_equal; lia.
Qed.

(** [time.Parse] under "02-01-06" on such a text: the calendar date of
    the century the two-digit year stands for, or an error. *)
Lemma Parse_DMY_digits (d1 d2 m1 m2 y1 y2 : ascii) :
  Forall (λ c, isDigit c = true) [d1; d2; m1; m2; y1; y2] →
  let t := dmy_date d1 d2 m1 m2 y1 y2 in
  (valid_date t → Parse layoutDMY (dmy_string d1 d2 m1 m2 y1 y2) = inl t)
  ∧ (¬ valid_date t → ∃ e, Parse layoutDMY (dmy_string d1 d2 m1 m2 y1 y2) = inr e).
Proof.
  intros H.
  apply Forall_cons in H as [Hd1 H]. apply Forall_cons in H as [Hd2 H].
  apply Forall_cons in H as [Hm1 H]. apply Forall_cons in H as [Hm2 H].
  apply Forall_cons in H as [Hy1 H]. apply Forall_cons in H as [Hy2 _].
  intros t.
  pose proof (val2_range d1 d2 Hd1 Hd2) as Hd. pose proof (val2_range m1 m2 Hm1 Hm2) as Hm.
  pose proof (val2_range y1 y2 Hy1 Hy2) as Hy.
  unfold Parse, layoutDMY, dmy_string. cbn [parse_loop].
  cbn [parse_chunk]. rewrite getnum2_digits by done. cbn [skip_literal].
  rewrite Ascii.eqb_refl. rewrite getnum2_digits by done. cbn [f_year f_month f_day].
  destruct ((val2 m1 m2 <=? 0) || (12 <? val2 m1 m2)) eqn:Hrange.
  { split; [|by eauto]. intros (_ & Hmonth & _). cbn [month t dmy_date] in Hmonth.
    apply orb_true_iff in Hrange as [?%Z.leb_le|?%Z.ltb_lt]; lia. }
  apply orb_false_iff in Hrange as [Hlo%Z.leb_gt Hhi%Z.ltb_ge].
  cbn [skip_literal]. rewrite Ascii.eqb_refl.
  replace (2 <=? Z.of_nat (String.length (String y1 (String y2 "")))) with true by done.
  cbn [string_take string_drop]. rewrite atoi_digits2 by done.
  cbn [f_year f_month f_day]. rewrite decide_True by done.
  replace (val2 m1 m2 <? 0) with false by (symmetry; apply Z.ltb_ge; lia).
  replace (val2 d1 d2 <? 0) with false by (symmetry; apply Z.ltb_ge; lia).
  fold (century (val2 y1 y2)).
  destruct ((val2 d1 d2 <? 1) || _) eqn:Hday.
  - split; [|by eauto]. intros (_ & _ & Hdd). cbn [year month day t dmy_date] in Hdd.
    apply orb_true_iff in Hday as [?%Z.ltb_lt|?%Z.ltb_lt]; lia.
  - split; [done|]. intros Hnot. exfalso. apply Hnot.
    apply orb_false_iff in Hday as [?%Z.ltb_ge ?%Z.ltb_ge].
    unfold valid_date, t, dmy_date, century. cbn [year month day].
    split; [case_match; lia|]. split; [lia|]. split; [lia|done].
Qed.

Lemma century_range (yy : Z) : 0 ≤ yy ≤ 99 → 1969 ≤ century yy ≤ 2068.
Proof. intros H. unfold century. case_match; lia. Qed.

Lemma matched_both (body : string) :
  (length (FindStringSubmatch amountPattern body) <? 2)%nat
  || (length (FindStringSubmatch datePattern body) <? 2)%nat = false
  ↔ FindStringSubmatch amountPattern body ≠ [] ∧ FindStringSubmatch datePattern body ≠ [].
Proof.
  rewrite orb_false_iff.
  rewrite <- (no_match_iff amountPattern body eq_refl),
          <- (no_match_iff datePattern body eq_refl).
  destruct (length (FindStringSubmatch amountPattern body) <? 2)%nat,
           (length (FindStringSubmatch datePattern body) <? 2)%nat;
    (split; [intros [? ?]|intros [? ?]]; done).
Qed.

(** X8. When the amount parses, the date decides: a calendar date gives the
    transaction of that day, in the century the two-digit year stands for;
    anything else (a month 13, a 31 February) is a date error. *)
Theorem extractFields_date_outcome (body : string) (amount : float)
    (d1 d2 m1 m2 y1 y2 : ascii) :
  strconv.ParseFloat (amount_text body) = inl amount →
  date_text body = dmy_string d1 d2 m1 m2 y1 y2 →
  let t := dmy_date d1 d2 m1 m2 y1 y2 in
  (valid_date t →
     extractFields body
     = inl (mkTransaction (Format t layoutISO) amount "Transaction from HTML email"))
  ∧ (¬ valid_date t →
       ∃ e, extractFields body = inr ("could not parse date: " +:+ ParseError_Error e)).
Proof.
  intros Hamount Hdate t.
  assert (FindStringSubmatch amountPattern body ≠ []) as Ha.
  { intros Hnil. unfold amount_text in Hamount. by rewrite Hnil in Hamount. }
  assert (FindStringSubmatch datePattern body ≠ []) as Hd.
  { intros Hnil. unfold date_text in Hdate. by rewrite Hnil in Hdate. }
  destruct (date_group_shape body Hd) as (a1 & a2 & b1 & b2 & c1 & c2 & Hdigits & Hshape).
  rewrite Hdate in Hshape. injection Hshape as <- <- <- <- <- <-.
  destruct (Parse_DMY_digits d1 d2 m1 m2 y1 y2 Hdigits) as [Hvalid Hinvalid].
  unfold extractFields. rewrite (proj2 (matched_both body)) by done.
  fold (amount_text body) (date_text body). rewrite Hamount, Hdate. split.
  - intros Hv. by rewrite Hvalid.
  - intros Hv. destruct (Hinvalid Hv) as [e ->]. by exists e.
Qed.

Lemma extractFields_date_outcome_witness :
  strconv.ParseFloat (amount_text "Rs. 10 on 05-03-70") = inl 10%float
  ∧ date_text "Rs. 10 on 05-03-70" = dmy_string "0" "5" "0" "3" "7" "0"
  ∧ valid_date (dmy_date "0" "5" "0" "3" "7" "0")
  ∧ extractFields "Rs. 10 on 05-03-70"
    = inl (mkTransaction "1970-03-05" 10%float "Transaction from HTML email")
  ∧ date_text "Rs. 10 on 31-02-24" = dmy_string "3" "1" "0" "2" "2" "4"
  ∧ ¬ valid_date (dmy_date "3" "1" "0" "2" "2" "4")
  ∧ ∃ e, extractFields "Rs. 10 on 31-02-24"
         = inr ("could not parse date: " +:+ ParseError_Error e).
Proof.
  assert (valid_date (dmy_date "0" "5" "0" "3" "7" "0")) as Hv by (by vm_compute).
  assert (¬ valid_date (dmy_date "3" "1" "0" "2" "2" "4")) as Hn.
  { intros (_ & _ & _ & H). by vm_compute in H. }
  split; [by vm_compute|]. split; [by vm_compute|]. split; [done|]. split.
  - exact (proj1 (extractFields_date_outcome "Rs. 10 on 05-03-70" 10%float
                    "0" "5" "0" "3" "7" "0" eq_refl eq_refl) Hv).
  - split; [by vm_compute|]. split; [done|].
    exact (proj2 (extractFields_date_outcome "Rs. 10 on 31-02-24" 10%float
                    "3" "1" "0" "2" "2" "4" eq_refl eq_refl) Hn).
Defined.

(** A transaction the field extractor returns is well dated. *)
Lemma extractFields_well_dated (body : string) (tx : Transaction) :
  extractFields body = inl tx → well_dated tx.
Proof.
  unfold extractFields.
  destruct (_ || _) eqn:Hboth; [done|]. apply matched_both in Hboth as [Ha Hd].
  destruct (strconv.ParseFloat _) as [amount|]; [|done].
  destruct (date_group_shape body Hd) as (d1 & d2 & m1 & m2 & y1 & y2 & Hdigits & Hshape).
  unfold date_text in Hshape. rewrite Hshape.
  destruct (Parse_DMY_digits d1 d2 m1 m2 y1 y2 Hdigits) as [Hvalid Hinvalid].
  destruct (decide (valid_date (dmy_date d1 d2 m1 m2 y1 y2))) as [Hv|Hv].
  - rewrite (Hvalid Hv). intros [= <-]. split; [done|].
    exists (dmy_date d1 d2 m1 m2 y1 y2).
    split; [exact (Parse_Format_ISO _ Hv)|]. split; [done|].
    cbn [year dmy_date]. apply century_range, val2_range.
    + by apply (Forall_lookup_1 _ _ 4%nat y1) in Hdigits.
    + by apply (Forall_lookup_1 _ _ 5%nat y2) in Hdigits.
  - destruct (Hinvalid Hv) as [e ->]. done.
Qed.

End FieldExtractorMore.

(* --------------------------------------------------------------------- *)
(** ** More about the fetcher *)

Section FetcherMore.
Import types gmail googleapi GoTime regexp services main SummarySpec SummaryMore FieldSpec FieldMore.

Variable html_Parse : string → html.Node + error.

(** X9. A failed listing: one call to the provider and no more; the error is
    401 "unauthorized" when the provider refused with 401 or 403, and 500
    otherwise, and it carries the provider's text. *)
Theorem listing_failure (srv : Service) (now : Time) (days : Z) (err : api_error) :
  Messages_List srv (query_for now days) = inr err →
  ∃ appErr,
    FetchTransactions html_Parse srv now days
    = (inr appErr, [ListCall (query_for now days)])
    ∧ (refused err →
         appErr = mkAppError 401
                    ("unauthorized: insufficient authentication scopes: " +:+ Error_text err))
    ∧ (¬ refused err →
         appErr = mkAppError 500 ("unable to retrieve messages: " +:+ Error_text err)).
Proof.
  intros Hlist. unfold FetchTransactions. rewrite Hlist.
  eexists. split; [done|]. unfold refused.
  destruct err as [code text|text].
  - destruct (Z.eqb_spec code 403) as [->|H403].
    { split; [done|]. intros Hnot. exfalso. apply Hnot. eauto. }
    destruct (Z.eqb_spec code 401) as [->|H401].
    { split; [done|]. intros Hnot. exfalso. apply Hnot. eauto. }
    split; [|done]. intros (t & [[= ? ?]|[= ? ?]]); done.
  - split; [|done]. intros (t & [?|?]); done.
Qed.

Lemma length_omap_le {A B} (f : A → option B) (l : list A) :
  (length (omap f l) ≤ length l)%nat.
Proof.
  induction l as [|x l IH]; [done|]. cbn [omap list_omap length].
  destruct (f x); cbn [length]; lia.
Qed.

(** X10. A message that cannot be fetched is passed over like one that cannot
    be parsed: every listed message is asked for once, in the order of the
    listing, the others contribute as they would without it, and the call
    returns no error and at most one transaction per listed message. *)
Theorem get_failure_is_skipped (srv : Service) (now : Time) (days : Z)
    (before : list string) (id : string) (after : list string) (err : api_error) :
  Messages_List srv (query_for now days) = inl (before ++ id :: after) →
  Messages_Get srv id = inr err →
  ∃ txs,
    FetchTransactions html_Parse srv now days
    = (inl txs, ListCall (query_for now days) :: (GetCall <$> before ++ id :: after))
    ∧ txs = omap (contribution html_Parse srv) before
            ++ omap (contribution html_Parse srv) after
    ∧ (length txs ≤ length before + length after)%nat.
Proof.
  intros Hlist Hget. rewrite (FetchTransactions_listed _ _ _ _ _ Hlist).
  assert (omap (contribution html_Parse srv) (before ++ id :: after)
          = omap (contribution html_Parse srv) before
            ++ omap (contribution html_Parse srv) after) as ->.
  { rewrite omap_app. cbn [omap list_omap]. unfold contribution at 2. by rewrite Hget. }
  eexists. split; [done|]. split; [done|]. rewrite length_app.
  pose proof (length_omap_le (contribution html_Parse srv) before).
  pose proof (length_omap_le (contribution html_Parse srv) after). lia.
Qed.

Lemma contribution_well_dated (srv : Service) (id : string) (tx : Transaction) :
  contribution html_Parse srv id = Some tx → well_dated tx.
Proof.
  unfold contribution, parseTransactionEmail.
  destruct (Messages_Get srv id) as [message|]; [|done].
  case_decide; [done|].
  destruct (extractFields _) as [tx'|] eqn:Hfields; [|done].
  intros [= <-]. by eapply extractFields_well_dated.
Qed.

Lemma fetched_well_dated (srv : Service) (now : Time) (days : Z) (txs : list Transaction) :
  (FetchTransactions html_Parse srv now days).1 = inl txs → Forall well_dated txs.
Proof.
  destruct (Messages_List srv (query_for now days)) as [ids|err] eqn:Hlist.
  - rewrite (FetchTransactions_listed _ _ _ _ _ Hlist). cbn [fst]. intros [= <-].
    apply Forall_forall. intros tx (id & _ & Hc)%list_elem_of_omap.
    by eapply contribution_well_dated.
  - unfold FetchTransactions. by rewrite Hlist.
Qed.

Lemma well_dated_after_zero (tx : Transaction) :
  well_dated tx → ∃ t, Parse layoutISO (Date tx) = inl t ∧ After t zero = true.
Proof.
  intros (_ & t & Hp & _ & Hy). exists t. split; [done|].
  destruct t as [y m d]. cbn [year] in Hy. unfold After, zero. cbn [year month day].
  apply orb_true_iff. left. apply Z.ltb_lt. lia.
Qed.

(** Well-dated transactions always summarise, unless there are none. *)
Lemma well_dated_summary (txs : list Transaction) (period : string) :
  Forall well_dated txs → txs ≠ [] → ∃ s, calculateSummary txs period = inl s.
Proof.
  intros Hall Hne. destruct txs as [|tx txs]; [done|].
  apply Forall_cons in Hall as [(t & Hp & Hafter)%well_dated_after_zero _].
  assert (period = "daily" ∨ period = "weekly" →
          ∃ s, calculateSummary (tx :: txs) period = inl s) as Hdates.
  { intros Hperiod. destruct (calculateSummary (tx :: txs) period) as [s|e] eqn:Hs; [eauto|].
    destruct (dates_error_period (tx :: txs) period Hperiod) as [Hiff Honly].
    rewrite (Honly e Hs) in Hs. apply Hiff in Hs.
    rewrite (Hs tx t) in Hafter; [done|by left|done]. }
  destruct (decide (period = "daily")) as [Hd|Hd]; [by apply Hdates; left|].
  destruct (decide (period = "weekly")) as [Hw|Hw]; [by apply Hdates; right|].
  unfold calculateSummary. rewrite !decide_False by done.
  case_decide; [|eauto].
  destruct (map_keys _) as [|k ks] eqn:Hkeys; [|rewrite decide_False by done; eauto].
  exfalso. eapply not_elem_of_nil. rewrite <- Hkeys. apply monthly_keys.
  exists tx. split; [by left|]. unfold monthKey. by rewrite Hp.
Qed.

(** X11. What the fetcher returns the summarizer accepts: every transaction has
    the fixed description and a date in the form the summarizer parses, so
    a result that is not empty has a summary for every period. *)
Theorem fetched_transactions_summarise (srv : Service) (now : Time) (days : Z)
    (txs : list Transaction) :
  (FetchTransactions html_Parse srv now days).1 = inl txs →
  Forall well_dated txs
  ∧ (txs ≠ [] → ∀ period, ∃ s, calculateSummary txs period = inl s).
Proof.
  intros Hfetch. pose proof (fetched_well_dated _ _ _ _ Hfetch) as Hall.
  split; [done|]. intros Hne period. by apply well_dated_summary.
Qed.

End FetcherMore.

Section FetcherExamples.
Import types gmail googleapi GoTime regexp services main SummarySpec SummaryMore FieldSpec FieldMore.

Lemma listing_failure_witness :
  (∃ appErr,
     FetchTransactions html_ref.Parse denied_mailbox (mkTime 2024 3 6) 2
     = (inr appErr, [ListCall "after:2024/03/04 before:2024/03/06 subject:(transaction OR payment OR purchase OR UPI txn)"])
     ∧ Code appErr = 401)
  ∧ (∃ appErr,
       FetchTransactions html_ref.Parse broken_mailbox (mkTime 2024 3 6) 2
       = (inr appErr, [ListCall "after:2024/03/04 before:2024/03/06 subject:(transaction OR payment OR purchase OR UPI txn)"])
       ∧ Code appErr = 500).
Proof.
  split.
  - destruct (listing_failure html_ref.Parse denied_mailbox (mkTime 2024 3 6) 2 _ eq_refl)
      as (appErr & Hfetch & Hrefused & _).
    exists appErr. split; [exact Hfetch|]. rewrite Hrefused; [done|].
    eexists. by right.
  - destruct (listing_failure html_ref.Parse broken_mailbox (mkTime 2024 3 6) 2 _ eq_refl)
      as (appErr & Hfetch & _ & Hother).
    exists appErr. split; [exact Hfetch|]. rewrite Hother; [done|].
    intros (t & [?|?]); done.
Defined.

Lemma get_failure_is_skipped_witness :
  Messages_List lossy_mailbox (query_for (mkTime 2024 3 6) 2) = inl (["m1"] ++ "gone" :: ["m2"; "m3"])
  ∧ Messages_Get lossy_mailbox "gone" = inr (googleapi.other "connection reset")
  ∧ FetchTransactions html_ref.Parse lossy_mailbox (mkTime 2024 3 6) 2
    = (inl [mkTransaction "2024-03-05" 1234.5%float "Transaction from HTML email";
            mkTransaction "2024-02-01" 250%float "Transaction from HTML email"],
       [ListCall (query_for (mkTime 2024 3 6) 2);
        GetCall "m1"; GetCall "gone"; GetCall "m2"; GetCall "m3"]).
Proof.
  split; [done|]. split; [done|].
  destruct (get_failure_is_skipped html_ref.Parse lossy_mailbox (mkTime 2024 3 6) 2
              ["m1"] "gone" ["m2"; "m3"] _ eq_refl eq_refl) as (txs & Hfetch & Htxs & _).
  rewrite Hfetch, Htxs. by vm_compute.
Defined.

Lemma fetched_transactions_summarise_witness :
  (FetchTransactions html_ref.Parse sample_mailbox (mkTime 2024 3 6) 14).1
  = inl [mkTransaction "2024-03-05" 1234.5%float "Transaction from HTML email";
         mkTransaction "2024-02-01" 250%float "Transaction from HTML email"]
  ∧ ∃ s, calculateSummary
           [mkTransaction "2024-03-05" 1234.5%float "Transaction from HTML email";
            mkTransaction "2024-02-01" 250%float "Transaction from HTML email"] "weekly"
         = inl s.
Proof.
  assert ((FetchTransactions html_ref.Parse sample_mailbox (mkTime 2024 3 6) 14).1
          = inl [mkTransaction "2024-03-05" 1234.5%float "Transaction from HTML email";
                 mkTransaction "2024-02-01" 250%float "Transaction from HTML email"])
    as Hfetch by (by vm_compute).
  split; [done|].
  by apply (proj2 (fetched_transactions_summarise html_ref.Parse sample_mailbox
                     (mkTime 2024 3 6) 14 _ Hfetch)).
Defined.

End FetcherExamples.

(* --------------------------------------------------------------------- *)
(** ** More about the content extractor and the markup stripper *)

Section ContentMoreFacts.
Import gmail services html ContentSpec ContentMore.

(** X12. What the content extractor returns is a body of the tree: the body of
    the node itself when that decodes, and otherwise, unless it returns
    the empty string, the decoded body of a node below. *)
Theorem extractMessageContent_returns_a_body (part : MessagePart) :
  (∀ data, own_body part = Some data → extractMessageContent part = data)
  ∧ (extractMessageContent part ≠ "" →
     ∃ p, p ∈ preorder part ∧ own_body p = Some (extractMessageContent part)).
Proof.
  split.
  { intros data Hown. by rewrite extractMessageContent_unfold, Hown. }
  induction part as [mime body parts IH] using MessagePart_ind_parts.
  rewrite extractMessageContent_unfold.
  destruct (own_body (mkPart mime body parts)) as [data|] eqn:Hown.
  { intros _. exists (mkPart mime body parts). split; [|done].
    rewrite preorder_unfold. by left. }
  unfold range_parts. cbn [Parts].
  destruct (head _) as [content|] eqn:Hhead; [|done]. cbn [default from_option id].
  intros Hne. apply head_Some_elem_of in Hhead.
  apply list_elem_of_filter in Hhead as [_ Hin].
  apply list_elem_of_fmap in Hin as (p & -> & Hp).
  destruct (proj1 (Forall_forall _ _) IH p Hp Hne) as (q & Hq & Hbody).
  exists q. split; [|done]. rewrite preorder_unfold. right.
  apply list_elem_of_join. exists (preorder p). split; [done|].
  apply list_elem_of_fmap. by exists p.
Qed.

Lemma Node_ind_children (P : Node → Prop) :
  (∀ typ data children, Forall P children → P (mkNode typ data children)) →
  ∀ n, P n.
Proof.
  intros H. fix IH 1. intros [typ data children]. apply H.
  induction children as [|c cs IHcs]; constructor; [apply IH|apply IHcs].
Qed.

Lemma append_assoc (a b c : string) : (a +:+ b) +:+ c = a +:+ (b +:+ c).
Proof.
  induction a as [|x a IH]; [done|].
  change (String x a +:+ ?s) with (String x (a +:+ s)).
  change (String x (a +:+ b) +:+ c) with (String x ((a +:+ b) +:+ c)). by rewrite IH.
Qed.

Lemma append_empty_r (a : string) : a +:+ "" = a.
Proof.
  induction a as [|x a IH]; [done|].
  change (String x a +:+ "") with (String x (a +:+ "")). by rewrite IH.
Qed.

Lemma concat_strings_app (l1 l2 : list string) :
  concat_strings (l1 ++ l2) = concat_strings l1 +:+ concat_strings l2.
Proof.
  induction l1 as [|s l1 IH]; [done|].
  cbn [app concat_strings foldr]. fold (concat_strings (l1 ++ l2)) (concat_strings l1).
  by rewrite IH, append_assoc.
Qed.

Lemma traverse_node_texts (n : Node) (sb : string) :
  traverse n sb = sb +:+ concat_strings (node_texts n).
Proof.
  revert sb. induction n as [typ data children IH] using Node_ind_children. intros sb.
  cbn [traverse node_texts Typ Data Children]. rewrite concat_strings_app.
  rewrite <- append_assoc.
  assert ((if decide (typ = TextNode) then sb +:+ data else sb)
          = sb +:+ concat_strings (if decide (typ = TextNode) then [data] else [])) as ->.
  { case_decide; cbn [concat_strings foldr]; by rewrite ?append_empty_r. }
  generalize (sb +:+ concat_strings (if decide (typ = TextNode) then [data] else [])).
  clear sb. induction children as [|c cs IHcs]; intros sb.
  - by rewrite append_empty_r.
  - apply Forall_cons in IH as [Hc Hcs].
    rewrite IHcs by done. rewrite Hc, concat_strings_app. by rewrite append_assoc.
Qed.

End ContentMoreFacts.

Section StripperMore.
Import gmail services html ContentSpec ContentMore.

Variable html_Parse : string → html.Node + error.

(** X13. The markup stripper returns the text of the document: the data of its
    text nodes in document order, and nothing of its elements, comments or
    attributes; content that does not parse is returned as it is. *)
Theorem stripHTMLTags_text_nodes (htmlContent : string) :
  stripHTMLTags html_Parse htmlContent
  = match html_Parse htmlContent with
    | inl doc => concat_strings (node_texts doc)
    | inr _ => htmlContent
    end.
Proof.
  unfold stripHTMLTags. destruct (html_Parse htmlContent) as [doc|]; [|done].
  by rewrite traverse_node_texts.
Qed.

End StripperMore.

(* --------------------------------------------------------------------- *)
(** ** More about the HTTP layer *)

Section HttpMoreFacts.
Import types gmail googleapi services main SummarySpec SummaryMore FieldSpec FieldMore.
Import HttpSpec refresh HttpMore.

Variable env : Env.

(** The writer both handlers start from. *)
Lemma Header_respondError (w : ResponseWriter) (code : Z) (message : string) :
  Header (respondError env w code message)
  = <["Content-Type" := "application/json"]> (Header w).
Proof.
  unfold respondError, Encode, Write, WriteHeader, Header_Set. cbn [Header status body].
  destruct (json_Marshal env _); destruct (status w); done.
Qed.

Lemma Header_Encode (v : value) (w : ResponseWriter) : Header (Encode env v w) = Header w.
Proof.
  unfold Encode, Write, WriteHeader.
  destruct (json_Marshal env v); destruct (status w); done.
Qed.

Lemma Header_Write (data : string) (w : ResponseWriter) : Header (Write data w) = Header w.
Proof. unfold Write, WriteHeader. by destruct (status w). Qed.

Lemma StatusCode_respondError (w : ResponseWriter) (code : Z) (message : string) :
  status w = None → StatusCode (respondError env w code message) = code.
Proof.
  intros Hs. unfold respondError, Encode, StatusCode, Write, WriteHeader, Header_Set.
  cbn [Header status body]. rewrite Hs. cbn [status].
  by destruct (json_Marshal env _).
Qed.

Lemma StatusCode_Encode (v : value) (w : ResponseWriter) :
  status w = None → StatusCode (Encode env v w) = StatusOK.
Proof.
  intros Hs. unfold Encode, StatusCode, Write, WriteHeader.
  destruct (json_Marshal env v); rewrite Hs; done.
Qed.

Lemma FetchTransactions_error_code (srv : Service) (now : GoTime.Time) (days : Z)
    (appErr : AppError) (calls : list Call) :
  FetchTransactions (html_Parse env) srv now days = (inr appErr, calls) →
  Code appErr = 401 ∨ Code appErr = 500.
Proof.
  unfold FetchTransactions.
  destruct (Messages_List srv _) as [ids|err].
  - by destruct (fold_left _ _ _).
  - intros [= <- _]. destruct err as [code text|text]; [|by right].
    destruct ((code =? 403) || (code =? 401)); [by left|by right].
Qed.

Lemma base_writer_headers (w : ResponseWriter) :
  w = Header_Set "Access-Control-Allow-Credentials" "true"
        (Header_Set "Access-Control-Allow-Origin" (FRONTEND_URL env) new_writer) →
  cors_headers env w ∧ status w = None ∧ body w = "".
Proof. intros ->. by vm_compute. Qed.

Lemma cors_headers_set (w : ResponseWriter) (key val : string) :
  key ≠ "Access-Control-Allow-Origin" → key ≠ "Access-Control-Allow-Credentials" →
  cors_headers env w → cors_headers env (Header_Set key val w).
Proof.
  intros H1 H2 [Ho Hc]. unfold cors_headers, Header_Set. cbn [Header].
  by rewrite !lookup_insert_ne.
Qed.

Lemma cors_headers_respondError (w : ResponseWriter) (code : Z) (message : string) :
  cors_headers env w →
  cors_headers env (respondError env w code message)
  ∧ json_typed (respondError env w code message).
Proof.
  intros [Ho Hc]. unfold cors_headers, json_typed. rewrite Header_respondError.
  rewrite lookup_insert_eq, !lookup_insert_ne by done. done.
Qed.

Lemma cors_headers_Encode (w : ResponseWriter) (v : value) :
  cors_headers env w →
  cors_headers env (Encode env v (Header_Set "Content-Type" "application/json" w))
  ∧ json_typed (Encode env v (Header_Set "Content-Type" "application/json" w)).
Proof.
  intros [Ho Hc]. unfold cors_headers, json_typed. rewrite Header_Encode.
  unfold Header_Set. cbn [Header].
  rewrite lookup_insert_eq, !lookup_insert_ne by done. done.
Qed.

Lemma status_code_listed (code : Z) :
  code = 200 ∨ code = 400 ∨ code = 401 ∨ code = 405 ∨ code = 500 → code ∈ status_codes.
Proof.
  unfold status_codes. intros [->|[->|[->|[->| ->]]]].
  - by left.
  - right. by left.
  - do 2 right. by left.
  - do 3 right. by left.
  - do 4 right. by left.
Qed.

(** X14. Every response of [transactionsHandler] carries the two CORS headers
    of the dashboard, every response but the preflight one is typed as
    JSON, and the status is one of 200, 400, 401, 405 and 500. *)
Theorem transactions_response_invariants (rc : Redis) (r : Request) :
  cors_headers env (response (transactionsHandler env rc r))
  ∧ (Method r ≠ "OPTIONS" → json_typed (response (transactionsHandler env rc r)))
  ∧ StatusCode (response (transactionsHandler env rc r)) ∈ status_codes.
Proof.
  unfold transactionsHandler.
  set (w := Header_Set "Access-Control-Allow-Credentials" "true"
              (Header_Set "Access-Control-Allow-Origin" (FRONTEND_URL env) new_writer)).
  destruct (base_writer_headers w eq_refl) as (Hcors & Hstatus & Hbody).
  pose proof (λ code msg, cors_headers_respondError w code msg Hcors) as Herr.
  pose proof (λ v, cors_headers_Encode w v Hcors) as Hok.
  pose proof (λ code msg, StatusCode_respondError w code msg Hstatus) as Hcode.
  assert (∀ v, StatusCode (Encode env v (Header_Set "Content-Type" "application/json" w))
               = StatusOK) as Hcode'.
  { intros v. by apply StatusCode_Encode. }
  clearbody w.
  case_decide as Hoptions.
  { cbn [response]. split; [|split; [done|]].
    - unfold WriteHeader. destruct (status _); by repeat apply cors_headers_set.
    - apply status_code_listed. left. unfold StatusCode, WriteHeader, Header_Set.
      cbn [status]. by rewrite Hstatus. }
  case_decide as Hget.
  { cbn [response]. rewrite Hcode. split; [apply Herr|]. split; [intros _; apply Herr|].
    apply status_code_listed. auto. }
  destruct (match redis_Get rc _ with Some _ => _ | None => _ end) as [resp|].
  { cbn [response]. rewrite Hcode'. split; [apply Hok|]. split; [intros _; apply Hok|].
    apply status_code_listed. auto. }
  case_decide.
  { cbn [response]. rewrite Hcode. split; [apply Herr|]. split; [intros _; apply Herr|].
    apply status_code_listed. auto. }
  destruct (NewGmailServiceWithClient env _) as [gmailService|err].
  2: { cbn [response]. rewrite Hcode. split; [apply Herr|]. split; [intros _; apply Herr|].
       apply status_code_listed. auto. }
  destruct (lookback_days _) as [days|].
  2: { cbn [response]. rewrite Hcode. split; [apply Herr|]. split; [intros _; apply Herr|].
       apply status_code_listed. auto. }
  destruct (FetchTransactions _ _ _ _) as [[txs|appErr] calls] eqn:Hfetch.
  2: { cbn [response]. rewrite Hcode. split; [apply Herr|]. split; [intros _; apply Herr|].
       apply status_code_listed.
       destruct (FetchTransactions_error_code _ _ _ _ _ Hfetch) as [-> | ->]; auto. }
  destruct (calculateSummary txs _) as [summary|err].
  2: { cbn [response]. rewrite Hcode. split; [apply Herr|]. split; [intros _; apply Herr|].
       apply status_code_listed. auto. }
  cbn [response]. rewrite Hcode'. split; [apply Hok|]. split; [intros _; apply Hok|].
  apply status_code_listed. auto.
Qed.

(** The handler past the cache lookup, when the fetch succeeds. *)
Lemma transactionsHandler_live (rc : Redis) (r : Request) (txs : list Transaction)
    (calls : list Call) :
  Method r = "GET" → lookup env rc r = None → live_fetch env r txs calls →
  transactionsHandler env rc r
  = let w := Header_Set "Access-Control-Allow-Credentials" "true"
               (Header_Set "Access-Control-Allow-Origin" (FRONTEND_URL env) new_writer) in
    match calculateSummary txs (filter_of r) with
    | inr err => mkServed (respondError env w StatusInternalServerError err) rc calls
    | inl summary =>
        let response := mkResponse summary (appended txs) in
        mkServed (Encode env (response_value response)
                    (Header_Set "Content-Type" "application/json" w))
                 (stored env rc (filter_of r) response 10) calls
    end.
Proof.
  intros Hm Hmiss (Htoken & srv & days & Hsrv & Hdays & Hfetch).
  rewrite (transactionsHandler_GET env rc r Hm). cbn zeta.
  rewrite Hmiss, decide_False, Hsrv, Hdays, Hfetch by done.
  by destruct (calculateSummary txs (filter_of r)).
Qed.

(** X15. A fetch that yields transactions is answered with status 200 after
    the calls of the fetch, and the transactions have a summary.  When the
    response of summary and details marshals, the body is its JSON and a
    line feed, and the JSON is stored under the key of the filter for ten
    minutes if the cache server answers; if it does not answer, the cache
    is left as it was.  When the response does not marshal (a total that is
    not a finite number), the status is 200 all the same, the body is empty
    and nothing is stored. *)
Theorem fresh_response_served_and_stored (rc : Redis) (r : Request)
    (txs : list Transaction) (calls : list Call) :
  Method r = "GET" → cache_miss env rc r → live_fetch env r txs calls → txs ≠ [] →
  ∃ summary,
    calculateSummary txs (filter_of r) = inl summary
    ∧ StatusCode (response (transactionsHandler env rc r)) = StatusOK
    ∧ provider_calls (transactionsHandler env rc r) = calls
    ∧ (∀ data,
         json_Marshal env (response_value (mkResponse summary (Some txs))) = inl data →
         body (response (transactionsHandler env rc r)) = data +:+ line_feed
         ∧ (reachable rc = true →
            cache (transactionsHandler env rc r)
            = mkRedis (<[getCacheKey (filter_of r) := (data, 10)]> (entries rc)) true)
         ∧ (reachable rc = false → cache (transactionsHandler env rc r) = rc))
    ∧ (∀ err,
         json_Marshal env (response_value (mkResponse summary (Some txs))) = inr err →
         body (response (transactionsHandler env rc r)) = ""
         ∧ cache (transactionsHandler env rc r) = rc).
Proof.
  intros Hm Hmiss Hlive Hne.
  rewrite (transactionsHandler_live rc r txs calls Hm (lookup_miss env rc r Hmiss) Hlive).
  cbn zeta.
  destruct Hlive as (_ & srv & days & _ & _ & Hfetch).
  assert ((FetchTransactions (html_Parse env) srv (now env) days).1 = inl txs) as Hfst
    by (by rewrite Hfetch).
  destruct (well_dated_summary txs (filter_of r)
              (fetched_well_dated _ _ _ _ _ Hfst) Hne) as [summary Hs].
  exists summary. split; [done|]. rewrite Hs. cbn [response provider_calls cache].
  assert (appended txs = Some txs) as -> by (by destruct txs).
  destruct (Encode_outcome env
              (Header_Set "Content-Type" "application/json"
                 (Header_Set "Access-Control-Allow-Credentials" "true"
                    (Header_Set "Access-Control-Allow-Origin" (FRONTEND_URL env) new_writer)))
              (response_value (mkResponse summary (Some txs)))) as [-> ->]; [done..|].
  split; [done|]. split; [done|]. unfold encoded, stored, redis_Set. split.
  - intros data ->. split; [done|]. split; by intros ->.
  - by intros err ->.
Qed.

Lemma getCacheKey_inj (f1 f2 : string) : getCacheKey f1 = getCacheKey f2 → f1 = f2.
Proof. unfold getCacheKey. apply (inj (String.append "transactions:")). Qed.

Lemma redis_Get_stored (rc : Redis) (filter : string) (resp : TransactionsResponse)
    (ttl : Z) (data : string) :
  reachable rc = true → json_Marshal env (response_value resp) = inl data →
  redis_Get (stored env rc filter resp ttl) (getCacheKey filter) = Some data.
Proof.
  intros Hup Hdata. unfold stored, redis_Set, redis_Get. rewrite Hdata, Hup.
  cbn [reachable entries]. by rewrite lookup_insert_eq.
Qed.

Lemma stored_elsewhere (rc : Redis) (filter : string) (resp : TransactionsResponse)
    (ttl : Z) :
  reachable (stored env rc filter resp ttl) = reachable rc
  ∧ ∀ k, k ≠ getCacheKey filter →
         entries (stored env rc filter resp ttl) !! k = entries rc !! k.
Proof.
  unfold stored, redis_Set.
  destruct (json_Marshal env _) as [data|]; [|done].
  destruct (reachable rc) eqn:Hup; [|done]. cbn [reachable entries].
  split; [done|]. intros k Hk. by rewrite lookup_insert_ne.
Qed.

(** What storing a response does at its own key. *)
Lemma stored_at_key (rc : Redis) (filter : string) (resp : TransactionsResponse)
    (ttl : Z) :
  (∀ data, json_Marshal env (response_value resp) = inl data → reachable rc = true →
           entries (stored env rc filter resp ttl) !! getCacheKey filter = Some (data, ttl))
  ∧ (∀ err, json_Marshal env (response_value resp) = inr err →
            stored env rc filter resp ttl = rc)
  ∧ (reachable rc = false → stored env rc filter resp ttl = rc).
Proof.
  unfold stored, redis_Set. split; [|split].
  - intros data -> ->. cbn [entries]. by rewrite lookup_insert_eq.
  - by intros err ->.
  - intros ->. by destruct (json_Marshal env _).
Qed.

(** X16. A second request for the same filter is answered from the cache with
    the very response of the first, whatever its token, when the cache
    server answers and the codec reads back what it wrote. *)
Theorem repeated_request_from_cache (rc : Redis) (r r2 : Request)
    (txs : list Transaction) (calls : list Call) (summary : Summary) :
  Method r = "GET" → cache_miss env rc r → live_fetch env r txs calls →
  calculateSummary txs (filter_of r) = inl summary →
  reachable rc = true → round_trip env (mkResponse summary (appended txs)) →
  Method r2 = "GET" → filter_of r2 = filter_of r →
  response (transactionsHandler env (cache (transactionsHandler env rc r)) r2)
  = response (transactionsHandler env rc r)
  ∧ provider_calls (transactionsHandler env (cache (transactionsHandler env rc r)) r2) = []
  ∧ cache (transactionsHandler env (cache (transactionsHandler env rc r)) r2)
    = cache (transactionsHandler env rc r).
Proof.
  intros Hm Hmiss Hlive Hs Hup (data & Hdata & Hback) Hm2 Hfilter.
  rewrite (transactionsHandler_live rc r txs calls Hm (lookup_miss env rc r Hmiss) Hlive).
  cbn zeta. rewrite Hs. cbn [response cache provider_calls].
  rewrite (cache_hit_response env _ r2 data (mkResponse summary (appended txs)) Hm2).
  - done.
  - split; [|done]. rewrite Hfilter. by apply redis_Get_stored.
Qed.

(** What serving a request does to the cache: nothing, or, with status
    200, one entry stored under the key of the request's filter. *)
Lemma transactionsHandler_cache (rc : Redis) (r : Request) :
  cache (transactionsHandler env rc r) = rc
  ∨ (StatusCode (response (transactionsHandler env rc r)) = StatusOK
     ∧ ∃ resp, cache (transactionsHandler env rc r) = stored env rc (filter_of r) resp 10).
Proof.
  unfold transactionsHandler.
  case_decide; [by left|]. case_decide; [by left|].
  destruct (match redis_Get rc _ with Some _ => _ | None => _ end); [by left|].
  case_decide; [by left|].
  destruct (NewGmailServiceWithClient env _); [|by left].
  destruct (lookback_days _); [|by left].
  destruct (FetchTransactions _ _ _ _) as [[txs|appErr] calls]; [|by left].
  destruct (calculateSummary txs _) as [summary|]; [|by left].
  right. cbn [response cache]. split; [by apply StatusCode_Encode|]. by eexists.
Qed.

(** X17. Serving a request leaves every entry of the cache but that of the
    request's filter as it was, so a request for another filter finds what
    it would have found before; and a response other than 200 leaves the
    whole cache as it was. *)
Theorem cache_touched_only_at_key (rc : Redis) (r : Request) :
  (∀ k, k ≠ getCacheKey (filter_of r) →
        entries (cache (transactionsHandler env rc r)) !! k = entries rc !! k)
  ∧ (∀ r2, filter_of r2 ≠ filter_of r →
           lookup env (cache (transactionsHandler env rc r)) r2 = lookup env rc r2)
  ∧ (StatusCode (response (transactionsHandler env rc r)) ≠ StatusOK →
     cache (transactionsHandler env rc r) = rc).
Proof.
  destruct (transactionsHandler_cache rc r) as [->|(Hok & resp & ->)]; [done|].
  destruct (stored_elsewhere rc (filter_of r) resp 10) as [Hup Hother].
  split; [done|]. split; [|done].
  intros r2 Hfilter. unfold lookup, redis_Get. rewrite Hup, Hother; [done|].
  intros Hkey. by apply Hfilter, getCacheKey_inj.
Qed.

(** X18. A cache server that does not answer is a cache miss and a store that
    does nothing: the request is answered as it is with an empty cache. *)
Theorem unreachable_cache_is_a_miss (rc : Redis) (r : Request) :
  reachable rc = false →
  response (transactionsHandler env rc r) = response (transactionsHandler env empty_cache r)
  ∧ provider_calls (transactionsHandler env rc r)
    = provider_calls (transactionsHandler env empty_cache r)
  ∧ cache (transactionsHandler env rc r) = rc.
Proof.
  intros Hdown. unfold transactionsHandler, redis_Get, redis_Set. rewrite Hdown.
  cbn [reachable entries empty_cache]. rewrite lookup_empty. cbn [fmap option_fmap option_map].
  case_decide; [done|]. case_decide; [done|]. case_decide; [done|].
  destruct (NewGmailServiceWithClient env _); [|done].
  destruct (lookback_days _); [|done].
  destruct (FetchTransactions _ _ _ _) as [[txs|appErr] calls]; [|done].
  destruct (calculateSummary txs _) as [summary|]; [|done].
  cbn [response provider_calls cache]. by destruct (json_Marshal env _).
Qed.

(** X19. A mailbox that refuses the listing with 401 or 403 makes the request
    fail with status 401 after that one call; any other failure of the
    listing makes it fail with status 500.  Nothing is cached. *)
Theorem listing_failure_status (rc : Redis) (r : Request) (gmailService : Service)
    (days : Z) (err : api_error) :
  Method r = "GET" → cache_miss env rc r → strings.TrimSpace (token_of r) ≠ "" →
  NewGmailServiceWithClient env (token_of r) = inl gmailService →
  lookback_days (filter_of r) = Some days →
  Messages_List gmailService (query_for (now env) days) = inr err →
  provider_calls (transactionsHandler env rc r) = [ListCall (query_for (now env) days)]
  ∧ cache (transactionsHandler env rc r) = rc
  ∧ (refused err →
       StatusCode (response (transactionsHandler env rc r)) = StatusUnauthorized
       ∧ body (response (transactionsHandler env rc r))
         = encoded env
             (error_value ("unauthorized: insufficient authentication scopes: "
                           +:+ Error_text err) StatusUnauthorized))
  ∧ (¬ refused err →
       StatusCode (response (transactionsHandler env rc r)) = StatusInternalServerError
       ∧ body (response (transactionsHandler env rc r))
         = encoded env
             (error_value ("unable to retrieve messages: " +:+ Error_text err)
                StatusInternalServerError)).
Proof.
  intros Hm Hmiss Htoken Hsrv Hdays Hlist.
  rewrite (transactionsHandler_GET env rc r Hm). cbn zeta.
  rewrite (lookup_miss env rc r Hmiss), decide_False, Hsrv, Hdays by done.
  set (w := Header_Set "Access-Control-Allow-Credentials" "true"
              (Header_Set "Access-Control-Allow-Origin" (FRONTEND_URL env) new_writer)).
  pose proof (λ code msg, respondError_outcome env w code msg eq_refl eq_refl) as Hout.
  unfold FetchTransactions. rewrite Hlist. cbn [response provider_calls cache].
  split; [done|]. split; [done|]. unfold refused.
  assert (∀ text, "unauthorized: insufficient authentication scopes: " +:+ text
                  ≠ "unable to retrieve messages: " +:+ text) as Hdiff.
  { intros text. cbv [String.append]. discriminate. }
  destruct err as [code text|text].
  - destruct (Z.eqb_spec code 403) as [->|H403]; cbn [orb].
    { split; [intros _; apply Hout|]. intros Hnot. exfalso. apply Hnot. eauto. }
    destruct (Z.eqb_spec code 401) as [->|H401].
    { split; [intros _; apply Hout|]. intros Hnot. exfalso. apply Hnot. eauto. }
    split; [|intros _; apply Hout]. intros (t & [[= ? ?]|[= ? ?]]); done.
  - split; [|intros _; apply Hout]. intros (t & [?|?]); done.
Qed.

(** X20. A fetch that yields no transaction: with filter "all" the answer is
    200 with a summary of zeros and no details; with another filter it is
    500, the error of the summarizer, and nothing is cached. *)
Theorem empty_fetch_outcome (rc : Redis) (r : Request) (calls : list Call) :
  Method r = "GET" → cache_miss env rc r → live_fetch env r [] calls →
  (filter_of r = "all" →
     StatusCode (response (transactionsHandler env rc r)) = StatusOK
     ∧ body (response (transactionsHandler env rc r))
       = encoded env (response_value (mkResponse (mkSummary 0 0 0) None)))
  ∧ (filter_of r ≠ "all" →
       StatusCode (response (transactionsHandler env rc r)) = StatusInternalServerError
       ∧ body (response (transactionsHandler env rc r))
         = encoded env
             (error_value
                (if decide (filter_of r = "monthly")
                 then "no valid transaction months found"
                 else "no valid transaction dates found") StatusInternalServerError)
       ∧ cache (transactionsHandler env rc r) = rc).
Proof.
  intros Hm Hmiss Hlive.
  rewrite (transactionsHandler_live rc r [] calls Hm (lookup_miss env rc r Hmiss) Hlive).
  cbn zeta. destruct Hlive as (_ & srv & days & _ & Hdays & _).
  set (w := Header_Set "Access-Control-Allow-Credentials" "true"
              (Header_Set "Access-Control-Allow-Origin" (FRONTEND_URL env) new_writer)).
  pose proof (λ code msg, respondError_outcome env w code msg eq_refl eq_refl) as Hout.
  pose proof (λ v, Encode_outcome env (Header_Set "Content-Type" "application/json" w) v
                     eq_refl eq_refl) as Hok.
  unfold lookback_days in Hdays.
  assert (∀ period, calculateSummary [] period
                    = if decide (period = "daily") then inr "no valid transaction dates found"
                      else if decide (period = "weekly")
                           then inr "no valid transaction dates found"
                      else if decide (period = "monthly")
                           then inr "no valid transaction months found"
                      else inl (mkSummary 0 0 0)) as Hempty.
  { intros period. unfold calculateSummary. by repeat case_decide. }
  rewrite Hempty.
  destruct (decide (filter_of r = "daily")) as [Hf|?].
  { rewrite Hf. split; [done|]. intros _. cbn [response cache].
    split; [apply Hout|]. split; [apply Hout|done]. }
  destruct (decide (filter_of r = "weekly")) as [Hf|?].
  { rewrite Hf. split; [done|]. intros _. cbn [response cache].
    split; [apply Hout|]. split; [apply Hout|done]. }
  destruct (decide (filter_of r = "monthly")) as [Hf|?].
  { rewrite Hf. split; [done|]. intros _. cbn [response cache].
    split; [apply Hout|]. split; [apply Hout|done]. }
  destruct (decide (filter_of r = "all")) as [Hf|?]; [|done].
  split; [|done]. intros _. cbn [response appended]. split; apply Hok.
Qed.

End HttpMoreFacts.

(* --------------------------------------------------------------------- *)
(** ** The refresh handler *)

Section RefreshFacts.
Import types gmail googleapi services main SummarySpec SummaryMore FieldSpec FieldMore.
Import HttpSpec refresh HttpMore.

Variable env : Env.

Lemma store_stored (rc : Redis) (filter : string) (resp : TransactionsResponse) :
  store env rc filter resp = stored env rc filter resp 20.
Proof. reflexivity. Qed.

(** X21. A refresh without a token is refused with status 401 before the
    mailbox is reached, whatever the cache holds, and the cache is left as
    it was. *)
Theorem refresh_missing_token (rc : Redis) (r : Request) :
  Method r = "GET" ∨ Method r = "POST" → blank (token_of r) →
  StatusCode (response (refreshHandler env rc r)) = StatusUnauthorized
  ∧ body (response (refreshHandler env rc r))
    = encoded env (error_value "Missing access token in query string" StatusUnauthorized)
  ∧ provider_calls (refreshHandler env rc r) = []
  ∧ cache (refreshHandler env rc r) = rc.
Proof.
  intros Hm Hblank. unfold refreshHandler. fold (token_of r).
  rewrite decide_False by (by destruct Hm as [-> | ->]).
  rewrite decide_False by (intros [? ?]; by destruct Hm).
  rewrite decide_True by (by apply TrimSpace_blank).
  cbn [response provider_calls cache].
  split; [|split]; [..|done]; by apply respondError_outcome.
Qed.

Lemma refreshHandler_fetched (rc : Redis) (r : Request)
    (daily weekly monthly : list Transaction) (calls : list Call) :
  Method r = "GET" ∨ Method r = "POST" → refresh_fetch env r daily weekly monthly calls →
  refreshHandler env rc r
  = let w := Header_Set "Access-Control-Allow-Credentials" "true"
               (Header_Set "Access-Control-Allow-Origin" (FRONTEND_URL env) new_writer) in
    match calculateSummary daily "daily" with
    | inr err => mkServed (respondError env w StatusInternalServerError err) rc calls
    | inl dailySummary =>
        match calculateSummary weekly "weekly" with
        | inr err => mkServed (respondError env w StatusInternalServerError err) rc calls
        | inl weeklySummary =>
            match calculateSummary monthly "monthly" with
            | inr err => mkServed (respondError env w StatusInternalServerError err) rc calls
            | inl monthlySummary =>
                mkServed
                  (Write (success_json +:+ line_feed)
                     (Header_Set "Content-Type" "application/json" w))
                  (store env
                     (store env
                        (store env rc "daily" (mkResponse dailySummary (appended daily)))
                        "weekly" (mkResponse weeklySummary (appended weekly)))
                     "monthly" (mkResponse monthlySummary (appended monthly)))
                  calls
            end
        end
    end.
Proof.
  intros Hm (Htoken & srv & c1 & c2 & c3 & Hsrv & H2 & H14 & H60 & ->).
  unfold refreshHandler. fold (token_of r).
  rewrite decide_False by (by destruct Hm as [-> | ->]).
  rewrite decide_False by (intros [? ?]; by destruct Hm).
  rewrite decide_False by done. rewrite Hsrv, H2, H14, H60. reflexivity.
Qed.

Lemma success_written (w : ResponseWriter) :
  status w = None → body w = "" →
  StatusCode (Write (success_json +:+ line_feed) w) = StatusOK
  ∧ body (Write (success_json +:+ line_feed) w) = success_json +:+ line_feed.
Proof. intros Hs Hb. unfold Write, WriteHeader, StatusCode. by rewrite Hs, Hb. Qed.

(** X22. A refresh whose three fetches all yield transactions answers 200 with
    the success object after the calls of the three fetches in turn, and
    the three lists have their summaries.  Of the three responses, each one
    that marshals is stored under its key for twenty minutes if the cache
    server answers; one that does not marshal (a total that is not a finite
    number) is passed over and its key keeps what it held, and the answer
    is the success object all the same.  If the cache server does not
    answer, the cache is left as it was.  No other key changes. *)
Theorem refresh_success (rc : Redis) (r : Request)
    (daily weekly monthly : list Transaction) (calls : list Call) :
  Method r = "GET" ∨ Method r = "POST" → refresh_fetch env r daily weekly monthly calls →
  daily ≠ [] → weekly ≠ [] → monthly ≠ [] →
  ∃ dailySummary weeklySummary monthlySummary,
    calculateSummary daily "daily" = inl dailySummary
    ∧ calculateSummary weekly "weekly" = inl weeklySummary
    ∧ calculateSummary monthly "monthly" = inl monthlySummary
    ∧ StatusCode (response (refreshHandler env rc r)) = StatusOK
    ∧ body (response (refreshHandler env rc r)) = success_json +:+ line_feed
    ∧ provider_calls (refreshHandler env rc r) = calls
    ∧ reachable (cache (refreshHandler env rc r)) = reachable rc
    ∧ (reachable rc = false → cache (refreshHandler env rc r) = rc)
    ∧ Forall (λ '(filter, response),
                (∀ data, json_Marshal env (response_value response) = inl data →
                         reachable rc = true →
                         entries (cache (refreshHandler env rc r)) !! getCacheKey filter
                         = Some (data, 20))
                ∧ (∀ err, json_Marshal env (response_value response) = inr err →
                          entries (cache (refreshHandler env rc r)) !! getCacheKey filter
                          = entries rc !! getCacheKey filter))
             [("daily", mkResponse dailySummary (Some daily));
              ("weekly", mkResponse weeklySummary (Some weekly));
              ("monthly", mkResponse monthlySummary (Some monthly))]
    ∧ (∀ key, key ∉ refreshed_keys →
              entries (cache (refreshHandler env rc r)) !! key = entries rc !! key).
Proof.
  intros Hm Hfetch Hd Hw Hmo.
  rewrite (refreshHandler_fetched rc r daily weekly monthly calls Hm Hfetch). cbn zeta.
  destruct Hfetch as (_ & srv & c1 & c2 & c3 & _ & H2 & H14 & H60 & _).
  assert (∀ days txs c, FetchTransactions (html_Parse env) srv (now env) days = (inl txs, c) →
                        Forall well_dated txs) as Hdated.
  { intros days txs c Hf. apply (fetched_well_dated (html_Parse env) srv (now env) days).
    by rewrite Hf. }
  destruct (well_dated_summary daily "daily" (Hdated _ _ _ H2) Hd) as [ds Hds].
  destruct (well_dated_summary weekly "weekly" (Hdated _ _ _ H14) Hw) as [ws Hws].
  destruct (well_dated_summary monthly "monthly" (Hdated _ _ _ H60) Hmo) as [ms Hms].
  exists ds, ws, ms. rewrite Hds, Hws, Hms. cbn [response provider_calls cache].
  do 3 (split; [done|]).
  assert (appended daily = Some daily) as -> by (by destruct daily).
  assert (appended weekly = Some weekly) as -> by (by destruct weekly).
  assert (appended monthly = Some monthly) as -> by (by destruct monthly).
  split; [by apply success_written|]. split; [by apply success_written|].
  split; [done|]. rewrite !store_stored.
  set (dresp := mkResponse ds (Some daily)).
  set (wresp := mkResponse ws (Some weekly)).
  set (mresp := mkResponse ms (Some monthly)).
  pose (rc1 := stored env rc "daily" dresp 20).
  pose (rc2 := stored env rc1 "weekly" wresp 20).
  destruct (stored_elsewhere env rc "daily" dresp 20) as [Hup1 Hother1].
  destruct (stored_elsewhere env rc1 "weekly" wresp 20) as [Hup2 Hother2].
  destruct (stored_elsewhere env rc2 "monthly" mresp 20) as [Hup3 Hother3].
  destruct (stored_at_key env rc "daily" dresp 20) as (Hin1 & Hout1 & Hdown1).
  destruct (stored_at_key env rc1 "weekly" wresp 20) as (Hin2 & Hout2 & Hdown2).
  destruct (stored_at_key env rc2 "monthly" mresp 20) as (Hin3 & Hout3 & Hdown3).
  subst rc1 rc2.
  assert (∀ f1 f2 : string, f1 ≠ f2 → getCacheKey f1 ≠ getCacheKey f2) as Hkeys.
  { intros f1 f2 Hne Heq. by apply Hne, getCacheKey_inj. }
  split; [by rewrite Hup3, Hup2, Hup1|]. split.
  { intros Hdown. rewrite Hdown3 by (by rewrite Hup2, Hup1).
    rewrite Hdown2 by (by rewrite Hup1). by apply Hdown1. }
  split.
  - repeat apply Forall_cons_2; [..|apply Forall_nil_2]; split.
    + intros data Hdata Hup.
      rewrite Hother3, Hother2 by (by apply Hkeys). by apply Hin1.
    + intros err Herr.
      rewrite Hother3, Hother2 by (by apply Hkeys). by rewrite (Hout1 err Herr).
    + intros data Hdata Hup.
      rewrite Hother3 by (by apply Hkeys). apply Hin2; [done|]. by rewrite Hup1.
    + intros err Herr.
      rewrite Hother3 by (by apply Hkeys). rewrite (Hout2 err Herr).
      by apply Hother1, Hkeys.
    + intros data Hdata Hup. apply Hin3; [done|]. by rewrite Hup2, Hup1.
    + intros err Herr. rewrite (Hout3 err Herr).
      rewrite Hother2 by (by apply Hkeys). by apply Hother1, Hkeys.
  - intros key Hkey. unfold refreshed_keys in Hkey.
    rewrite !not_elem_of_cons in Hkey. destruct Hkey as (Hk1 & Hk2 & Hk3 & _).
    by rewrite Hother3, Hother2, Hother1.
Qed.

(** X23. A refresh one of whose fetches yields nothing fails with status 500
    and the error of the summarizer, after all three fetches were made,
    and stores nothing, whatever the other two fetches yielded. *)
Theorem refresh_empty_fetch_fails (rc : Redis) (r : Request)
    (daily weekly monthly : list Transaction) (calls : list Call) :
  Method r = "GET" ∨ Method r = "POST" → refresh_fetch env r daily weekly monthly calls →
  daily = [] ∨ weekly = [] ∨ monthly = [] →
  StatusCode (response (refreshHandler env rc r)) = StatusInternalServerError
  ∧ body (response (refreshHandler env rc r))
    = encoded env
        (error_value
           (if decide (daily = [] ∨ weekly = [])
            then "no valid transaction dates found"
            else "no valid transaction months found") StatusInternalServerError)
  ∧ provider_calls (refreshHandler env rc r) = calls
  ∧ cache (refreshHandler env rc r) = rc.
Proof.
  intros Hm Hfetch Hempty.
  rewrite (refreshHandler_fetched rc r daily weekly monthly calls Hm Hfetch). cbn zeta.
  destruct Hfetch as (_ & srv & c1 & c2 & c3 & _ & H2 & H14 & H60 & _).
  assert (∀ days txs c, FetchTransactions (html_Parse env) srv (now env) days = (inl txs, c) →
                        Forall well_dated txs) as Hdated.
  { intros days txs c Hf. apply (fetched_well_dated (html_Parse env) srv (now env) days).
    by rewrite Hf. }
  set (w := Header_Set "Access-Control-Allow-Credentials" "true"
              (Header_Set "Access-Control-Allow-Origin" (FRONTEND_URL env) new_writer)).
  pose proof (λ code msg, respondError_outcome env w code msg eq_refl eq_refl) as Hout.
  destruct (decide (daily = [])) as [->|Hd].
  { rewrite decide_True by (by left). cbn [response provider_calls cache].
    split; [apply Hout|]. split; [apply Hout|done]. }
  destruct (well_dated_summary daily "daily" (Hdated _ _ _ H2) Hd) as [ds ->].
  destruct (decide (weekly = [])) as [->|Hw].
  { rewrite decide_True by (by right). cbn [response provider_calls cache].
    split; [apply Hout|]. split; [apply Hout|done]. }
  destruct (well_dated_summary weekly "weekly" (Hdated _ _ _ H14) Hw) as [ws ->].
  destruct Hempty as [?|[?| ->]]; [done..|].
  rewrite decide_False by (by intros [?|?]). cbn [response provider_calls cache].
  split; [apply Hout|]. split; [apply Hout|done].
Qed.

Lemma refreshed_key_kept (rc : Redis) (filter other : string)
    (resp : TransactionsResponse) (ttl : Z) :
  other ≠ filter →
  redis_Get (stored env rc other resp ttl) (getCacheKey filter)
  = redis_Get rc (getCacheKey filter).
Proof.
  intros Hne. destruct (stored_elsewhere env rc other resp ttl) as [Hup Hother].
  unfold redis_Get. rewrite Hup, Hother; [done|].
  intros Hkey. by apply Hne, getCacheKey_inj.
Qed.

(** X24. After a refresh that succeeded, a request for the daily, the weekly or
    the monthly transactions is answered from the cache with what the
    refresh stored, whatever its token, without a call to the mailbox, when
    the cache server answers and the codec reads back what it wrote. *)
Theorem refresh_then_transactions (rc : Redis) (r r2 : Request)
    (daily weekly monthly : list Transaction) (calls : list Call)
    (dailySummary weeklySummary monthlySummary : Summary) :
  Method r = "GET" ∨ Method r = "POST" → refresh_fetch env r daily weekly monthly calls →
  calculateSummary daily "daily" = inl dailySummary →
  calculateSummary weekly "weekly" = inl weeklySummary →
  calculateSummary monthly "monthly" = inl monthlySummary →
  reachable rc = true → Method r2 = "GET" →
  Forall (λ '(filter, resp),
            filter_of r2 = filter → round_trip env resp →
            body (response (transactionsHandler env (cache (refreshHandler env rc r)) r2))
            = encoded env (response_value resp)
            ∧ provider_calls (transactionsHandler env (cache (refreshHandler env rc r)) r2)
              = [])
         [("daily", mkResponse dailySummary (appended daily));
          ("weekly", mkResponse weeklySummary (appended weekly));
          ("monthly", mkResponse monthlySummary (appended monthly))].
Proof.
  intros Hm Hfetch Hds Hws Hms Hup Hm2.
  rewrite (refreshHandler_fetched rc r daily weekly monthly calls Hm Hfetch). cbn zeta.
  rewrite Hds, Hws, Hms. cbn [cache]. rewrite !store_stored.
  set (dresp := mkResponse dailySummary (appended daily)).
  set (wresp := mkResponse weeklySummary (appended weekly)).
  set (mresp := mkResponse monthlySummary (appended monthly)).
  set (rc1 := stored env rc "daily" dresp 20).
  set (rc2 := stored env rc1 "weekly" wresp 20).
  set (rc3 := stored env rc2 "monthly" mresp 20).
  assert (reachable rc1 = true) as Hup1.
  { unfold rc1. by rewrite (proj1 (stored_elsewhere env rc "daily" dresp 20)). }
  assert (reachable rc2 = true) as Hup2.
  { unfold rc2. by rewrite (proj1 (stored_elsewhere env rc1 "weekly" wresp 20)). }
  assert (∀ filter resp data,
            redis_Get rc3 (getCacheKey filter) = Some data →
            filter_of r2 = filter → json_Unmarshal env data = inl resp →
            body (response (transactionsHandler env rc3 r2)) = encoded env (response_value resp)
            ∧ provider_calls (transactionsHandler env rc3 r2) = []) as Hhit.
  { intros filter resp data Hget Hfilter Hback.
    rewrite (cache_hit_response env rc3 r2 data resp Hm2).
    - cbn [response provider_calls]. split; [|done]. by apply Encode_outcome.
    - split; [|done]. by rewrite Hfilter. }
  repeat apply Forall_cons_2; [..|apply Forall_nil_2].
  - intros Hfilter (data & Hdata & Hback). apply (Hhit "daily" dresp data); [|done..].
    unfold rc3, rc2. rewrite !refreshed_key_kept by done.
    by apply redis_Get_stored.
  - intros Hfilter (data & Hdata & Hback). apply (Hhit "weekly" wresp data); [|done..].
    unfold rc3. rewrite refreshed_key_kept by done.
    by apply redis_Get_stored.
  - intros Hfilter (data & Hdata & Hback). apply (Hhit "monthly" mresp data); [|done..].
    by apply redis_Get_stored.
Qed.

(** X25. What a refresh does to the cache: nothing, unless it answers 200 with
    the success object; and then only the three keys of daily, weekly and
    monthly may change, so what is cached for filter "all" is never
    refreshed. *)
Theorem refresh_all_or_nothing (rc : Redis) (r : Request) :
  (cache (refreshHandler env rc r) = rc
   ∨ (StatusCode (response (refreshHandler env rc r)) = StatusOK
      ∧ body (response (refreshHandler env rc r)) = success_json +:+ line_feed))
  ∧ (∀ k, k ∉ refreshed_keys →
          entries (cache (refreshHandler env rc r)) !! k = entries rc !! k)
  ∧ redis_Get (cache (refreshHandler env rc r)) (getCacheKey "all")
    = redis_Get rc (getCacheKey "all").
Proof.
  assert (cache (refreshHandler env rc r) = rc
          ∨ (StatusCode (response (refreshHandler env rc r)) = StatusOK
             ∧ body (response (refreshHandler env rc r)) = success_json +:+ line_feed
             ∧ ∃ dresp wresp mresp,
                 cache (refreshHandler env rc r)
                 = stored env (stored env (stored env rc "daily" dresp 20)
                                 "weekly" wresp 20) "monthly" mresp 20)) as Hcases.
  { unfold refreshHandler.
    case_decide; [by left|]. case_decide; [by left|]. case_decide; [by left|].
    destruct (NewGmailServiceWithClient env _); [|by left].
    destruct (FetchTransactions _ _ _ 2) as [[daily|?] calls1]; [|by left].
    destruct (FetchTransactions _ _ _ 14) as [[weekly|?] calls2]; [|by left].
    destruct (FetchTransactions _ _ _ 60) as [[monthly|?] calls3]; [|by left].
    destruct (calculateSummary daily _); [|by left].
    destruct (calculateSummary weekly _); [|by left].
    destruct (calculateSummary monthly _); [|by left].
    right. cbn [response cache].
    split; [by apply success_written|]. split; [by apply success_written|].
    by eexists _, _, _. }
  destruct Hcases as [->|(Hok & Hbody & dresp & wresp & mresp & ->)];
    [split; [by left|done]|].
  split; [by right|].
  destruct (stored_elsewhere env rc "daily" dresp 20) as [Hup1 Hk1].
  destruct (stored_elsewhere env (stored env rc "daily" dresp 20) "weekly" wresp 20)
    as [Hup2 Hk2].
  destruct (stored_elsewhere env
              (stored env (stored env rc "daily" dresp 20) "weekly" wresp 20)
              "monthly" mresp 20) as [Hup3 Hk3].
  assert (∀ k, k ∉ refreshed_keys →
            entries (stored env (stored env (stored env rc "daily" dresp 20)
                                   "weekly" wresp 20) "monthly" mresp 20) !! k
            = entries rc !! k) as Hkeys.
  { intros k Hk. unfold refreshed_keys in Hk.
    rewrite Hk3, Hk2, Hk1; [done|intros ->; apply Hk..].
    - by left.
    - right. by left.
    - do 2 right. by left. }
  split; [done|]. unfold redis_Get. rewrite Hup3, Hup2, Hup1, Hkeys; [done|].
  unfold refreshed_keys. intros Hin.
  repeat (apply elem_of_cons in Hin as [Heq|Hin]; [by apply getCacheKey_inj in Heq|]).
  by apply elem_of_nil in Hin.
Qed.

(** X26. Every response of [refreshHandler] carries the two CORS headers of the
    dashboard, every response but the preflight one is typed as JSON, and
    the status is one of 200, 400, 401, 405 and 500. *)
Theorem refresh_response_invariants (rc : Redis) (r : Request) :
  cors_headers env (response (refreshHandler env rc r))
  ∧ (Method r ≠ "OPTIONS" → json_typed (response (refreshHandler env rc r)))
  ∧ StatusCode (response (refreshHandler env rc r)) ∈ status_codes.
Proof.
  unfold refreshHandler.
  set (w := Header_Set "Access-Control-Allow-Credentials" "true"
              (Header_Set "Access-Control-Allow-Origin" (FRONTEND_URL env) new_writer)).
  destruct (base_writer_headers env w eq_refl) as (Hcors & Hstatus & Hbody).
  pose proof (λ code msg, cors_headers_respondError env w code msg Hcors) as Herr.
  pose proof (λ code msg, StatusCode_respondError env w code msg Hstatus) as Hcode.
  assert (∀ code msg calls,
            code = 200 ∨ code = 400 ∨ code = 401 ∨ code = 405 ∨ code = 500 →
            cors_headers env (response (mkServed (respondError env w code msg) rc calls))
            ∧ (Method r ≠ "OPTIONS" →
               json_typed (response (mkServed (respondError env w code msg) rc calls)))
            ∧ StatusCode (response (mkServed (respondError env w code msg) rc calls))
              ∈ status_codes) as Hleaf.
  { intros code msg calls Hlisted. cbn [response]. rewrite Hcode.
    split; [apply Herr|]. split; [intros _; apply Herr|]. by apply status_code_listed. }
  assert (∀ srv days appErr calls,
            FetchTransactions (html_Parse env) srv (now env) days = (inr appErr, calls) →
            Code appErr = 200 ∨ Code appErr = 400 ∨ Code appErr = 401 ∨ Code appErr = 405
            ∨ Code appErr = 500) as Hfetch.
  { intros srv days appErr calls Hf.
    destruct (FetchTransactions_error_code env _ _ _ _ _ Hf) as [-> | ->]; auto. }
  clearbody w.
  case_decide as Hoptions.
  { cbn [response]. split; [|split; [done|]].
    - unfold WriteHeader. destruct (status _); by repeat apply cors_headers_set.
    - apply status_code_listed. left. unfold StatusCode, WriteHeader, Header_Set.
      cbn [status]. by rewrite Hstatus. }
  case_decide; [apply Hleaf; auto|]. case_decide; [apply Hleaf; auto|].
  destruct (NewGmailServiceWithClient env _) as [srv|]; [|apply Hleaf; auto].
  destruct (FetchTransactions _ _ _ 2) as [[daily|?] calls1] eqn:H2;
    [|by eapply Hleaf, Hfetch].
  destruct (FetchTransactions _ _ _ 14) as [[weekly|?] calls2] eqn:H14;
    [|by eapply Hleaf, Hfetch].
  destruct (FetchTransactions _ _ _ 60) as [[monthly|?] calls3] eqn:H60;
    [|by eapply Hleaf, Hfetch].
  destruct (calculateSummary daily _); [|apply Hleaf; auto].
  destruct (calculateSummary weekly _); [|apply Hleaf; auto].
  destruct (calculateSummary monthly _); [|apply Hleaf; auto].
  cbn [response]. unfold cors_headers, json_typed. rewrite Header_Write.
  destruct Hcors as [Ho Hc]. unfold Header_Set. cbn [Header].
  rewrite lookup_insert_eq, !lookup_insert_ne by done.
  split; [done|]. split; [done|]. apply status_code_listed. left.
  by apply success_written.
Qed.

(** X27. The methods of the two handlers: a preflight request gets status 200,
    the four CORS headers (GET is allowed on [/transactions], GET and POST
    on [/refresh]) and no body; any other method the handler does not
    serve gets 405.  Neither reads the cache nor reaches the mailbox. *)
Theorem preflight_and_method_check (rc : Redis) (r : Request) :
  (Method r = "OPTIONS" →
     transactionsHandler env rc r = preflight env "GET" rc
     ∧ refreshHandler env rc r = preflight env "GET,POST" rc)
  ∧ (Method r ∉ ["OPTIONS"; "GET"] →
       method_refused env rc (transactionsHandler env rc r))
  ∧ (Method r ∉ ["OPTIONS"; "GET"; "POST"] →
       method_refused env rc (refreshHandler env rc r)).
Proof.
  split; [|split].
  - intros Hm. unfold transactionsHandler, refreshHandler. by rewrite !decide_True.
  - intros Hnot. unfold transactionsHandler, method_refused.
    rewrite decide_False by (intros Hm; apply Hnot; rewrite Hm; by left).
    rewrite decide_True by (intros Hm; apply Hnot; rewrite Hm; right; by left).
    cbn [response provider_calls cache]. split; [|split]; [..|done];
      by apply respondError_outcome.
  - intros Hnot. unfold refreshHandler, method_refused.
    rewrite decide_False by (intros Hm; apply Hnot; rewrite Hm; by left).
    rewrite decide_True.
    + cbn [response provider_calls cache]. split; [|split]; [..|done];
        by apply respondError_outcome.
    + split; intros Hm; apply Hnot; rewrite Hm; [right; by left|do 2 right; by left].
Qed.

(** X28. When a fetch of the refresh fails, the refresh stops there: the later
    fetches are not made, the answer has the status of the failure, and
    nothing is stored. *)
Theorem refresh_stops_at_failed_fetch (rc : Redis) (r : Request) (gmailService : Service) :
  Method r = "GET" ∨ Method r = "POST" → strings.TrimSpace (token_of r) ≠ "" →
  NewGmailServiceWithClient env (token_of r) = inl gmailService →
  (∀ appErr calls,
     FetchTransactions (html_Parse env) gmailService (now env) 2 = (inr appErr, calls) →
     StatusCode (response (refreshHandler env rc r)) = Code appErr
     ∧ provider_calls (refreshHandler env rc r) = calls
     ∧ cache (refreshHandler env rc r) = rc)
  ∧ (∀ daily calls1 appErr calls2,
       FetchTransactions (html_Parse env) gmailService (now env) 2 = (inl daily, calls1) →
       FetchTransactions (html_Parse env) gmailService (now env) 14 = (inr appErr, calls2) →
       StatusCode (response (refreshHandler env rc r)) = Code appErr
       ∧ provider_calls (refreshHandler env rc r) = calls1 ++ calls2
       ∧ cache (refreshHandler env rc r) = rc).
Proof.
  intros Hm Htoken Hsrv.
  assert (refreshHandler env rc r
          = let w := Header_Set "Access-Control-Allow-Credentials" "true"
                       (Header_Set "Access-Control-Allow-Origin" (FRONTEND_URL env)
                          new_writer) in
            let '(daily, calls) :=
              FetchTransactions (html_Parse env) gmailService (now env) 2 in
            match daily with
            | inr appErr => mkServed (respondError env w (Code appErr) (Msg appErr)) rc calls
            | inl dailyTxns =>
                let '(weekly, calls2) :=
                  FetchTransactions (html_Parse env) gmailService (now env) 14 in
                match weekly with
                | inr appErr =>
                    mkServed (respondError env w (Code appErr) (Msg appErr)) rc
                             (calls ++ calls2)
                | inl weeklyTxns => refreshHandler env rc r
                end
            end) as Hshape.
  { unfold refreshHandler at 1. fold (token_of r).
    rewrite decide_False by (by destruct Hm as [-> | ->]).
    rewrite decide_False by (intros [? ?]; by destruct Hm).
    rewrite decide_False by done. rewrite Hsrv. cbn zeta.
    destruct (FetchTransactions _ _ _ 2) as [[daily|?] calls1] eqn:H2; [|done].
    destruct (FetchTransactions _ _ _ 14) as [[weekly|?] calls2] eqn:H14; [|done].
    unfold refreshHandler. fold (token_of r).
    rewrite decide_False by (by destruct Hm as [-> | ->]).
    rewrite decide_False by (intros [? ?]; by destruct Hm).
    rewrite decide_False by done. by rewrite Hsrv, H2, H14. }
  split.
  - intros appErr calls H2. rewrite Hshape. cbn zeta. rewrite H2.
    cbn [response provider_calls cache]. split; [|done].
    by apply StatusCode_respondError.
  - intros daily calls1 appErr calls2 H2 H14. rewrite Hshape. cbn zeta. rewrite H2, H14.
    cbn [response provider_calls cache]. split; [|done].
    by apply StatusCode_respondError.
Qed.

End RefreshFacts.

(* --------------------------------------------------------------------- *)
(** ** The handlers in the sample worlds *)

Section HandlerExamples.
Import types gmail googleapi services main SummarySpec SummaryMore FieldSpec FieldMore.
Import HttpSpec refresh HttpMore.

Lemma sample_live_fetch :
  Forall (λ '(filter, days),
            live_fetch sample_env (asking filter) sample_txs (sample_calls days))
         [("weekly", 14); ("all", 90)].
Proof.
  repeat apply Forall_cons_2; [..|apply Forall_nil_2];
    (split; [by vm_compute|]; exists sample_mailbox; eexists;
     split; [reflexivity|]; split; [by vm_compute|]; by vm_compute).
Qed.

Lemma sample_live_fetch_weekly :
  live_fetch sample_env (asking "weekly") sample_txs (sample_calls 14).
Proof. exact (Forall_lookup_1 _ _ 0%nat _ sample_live_fetch eq_refl). Qed.

Lemma sample_live_fetch_all :
  live_fetch sample_env (asking "all") sample_txs (sample_calls 90).
Proof. exact (Forall_lookup_1 _ _ 1%nat _ sample_live_fetch eq_refl). Qed.

Lemma large_live_fetch :
  live_fetch (world large_mailbox) (asking "all") large_txs (large_calls 90).
Proof.
  split; [by vm_compute|]. exists large_mailbox. eexists.
  split; [reflexivity|]. split; [by vm_compute|]. by vm_compute.
Qed.

(** The weekly transactions of the sample mailbox, asked for with an
    empty cache and with the cache server down; and two amounts whose
    total is not finite. *)
Lemma fresh_response_served_and_stored_witness :
  Method (asking "weekly") = "GET"
  ∧ cache_miss sample_env empty_cache (asking "weekly")
  ∧ live_fetch sample_env (asking "weekly") sample_txs (sample_calls 14)
  ∧ sample_txs ≠ []
  ∧ StatusCode (response (transactionsHandler sample_env empty_cache (asking "weekly"))) = 200
  ∧ provider_calls (transactionsHandler sample_env empty_cache (asking "weekly"))
    = sample_calls 14
  ∧ body (response (transactionsHandler sample_env empty_cache (asking "weekly")))
    = marshalled (mkResponse (mkSummary 1234.5 0 0) (Some sample_txs)) +:+ line_feed
  ∧ cache (transactionsHandler sample_env empty_cache (asking "weekly"))
    = mkRedis
        (<[getCacheKey "weekly"
           := (marshalled (mkResponse (mkSummary 1234.5 0 0) (Some sample_txs)), 10)]> ∅)
        true
  ∧ cache_miss sample_env down_cache (asking "weekly")
  ∧ cache (transactionsHandler sample_env down_cache (asking "weekly")) = down_cache
  ∧ live_fetch (world large_mailbox) (asking "all") large_txs (large_calls 90)
  ∧ large_txs ≠ []
  ∧ StatusCode (response (transactionsHandler (world large_mailbox) empty_cache
                            (asking "all"))) = 200
  ∧ body (response (transactionsHandler (world large_mailbox) empty_cache (asking "all")))
    = ""
  ∧ cache (transactionsHandler (world large_mailbox) empty_cache (asking "all"))
    = empty_cache.
Proof.
  pose proof sample_live_fetch_weekly as Hlive.
  assert (cache_miss sample_env down_cache (asking "weekly")) as Hdown.
  { intros cached resp [Hget _]. by vm_compute in Hget. }
  assert (calculateSummary sample_txs (filter_of (asking "weekly"))
          = inl (mkSummary 1234.5 0 0)) as Hweekly by (vm_compute; reflexivity).
  assert (json_Marshal sample_env
            (response_value (mkResponse (mkSummary 1234.5 0 0) (Some sample_txs)))
          = inl (marshalled (mkResponse (mkSummary 1234.5 0 0) (Some sample_txs))))
    as Hdata by (vm_compute; reflexivity).
  assert (calculateSummary large_txs (filter_of (asking "all"))
          = inl (mkSummary infinity 0 0)) as Hlarge by (vm_compute; reflexivity).
  assert (json_Marshal (world large_mailbox)
            (response_value (mkResponse (mkSummary infinity 0 0) (Some large_txs)))
          = inr "json: unsupported value") as Herr by (vm_compute; reflexivity).
  destruct (fresh_response_served_and_stored sample_env empty_cache (asking "weekly")
              sample_txs (sample_calls 14) eq_refl (empty_cache_miss sample_env _)
              Hlive ltac:(discriminate)) as (summary & Hs & Hcode & Hcalls & Hok & _).
  rewrite Hweekly in Hs. injection Hs as <-.
  destruct (Hok _ Hdata) as (Hbody & Hstored & _).
  destruct (fresh_response_served_and_stored sample_env down_cache (asking "weekly")
              sample_txs (sample_calls 14) eq_refl Hdown
              Hlive ltac:(discriminate)) as (summary & Hs & _ & _ & Hok' & _).
  rewrite Hweekly in Hs. injection Hs as <-.
  destruct (Hok' _ Hdata) as (_ & _ & Hkept).
  destruct (fresh_response_served_and_stored (world large_mailbox) empty_cache
              (asking "all") large_txs (large_calls 90) eq_refl
              (empty_cache_miss _ _) large_live_fetch ltac:(discriminate))
    as (summary & Hs & Hcode' & _ & _ & Hfail).
  rewrite Hlarge in Hs. injection Hs as <-.
  destruct (Hfail _ Herr) as (Hbody' & Hcache').
  split; [reflexivity|]. split; [apply empty_cache_miss|]. split; [exact Hlive|].
  split; [discriminate|]. split; [exact Hcode|]. split; [exact Hcalls|].
  split; [exact Hbody|]. split; [exact (Hstored eq_refl)|]. split; [exact Hdown|].
  split; [exact (Hkept eq_refl)|]. split; [exact large_live_fetch|].
  split; [discriminate|]. split; [exact Hcode'|]. split; [exact Hbody'|exact Hcache'].
Defined.

Lemma sample_summary_all :
  calculateSummary sample_txs (filter_of (asking "all"))
  = inl (mkSummary 1484.5 0 0).
Proof. by vm_compute. Qed.

Lemma sample_round_trip : round_trip sample_env sample_response.
Proof. exists sample_stored. split; by vm_compute. Qed.

(** The same transactions asked for again, without a token. *)
Lemma repeated_request_from_cache_witness :
  Method (asking "all") = "GET"
  ∧ cache_miss sample_env empty_cache (asking "all")
  ∧ live_fetch sample_env (asking "all") sample_txs (sample_calls 90)
  ∧ reachable empty_cache = true
  ∧ round_trip sample_env sample_response
  ∧ Method (get []) = "GET" ∧ filter_of (get []) = filter_of (asking "all")
  ∧ response (transactionsHandler sample_env
                (cache (transactionsHandler sample_env empty_cache (asking "all"))) (get []))
    = response (transactionsHandler sample_env empty_cache (asking "all"))
  ∧ provider_calls
      (transactionsHandler sample_env
         (cache (transactionsHandler sample_env empty_cache (asking "all"))) (get []))
    = [].
Proof.
  destruct (repeated_request_from_cache sample_env empty_cache (asking "all") (get [])
              sample_txs (sample_calls 90) (mkSummary 1484.5 0 0)
              eq_refl (empty_cache_miss sample_env _) sample_live_fetch_all
              sample_summary_all eq_refl sample_round_trip eq_refl eq_refl)
    as (Hresp & Hcalls & _).
  split; [reflexivity|]. split; [apply empty_cache_miss|].
  split; [exact sample_live_fetch_all|]. split; [reflexivity|].
  split; [exact sample_round_trip|]. split; [reflexivity|]. split; [reflexivity|].
  split; [exact Hresp|exact Hcalls].
Defined.

(** With the cache server down the weekly transactions are fetched and
    answered all the same. *)
Lemma unreachable_cache_is_a_miss_witness :
  reachable down_cache = false
  ∧ response (transactionsHandler sample_env down_cache (asking "weekly"))
    = response (transactionsHandler sample_env empty_cache (asking "weekly"))
  ∧ cache (transactionsHandler sample_env down_cache (asking "weekly")) = down_cache.
Proof.
  destruct (unreachable_cache_is_a_miss sample_env down_cache (asking "weekly") eq_refl)
    as (Hresp & _ & Hcache).
  split; [reflexivity|]. split; [exact Hresp|exact Hcache].
Defined.

(** A mailbox that refuses the listing with 403. *)
Lemma listing_failure_status_witness :
  Method (asking "daily") = "GET"
  ∧ cache_miss (world denied_mailbox) empty_cache (asking "daily")
  ∧ strings.TrimSpace (token_of (asking "daily")) ≠ ""
  ∧ Messages_List denied_mailbox (query_for (now (world denied_mailbox)) 2)
    = inr (googleapi.Error 403 "googleapi: Error 403: Insufficient Permission")
  ∧ refused (googleapi.Error 403 "googleapi: Error 403: Insufficient Permission")
  ∧ StatusCode (response (transactionsHandler (world denied_mailbox) empty_cache
                            (asking "daily"))) = 401.
Proof.
  assert (strings.TrimSpace (token_of (asking "daily")) ≠ "") as Htoken by (by vm_compute).
  assert (refused (googleapi.Error 403 "googleapi: Error 403: Insufficient Permission"))
    as Hrefused by (eexists; by right).
  destruct (listing_failure_status (world denied_mailbox) empty_cache (asking "daily")
              denied_mailbox 2 _ eq_refl (empty_cache_miss _ _) Htoken eq_refl eq_refl
              eq_refl) as (_ & _ & Hyes & _).
  split; [reflexivity|]. split; [apply empty_cache_miss|]. split; [exact Htoken|].
  split; [reflexivity|]. split; [exact Hrefused|]. exact (proj1 (Hyes Hrefused)).
Defined.

Lemma empty_live_fetch (filter : string) (days : Z) :
  (filter, days) ∈ [("all", 90); ("daily", 2)] →
  live_fetch (world empty_mailbox) (asking filter) []
    [ListCall (query_for (GoTime.mkTime 2024 3 6) days)].
Proof.
  intros Hin.
  repeat (apply elem_of_cons in Hin as [[= -> ->]|Hin]); [..|by apply elem_of_nil in Hin];
    (split; [by vm_compute|]; exists empty_mailbox; eexists;
     split; [reflexivity|]; split; [by vm_compute|]; by vm_compute).
Qed.

(** An empty mailbox: 200 and zeros for "all", 500 for "daily". *)
Lemma empty_fetch_outcome_witness :
  live_fetch (world empty_mailbox) (asking "all") []
    [ListCall (query_for (GoTime.mkTime 2024 3 6) 90)]
  ∧ StatusCode (response (transactionsHandler (world empty_mailbox) empty_cache
                            (asking "all"))) = 200
  ∧ live_fetch (world empty_mailbox) (asking "daily") []
      [ListCall (query_for (GoTime.mkTime 2024 3 6) 2)]
  ∧ StatusCode (response (transactionsHandler (world empty_mailbox) empty_cache
                            (asking "daily"))) = 500.
Proof.
  assert (("all", 90) ∈ [("all", 90); ("daily", 2)]) as Hall by (by left).
  assert (("daily", 2) ∈ [("all", 90); ("daily", 2)]) as Hdaily by (right; by left).
  pose proof (empty_live_fetch "all" 90 Hall) as Hlive.
  pose proof (empty_live_fetch "daily" 2 Hdaily) as Hlive'.
  destruct (empty_fetch_outcome (world empty_mailbox) empty_cache (asking "all") _
              eq_refl (empty_cache_miss _ _) Hlive) as [Hyes _].
  destruct (empty_fetch_outcome (world empty_mailbox) empty_cache (asking "daily") _
              eq_refl (empty_cache_miss _ _) Hlive') as [_ Hno].
  split; [exact Hlive|]. split; [exact (proj1 (Hyes eq_refl))|].
  split; [exact Hlive'|]. apply Hno. by vm_compute.
Defined.

(** A refresh without a token, over a cache that holds an entry. *)
Lemma refresh_missing_token_witness :
  (Method (post []) = "GET" ∨ Method (post []) = "POST")
  ∧ blank (token_of (post []))
  ∧ StatusCode (response (refreshHandler sample_env warm_cache (post []))) = 401
  ∧ provider_calls (refreshHandler sample_env warm_cache (post [])) = [].
Proof.
  destruct (refresh_missing_token sample_env warm_cache (post [])
              (or_intror eq_refl) blank_empty) as (Hcode & _ & Hcalls & _).
  split; [by right|]. split; [exact blank_empty|]. split; [exact Hcode|exact Hcalls].
Defined.

Lemma sample_refresh_fetch :
  refresh_fetch sample_env refreshing sample_txs sample_txs sample_txs
    ((sample_calls 2 ++ sample_calls 14) ++ sample_calls 60).
Proof.
  split; [by vm_compute|].
  exists sample_mailbox, (sample_calls 2), (sample_calls 14), (sample_calls 60).
  split; [reflexivity|]. split; [by vm_compute|]. split; [by vm_compute|].
  split; [by vm_compute|reflexivity].
Qed.

Lemma large_refresh_fetch :
  refresh_fetch (world large_mailbox) refreshing large_txs large_txs large_txs
    ((large_calls 2 ++ large_calls 14) ++ large_calls 60).
Proof.
  split; [by vm_compute|].
  exists large_mailbox, (large_calls 2), (large_calls 14), (large_calls 60).
  split; [reflexivity|]. split; [by vm_compute|]. split; [by vm_compute|].
  split; [by vm_compute|reflexivity].
Qed.

(** A refresh of the sample mailbox, with an empty cache and with the
    cache server down; and a refresh over amounts whose totals are not
    finite, which answers with the success object and stores nothing. *)
Lemma refresh_success_witness :
  (Method refreshing = "GET" ∨ Method refreshing = "POST")
  ∧ refresh_fetch sample_env refreshing sample_txs sample_txs sample_txs
      ((sample_calls 2 ++ sample_calls 14) ++ sample_calls 60)
  ∧ sample_txs ≠ []
  ∧ StatusCode (response (refreshHandler sample_env empty_cache refreshing)) = 200
  ∧ body (response (refreshHandler sample_env empty_cache refreshing))
    = success_json +:+ line_feed
  ∧ provider_calls (refreshHandler sample_env empty_cache refreshing)
    = (sample_calls 2 ++ sample_calls 14) ++ sample_calls 60
  ∧ entries (cache (refreshHandler sample_env empty_cache refreshing))
      !! getCacheKey "daily"
    = Some (marshalled (mkResponse (mkSummary 1234.5 0 0) (Some sample_txs)), 20)
  ∧ entries (cache (refreshHandler sample_env empty_cache refreshing))
      !! getCacheKey "monthly"
    = Some (marshalled (mkResponse (mkSummary 1234.5 250 (change_of 1234.5 250))
                          (Some sample_txs)), 20)
  ∧ cache (refreshHandler sample_env down_cache refreshing) = down_cache
  ∧ refresh_fetch (world large_mailbox) refreshing large_txs large_txs large_txs
      ((large_calls 2 ++ large_calls 14) ++ large_calls 60)
  ∧ large_txs ≠ []
  ∧ StatusCode (response (refreshHandler (world large_mailbox) empty_cache refreshing)) = 200
  ∧ body (response (refreshHandler (world large_mailbox) empty_cache refreshing))
    = success_json +:+ line_feed
  ∧ entries (cache (refreshHandler (world large_mailbox) empty_cache refreshing))
      !! getCacheKey "daily" = None
  ∧ entries (cache (refreshHandler (world large_mailbox) empty_cache refreshing))
      !! getCacheKey "weekly" = None
  ∧ entries (cache (refreshHandler (world large_mailbox) empty_cache refreshing))
      !! getCacheKey "monthly" = None.
Proof.
  assert (sample_txs ≠ []) as Hne by discriminate.
  assert (large_txs ≠ []) as Hne' by discriminate.
  assert (calculateSummary sample_txs "daily" = inl (mkSummary 1234.5 0 0)) as Hdaily
    by (vm_compute; reflexivity).
  assert (calculateSummary sample_txs "monthly"
          = inl (mkSummary 1234.5 250 (change_of 1234.5 250))) as Hmonthly
    by (vm_compute; reflexivity).
  assert (json_Marshal sample_env
            (response_value (mkResponse (mkSummary 1234.5 0 0) (Some sample_txs)))
          = inl (marshalled (mkResponse (mkSummary 1234.5 0 0) (Some sample_txs))))
    as Hdata by (vm_compute; reflexivity).
  assert (json_Marshal sample_env
            (response_value (mkResponse (mkSummary 1234.5 250 (change_of 1234.5 250))
                               (Some sample_txs)))
          = inl (marshalled (mkResponse (mkSummary 1234.5 250 (change_of 1234.5 250))
                               (Some sample_txs))))
    as Hdata' by (vm_compute; reflexivity).
  assert (calculateSummary large_txs "daily" = inl (mkSummary infinity 0 0)) as Hlarge2
    by (vm_compute; reflexivity).
  assert (calculateSummary large_txs "weekly" = inl (mkSummary infinity 0 0)) as Hlarge14
    by (vm_compute; reflexivity).
  assert (calculateSummary large_txs "monthly" = inl (mkSummary infinity 0 0)) as Hlarge60
    by (vm_compute; reflexivity).
  assert (json_Marshal (world large_mailbox)
            (response_value (mkResponse (mkSummary infinity 0 0) (Some large_txs)))
          = inr "json: unsupported value") as Herr by (vm_compute; reflexivity).
  destruct (refresh_success sample_env empty_cache refreshing sample_txs sample_txs
              sample_txs _ (or_intror eq_refl) sample_refresh_fetch Hne Hne Hne)
    as (ds & ws & ms & Hds & _ & Hms & Hcode & Hbody & Hcalls & _ & _ & Hall & _).
  rewrite Hdaily in Hds. injection Hds as <-.
  rewrite Hmonthly in Hms. injection Hms as <-.
  apply Forall_cons in Hall as [[Hd _] Hall].
  apply Forall_cons in Hall as [_ Hall].
  apply Forall_cons in Hall as [[Hm _] _].
  destruct (refresh_success sample_env down_cache refreshing sample_txs sample_txs
              sample_txs _ (or_intror eq_refl) sample_refresh_fetch Hne Hne Hne)
    as (ds & ws' & ms & _ & _ & _ & _ & _ & _ & _ & Hdown & _).
  destruct (refresh_success (world large_mailbox) empty_cache refreshing large_txs
              large_txs large_txs _ (or_intror eq_refl) large_refresh_fetch Hne' Hne' Hne')
    as (ds' & ws'' & ms' & Hds & Hws & Hms & Hcode' & Hbody' & _ & _ & _ & Hall & _).
  rewrite Hlarge2 in Hds. injection Hds as <-.
  rewrite Hlarge14 in Hws. injection Hws as <-.
  rewrite Hlarge60 in Hms. injection Hms as <-.
  apply Forall_cons in Hall as [[_ Hd'] Hall].
  apply Forall_cons in Hall as [[_ Hw'] Hall].
  apply Forall_cons in Hall as [[_ Hm'] _].
  split; [exact (or_intror eq_refl)|]. split; [exact sample_refresh_fetch|]. split; [exact Hne|].
  split; [exact Hcode|]. split; [exact Hbody|]. split; [exact Hcalls|].
  split; [exact (Hd _ Hdata eq_refl)|]. split; [exact (Hm _ Hdata' eq_refl)|].
  split; [exact (Hdown eq_refl)|]. split; [exact large_refresh_fetch|].
  split; [exact Hne'|]. split; [exact Hcode'|]. split; [exact Hbody'|].
  split; [etrans; [exact (Hd' _ Herr)|reflexivity]|].
  split; [etrans; [exact (Hw' _ Herr)|reflexivity]|].
  etrans; [exact (Hm' _ Herr)|reflexivity].
Defined.

Lemma quiet_refresh_fetch :
  refresh_fetch (world quiet_mailbox) refreshing [] sample_txs sample_txs
    (([ListCall (query_for (GoTime.mkTime 2024 3 6) 2)] ++ sample_calls 14)
     ++ sample_calls 60).
Proof.
  split; [by vm_compute|].
  exists quiet_mailbox, [ListCall (query_for (GoTime.mkTime 2024 3 6) 2)],
    (sample_calls 14), (sample_calls 60).
  split; [reflexivity|]. split; [by vm_compute|]. split; [by vm_compute|].
  split; [by vm_compute|reflexivity].
Qed.

(** Two quiet days: the refresh fails though the longer windows have
    transactions. *)
Lemma refresh_empty_fetch_fails_witness :
  (Method refreshing = "GET" ∨ Method refreshing = "POST")
  ∧ refresh_fetch (world quiet_mailbox) refreshing [] sample_txs sample_txs
      (([ListCall (query_for (GoTime.mkTime 2024 3 6) 2)] ++ sample_calls 14)
       ++ sample_calls 60)
  ∧ StatusCode (response (refreshHandler (world quiet_mailbox) empty_cache refreshing)) = 500
  ∧ cache (refreshHandler (world quiet_mailbox) empty_cache refreshing) = empty_cache.
Proof.
  destruct (refresh_empty_fetch_fails (world quiet_mailbox) empty_cache refreshing
              [] sample_txs sample_txs _ (or_intror eq_refl) quiet_refresh_fetch
              (or_introl eq_refl)) as (Hcode & _ & _ & Hcache).
  split; [by right|]. split; [exact quiet_refresh_fetch|].
  split; [exact Hcode|exact Hcache].
Defined.

Lemma sample_summaries :
  calculateSummary sample_txs "daily" = inl (mkSummary 1234.5 0 0)
  ∧ calculateSummary sample_txs "weekly" = inl (mkSummary 1234.5 0 0)
  ∧ calculateSummary sample_txs "monthly"
    = inl (mkSummary 1234.5 250 (change_of 1234.5 250)).
Proof. repeat split; by vm_compute. Qed.

Lemma sample_daily_round_trip :
  round_trip sample_env (mkResponse (mkSummary 1234.5 0 0) (appended sample_txs)).
Proof.
  exists (marshalled (mkResponse (mkSummary 1234.5 0 0) (appended sample_txs))).
  split; by vm_compute.
Qed.

(** After a refresh of the sample mailbox the daily transactions are
    answered from the cache, to a request without a token. *)
Lemma refresh_then_transactions_witness :
  (Method refreshing = "GET" ∨ Method refreshing = "POST")
  ∧ refresh_fetch sample_env refreshing sample_txs sample_txs sample_txs
      ((sample_calls 2 ++ sample_calls 14) ++ sample_calls 60)
  ∧ reachable empty_cache = true
  ∧ Method (get [("filter", "daily")]) = "GET"
  ∧ filter_of (get [("filter", "daily")]) = "daily"
  ∧ round_trip sample_env (mkResponse (mkSummary 1234.5 0 0) (appended sample_txs))
  ∧ body (response (transactionsHandler sample_env
                      (cache (refreshHandler sample_env empty_cache refreshing))
                      (get [("filter", "daily")])))
    = encoded sample_env
        (response_value (mkResponse (mkSummary 1234.5 0 0) (appended sample_txs)))
  ∧ provider_calls (transactionsHandler sample_env
                      (cache (refreshHandler sample_env empty_cache refreshing))
                      (get [("filter", "daily")])) = [].
Proof.
  destruct sample_summaries as (Hd & Hw & Hm).
  pose proof (refresh_then_transactions sample_env empty_cache refreshing
                (get [("filter", "daily")]) sample_txs sample_txs sample_txs _
                _ _ _ (or_intror eq_refl) sample_refresh_fetch Hd Hw Hm eq_refl eq_refl)
    as Hall.
  apply Forall_cons in Hall as [Hdaily _].
  destruct (Hdaily eq_refl sample_daily_round_trip) as [Hbody Hcalls].
  split; [by right|]. split; [exact sample_refresh_fetch|]. split; [reflexivity|].
  split; [reflexivity|]. split; [reflexivity|].
  split; [exact sample_daily_round_trip|]. split; [exact Hbody|exact Hcalls].
Defined.

(** A mailbox that refuses the first listing of a refresh. *)
Lemma refresh_stops_at_failed_fetch_witness :
  (Method refreshing = "GET" ∨ Method refreshing = "POST")
  ∧ strings.TrimSpace (token_of refreshing) ≠ ""
  ∧ StatusCode (response (refreshHandler (world denied_mailbox) empty_cache refreshing)) = 401
  ∧ provider_calls (refreshHandler (world denied_mailbox) empty_cache refreshing)
    = [ListCall (query_for (GoTime.mkTime 2024 3 6) 2)].
Proof.
  assert (strings.TrimSpace (token_of refreshing) ≠ "") as Htoken by (by vm_compute).
  destruct (refresh_stops_at_failed_fetch (world denied_mailbox) empty_cache refreshing
              denied_mailbox (or_intror eq_refl) Htoken eq_refl) as [Hfirst _].
  destruct (Hfirst (mkAppError 401
                      ("unauthorized: insufficient authentication scopes: "
                       +:+ "googleapi: Error 403: Insufficient Permission"))
                   [ListCall (query_for (GoTime.mkTime 2024 3 6) 2)] eq_refl)
    as (Hcode & Hcalls & _).
  split; [by right|]. split; [exact Htoken|]. split; [exact Hcode|exact Hcalls].
Defined.

End HandlerExamples.

(* --------------------------------------------------------------------- *)
(** ** The router *)

Section RouterFacts.
Import types gmail googleapi services main SummarySpec FieldSpec FieldMore.
Import HttpSpec refresh HttpMore router.

Variable cleanPath : string → string.
Variable env : Env.

(** The status of a response of [transactionsHandler] is 405 only for a
    method it does not serve. *)
Lemma transactionsHandler_status (rc : Redis) (r : Request) :
  StatusCode (response (transactionsHandler env rc r)) = StatusMethodNotAllowed →
  Method r ∉ ["GET"; "OPTIONS"].
Proof.
  unfold transactionsHandler.
  set (w := Header_Set "Access-Control-Allow-Credentials" "true"
              (Header_Set "Access-Control-Allow-Origin" (FRONTEND_URL env) new_writer)).
  assert (status w = None) as Hstatus by done.
  pose proof (λ code msg, StatusCode_respondError env w code msg Hstatus) as Hcode.
  assert (∀ v, StatusCode (Encode env v (Header_Set "Content-Type" "application/json" w))
               = StatusOK) as Hcode'.
  { intros v. by apply StatusCode_Encode. }
  clearbody w.
  case_decide as Hoptions.
  { cbn [response]. unfold StatusCode, WriteHeader, Header_Set. cbn [status].
    by rewrite Hstatus. }
  case_decide as Hget.
  { intros _ Hin. apply elem_of_cons in Hin as [?|Hin]; [done|].
    apply elem_of_cons in Hin as [?|Hin]; [done|]. by apply elem_of_nil in Hin. }
  destruct (match redis_Get rc _ with Some _ => _ | None => _ end) as [resp|].
  { cbn [response]. by rewrite Hcode'. }
  case_decide; [cbn [response]; by rewrite Hcode|].
  destruct (NewGmailServiceWithClient env _) as [gmailService|err];
    [|cbn [response]; by rewrite Hcode].
  destruct (lookback_days _) as [days|]; [|cbn [response]; by rewrite Hcode].
  destruct (FetchTransactions _ _ _ _) as [[txs|appErr] calls] eqn:Hfetch.
  2: { cbn [response]. rewrite Hcode.
       by destruct (FetchTransactions_error_code env _ _ _ _ _ Hfetch) as [-> | ->]. }
  destruct (calculateSummary txs _) as [summary|err]; cbn [response];
    by rewrite ?Hcode, ?Hcode'.
Qed.

Lemma refreshHandler_status (rc : Redis) (r : Request) :
  StatusCode (response (refreshHandler env rc r)) = StatusMethodNotAllowed →
  Method r ∉ ["POST"; "OPTIONS"].
Proof.
  unfold refreshHandler.
  set (w := Header_Set "Access-Control-Allow-Credentials" "true"
              (Header_Set "Access-Control-Allow-Origin" (FRONTEND_URL env) new_writer)).
  assert (status w = None) as Hstatus by done.
  pose proof (λ code msg, StatusCode_respondError env w code msg Hstatus) as Hcode.
  assert (∀ srv days appErr calls,
            FetchTransactions (html_Parse env) srv (now env) days = (inr appErr, calls) →
            Code appErr ≠ StatusMethodNotAllowed) as Hfetch.
  { intros srv days appErr calls Hf.
    by destruct (FetchTransactions_error_code env _ _ _ _ _ Hf) as [-> | ->]. }
  clearbody w.
  case_decide as Hoptions.
  { cbn [response]. unfold StatusCode, WriteHeader, Header_Set. cbn [status].
    by rewrite Hstatus. }
  case_decide as Hmethod.
  { intros _ Hin. destruct Hmethod as [_ Hpost].
    apply elem_of_cons in Hin as [?|Hin]; [done|].
    apply elem_of_cons in Hin as [?|Hin]; [done|]. by apply elem_of_nil in Hin. }
  case_decide; [cbn [response]; by rewrite Hcode|].
  destruct (NewGmailServiceWithClient env _) as [srv|]; [|cbn [response]; by rewrite Hcode].
  destruct (FetchTransactions _ _ _ 2) as [[daily|?] calls1] eqn:H2.
  2: { cbn [response]. rewrite Hcode. intros Heq. exfalso. by eapply Hfetch. }
  destruct (FetchTransactions _ _ _ 14) as [[weekly|?] calls2] eqn:H14.
  2: { cbn [response]. rewrite Hcode. intros Heq. exfalso. by eapply Hfetch. }
  destruct (FetchTransactions _ _ _ 60) as [[monthly|?] calls3] eqn:H60.
  2: { cbn [response]. rewrite Hcode. intros Heq. exfalso. by eapply Hfetch. }
  destruct (calculateSummary daily _); [|cbn [response]; by rewrite Hcode].
  destruct (calculateSummary weekly _); [|cbn [response]; by rewrite Hcode].
  destruct (calculateSummary monthly _); [|cbn [response]; by rewrite Hcode].
  cbn [response]. unfold Write, WriteHeader, StatusCode, Header_Set. cbn [status].
  by rewrite Hstatus.
Qed.

(** What the router of [main] does with a request whose path is in
    canonical form. *)
Lemma ServeHTTP_clean (rc : Redis) (incoming : Incoming) :
  cleanPath (Path incoming) = Path incoming →
  ServeHTTP cleanPath env rc incoming
  = Answered
      (if decide (Path incoming = "/transactions") then
         if decide (Method (request incoming) ∈ ["GET"; "OPTIONS"])
         then transactionsHandler env rc (request incoming)
         else methodNotAllowed rc
       else if decide (Path incoming = "/refresh") then
         if decide (Method (request incoming) ∈ ["POST"; "OPTIONS"])
         then refreshHandler env rc (request incoming)
         else methodNotAllowed rc
       else NotFound rc).
Proof.
  intros Hclean. unfold ServeHTTP. cbn zeta. rewrite decide_False by (intros Hne; by apply Hne).
  unfold routes. cbn [Match route_path route_methods route_handler].
  destruct (decide ("/transactions" = Path incoming)) as [Hp|Hp].
  - rewrite (decide_True (P := Path incoming = "/transactions")) by done.
    destruct (decide (Method (request incoming) ∈ ["GET"; "OPTIONS"])); [done|].
    by rewrite decide_False by (by rewrite <- Hp).
  - rewrite (decide_False (P := Path incoming = "/transactions"))
      by (intros Heq; by apply Hp).
    destruct (decide ("/refresh" = Path incoming)) as [Hp'|Hp'].
    + rewrite (decide_True (P := Path incoming = "/refresh")) by done.
      by destruct (decide (Method (request incoming) ∈ ["POST"; "OPTIONS"])).
    + by rewrite (decide_False (P := Path incoming = "/refresh"))
        by (intros Heq; by apply Hp').
Qed.

(** X29. Through the router of [main], [/transactions] is served for GET
    and OPTIONS and [/refresh] for POST and OPTIONS only: a GET to
    [/refresh] is refused by the router with a bare 405 and never reaches
    [refreshHandler], which accepts GET; another path is answered 404. *)
Theorem router_dispatch (rc : Redis) (incoming : Incoming) :
  cleanPath (Path incoming) = Path incoming →
  (Path incoming = "/transactions" →
     (Method (request incoming) ∈ ["GET"; "OPTIONS"] →
        ServeHTTP cleanPath env rc incoming
        = Answered (transactionsHandler env rc (request incoming)))
     ∧ (Method (request incoming) ∉ ["GET"; "OPTIONS"] →
          ServeHTTP cleanPath env rc incoming = Answered (methodNotAllowed rc)))
  ∧ (Path incoming = "/refresh" →
       (Method (request incoming) ∈ ["POST"; "OPTIONS"] →
          ServeHTTP cleanPath env rc incoming
          = Answered (refreshHandler env rc (request incoming)))
       ∧ (Method (request incoming) ∉ ["POST"; "OPTIONS"] →
            ServeHTTP cleanPath env rc incoming = Answered (methodNotAllowed rc))
       ∧ (Method (request incoming) = "GET" →
            ServeHTTP cleanPath env rc incoming = Answered (methodNotAllowed rc)))
  ∧ (Path incoming ∉ ["/transactions"; "/refresh"] →
       ServeHTTP cleanPath env rc incoming = Answered (NotFound rc)).
Proof.
  intros Hclean. rewrite (ServeHTTP_clean rc incoming Hclean).
  split; [|split].
  - intros Hp. rewrite decide_True by done.
    split; intros Hm; [by rewrite decide_True|by rewrite decide_False].
  - intros Hp. rewrite decide_False by (by rewrite Hp). rewrite decide_True by done.
    split; [|split]; intros Hm; [by rewrite decide_True|by rewrite decide_False|].
    rewrite decide_False; [done|]. rewrite Hm. intros Hin.
    apply elem_of_cons in Hin as [?|Hin]; [done|].
    apply elem_of_cons in Hin as [?|Hin]; [done|]. by apply elem_of_nil in Hin.
  - intros Hp. rewrite !decide_False; [done|..].
    + intros Heq. apply Hp. rewrite Heq. right. by left.
    + intros Heq. apply Hp. rewrite Heq. by left.
Qed.

(** X30. Every 405 the server sends is the router's own: status 405 with
    no header and no body.  The "Method not allowed" answers of the two
    handlers, with their JSON body and CORS headers, are never sent. *)
Theorem method_refusals_are_the_routers (rc : Redis) (incoming : Incoming)
    (served : Served) :
  ServeHTTP cleanPath env rc incoming = Answered served →
  StatusCode (response served) = StatusMethodNotAllowed →
  served = methodNotAllowed rc
  ∧ Header (response served) = ∅ ∧ body (response served) = "".
Proof.
  intros Hserved H405.
  assert (served = methodNotAllowed rc) as ->; [|done].
  destruct (decide (cleanPath (Path incoming) = Path incoming)) as [Hclean|Hne].
  2: { unfold ServeHTTP in Hserved. cbn zeta in Hserved.
       by rewrite decide_True in Hserved by done. }
  rewrite (ServeHTTP_clean rc incoming Hclean) in Hserved.
  injection Hserved as <-. revert H405.
  repeat case_decide; try done.
  - intros H405. by apply transactionsHandler_status in H405.
  - intros H405. by apply refreshHandler_status in H405.
Qed.

End RouterFacts.

Section RouterExamples.
Import types gmail googleapi services main SummarySpec FieldSpec FieldMore.
Import HttpSpec refresh HttpMore router.

(** A refresh asked for with GET, as well as one with POST. *)
Lemma router_dispatch_witness :
  id (Path (mkIncoming "/refresh" (get [("access_token", "ya29.token")])))
  = Path (mkIncoming "/refresh" (get [("access_token", "ya29.token")]))
  ∧ ServeHTTP id sample_env empty_cache
      (mkIncoming "/refresh" (get [("access_token", "ya29.token")]))
    = Answered (methodNotAllowed empty_cache)
  ∧ ServeHTTP id sample_env empty_cache (mkIncoming "/refresh" refreshing)
    = Answered (refreshHandler sample_env empty_cache refreshing).
Proof.
  destruct (router_dispatch id sample_env empty_cache
              (mkIncoming "/refresh" (get [("access_token", "ya29.token")])) eq_refl)
    as (_ & Hget & _).
  destruct (router_dispatch id sample_env empty_cache
              (mkIncoming "/refresh" refreshing) eq_refl) as (_ & Hpost & _).
  split; [reflexivity|]. split.
  - exact (proj2 (proj2 (Hget eq_refl)) eq_refl).
  - apply (proj1 (Hpost eq_refl)). by left.
Defined.

Lemma method_refusals_are_the_routers_witness :
  ServeHTTP id sample_env empty_cache
    (mkIncoming "/transactions" (post [("access_token", "ya29.token")]))
  = Answered (methodNotAllowed empty_cache)
  ∧ StatusCode (response (methodNotAllowed empty_cache)) = StatusMethodNotAllowed
  ∧ Header (response (methodNotAllowed empty_cache)) = ∅.
Proof.
  assert (ServeHTTP id sample_env empty_cache
            (mkIncoming "/transactions" (post [("access_token", "ya29.token")]))
          = Answered (methodNotAllowed empty_cache)) as Hserved by (by vm_compute).
  destruct (method_refusals_are_the_routers id sample_env empty_cache _ _ Hserved eq_refl)
    as (_ & Hheader & _).
  split; [exact Hserved|]. split; [reflexivity|exact Hheader].
Defined.

End RouterExamples.
